(** * ViPRA-UI: the UI / review mismatch pipeline, embedded and verified

    A shallow embedding of the Python sources

      - [core/review_analysis.py]   (sentence selection),
      - [core/gui_analysis.py]      (widget extraction, screenshot annotation),
      - [core/mllm_integration.py]  (prompt construction, response parsing),
      - [app.py]                    (the orchestrating request handler),

    followed by the theorems that relate the code to its specification.

    Conventions of the embedding.
      - A Python [str] is a [string]; its characters are the code points
        below 256 (Latin-1), which is where [str.lower], [str.strip] and
        [int] are modelled exactly ([int] with the default limit of 4300
        digits on the conversion of a string).
      - A Python [dict] with string keys is a [gmap string _].
      - Python exceptions are values of [exn]; code that can raise lives in
        the [result] monad, and [try]/[except] is an explicit handler.
      - Calls into external libraries (json, spaCy, OpenCV, PIL, the model)
        are Section variables: every theorem holds for all their
        behaviours.  Reference instances are provided to run the code on
        concrete inputs. *)

From Stdlib Require Import Ascii.
From stdpp Require Import gmap strings list pretty.

Local Open Scope string_scope.
Local Open Scope Z_scope.

(* ===================================================================== *)
(** * Python built-ins used by the sources                                *)
(* ===================================================================== *)

Module Py.

(** ** Exceptions and the error monad *)

Inductive exn : Type :=
| JSONDecodeError
| ValueError (msg : string)
| TypeError (msg : string)
| KeyError (key : string)
| IndexError
| FileNotFoundError
| ParseError
| GradioError (msg : string)
| OtherError (msg : string)
| RecursionError.

Inductive result (A : Type) : Type :=
| Ok (a : A)
| Raise (e : exn).

Arguments Ok {A} a.
Arguments Raise {A} e.

#[export] Instance result_ret : MRet result := fun A a => Ok a.

#[export] Instance result_bind : MBind result := fun A B k m =>
  match m with
  | Ok a => k a
  | Raise e => Raise e
  end.

Definition is_ok {A} (m : result A) : bool :=
  match m with Ok _ => true | Raise _ => false end.

(** [mapM]: a list comprehension whose body can raise. *)
Fixpoint mapM {A B} (f : A → result B) (l : list A) : result (list B) :=
  match l with
  | [] => Ok []
  | x :: l' => y ← f x; ys ← mapM f l'; Ok (y :: ys)
  end.

(** ** Characters *)

Definition code (c : ascii) : Z := Z.of_nat (nat_of_ascii c).
Definition chr (n : Z) : ascii := ascii_of_nat (Z.to_nat n).

Definition between (lo hi n : Z) : bool := (lo <=? n) && (n <=? hi).

(** [str.lower] on one code point below 256: A-Z and the Latin-1 capitals
    (U+00C0..U+00DE without the multiplication sign U+00D7) move by 32. *)
Definition lower_char (c : ascii) : ascii :=
  let n := code c in
  if between 65 90 n || (between 192 222 n && negb (n =? 215))
  then chr (n + 32) else c.

(** [str.isspace] on one code point below 256. *)
Definition is_space (c : ascii) : bool :=
  let n := code c in
  between 9 13 n || between 28 32 n || (n =? 133) || (n =? 160).

Definition is_digit (c : ascii) : bool := between 48 57 (code c).

(** ** Strings *)

Definition dquote : string := String (chr 34) "".
Definition newline : string := String (chr 10) "".

Definition len (s : string) : Z := Z.of_nat (String.length s).

Fixpoint lower (s : string) : string :=
  match s with
  | "" => ""
  | String c s' => String (lower_char c) (lower s')
  end.

Fixpoint startswith (s p : string) : bool :=
  match p, s with
  | "", _ => true
  | String a p', String b s' => if decide (a = b) then startswith s' p' else false
  | String _ _, "" => false
  end.

(** [s.find(sub)]: index of the first occurrence, or -1. *)
Fixpoint find_from (s sub : string) (i : Z) : Z :=
  if startswith s sub then i
  else match s with
       | "" => -1
       | String _ s' => find_from s' sub (i + 1)
       end.

Definition find (s sub : string) : Z := find_from s sub 0.

(** [s.rfind(sub)]: index of the last occurrence, or -1. *)
Fixpoint rfind_from (s sub : string) (i : Z) : Z :=
  match s with
  | "" => if startswith "" sub then i else -1
  | String _ s' =>
      let r := rfind_from s' sub (i + 1) in
      if r =? -1 then (if startswith s sub then i else -1) else r
  end.

Definition rfind (s sub : string) : Z := rfind_from s sub 0.

(** [sub in s] for strings. *)
Definition contains (s sub : string) : bool := negb (find s sub =? -1).

(** Slicing [s[start:stop]] with Python's treatment of negative and
    out-of-range indices. *)
Definition clamp_index (n i : Z) : Z :=
  if i <? 0 then Z.max 0 (i + n) else Z.min i n.

Definition slice (s : string) (start stop : Z) : string :=
  let lo := clamp_index (len s) start in
  let hi := clamp_index (len s) stop in
  String.substring (Z.to_nat lo) (Z.to_nat (hi - lo)) s.

(** [sep.join(parts)] *)
Fixpoint join (sep : string) (parts : list string) : string :=
  match parts with
  | [] => ""
  | [p] => p
  | p :: rest => p ++ sep ++ join sep rest
  end.

(** [s.lstrip(chars)], [s.rstrip(chars)], [s.strip(chars)], with the set of
    characters given as a predicate. *)
Fixpoint lstrip_by (drop : ascii → bool) (s : string) : string :=
  match s with
  | "" => ""
  | String c s' => if drop c then lstrip_by drop s' else s
  end.

Fixpoint rstrip_by (drop : ascii → bool) (s : string) : string :=
  match s with
  | "" => ""
  | String c s' =>
      match rstrip_by drop s' with
      | "" => if drop c then "" else String c ""
      | r => String c r
      end
  end.

Definition strip_by (drop : ascii → bool) (s : string) : string :=
  rstrip_by drop (lstrip_by drop s).

Fixpoint mem_char (c : ascii) (chars : string) : bool :=
  match chars with
  | "" => false
  | String d chars' => if decide (c = d) then true else mem_char c chars'
  end.

(** [s.strip()] *)
Definition strip (s : string) : string := strip_by is_space s.

(** [s.strip(chars)] *)
Definition strip_chars (s chars : string) : string :=
  strip_by (fun c => mem_char c chars) s.

(** [s.replace(old, new)]: non-overlapping occurrences, left to right.
    [skip] counts the characters of a matched occurrence still to drop. *)
Fixpoint replace_from (s old new : string) (skip : nat) : string :=
  match s with
  | "" => ""
  | String c s' =>
      match skip with
      | S k => replace_from s' old new k
      | O =>
          if startswith s old
          then new ++ replace_from s' old new (Nat.pred (String.length old))
          else String c (replace_from s' old new O)
      end
  end.

Fixpoint interleave (new s : string) : string :=
  match s with
  | "" => new
  | String c s' => new ++ String c (interleave new s')
  end.

Definition replace (s old new : string) : string :=
  match old with
  | "" => interleave new s
  | _ => replace_from s old new O
  end.

(** [s.split(sep)] for a one-character separator. *)
Fixpoint split (s : string) (sep : ascii) : list string :=
  match s with
  | "" => [""]
  | String c s' =>
      if decide (c = sep) then "" :: split s' sep
      else match split s' sep with
           | [] => [String c ""]
           | p :: ps => String c p :: ps
           end
  end.

(** ** [int(s)] for a string *)

(** The white space that [int] skips around a literal.  It is narrower
    than [str.isspace]: the ASCII white space of C (tab to carriage return,
    and the space) and, a string outside ASCII being normalised before it
    is read, U+0085 and U+00A0.  The separators U+001C..U+001F are kept as
    they are and make the literal invalid. *)
Definition is_int_space (c : ascii) : bool :=
  let n := code c in
  between 9 13 n || (n =? 32) || (n =? 133) || (n =? 160).

(** [sys.get_int_max_str_digits()], at its default. *)
Definition int_max_str_digits : Z := 4300.

(** The run of digits and single underscores at the head of [s], as the
    conversion scans it: its value, its number of digits and what follows
    it.  [prev_underscore] tells that the character before was an
    underscore; a doubled underscore and an underscore that ends the run
    are errors. *)
Fixpoint int_scan (s : string) (acc digits : Z) (prev_underscore : bool)
  : option (Z * Z * string) :=
  match s with
  | "" => if prev_underscore then None else Some (acc, digits, "")
  | String c s' =>
      if is_digit c then int_scan s' (10 * acc + (code c - 48)) (digits + 1) false
      else if decide (c = "_"%char)
           then (if prev_underscore then None else int_scan s' acc digits true)
           else (if prev_underscore then None else Some (acc, digits, s))
  end.

(** Leading white space, an optional sign, the digits (no leading
    underscore, at least one digit, at most [int_max_str_digits] of them),
    trailing white space, and nothing else. *)
Definition int (s : string) : result Z :=
  let invalid := Raise (ValueError "invalid literal for int() with base 10") in
  let s1 := lstrip_by is_int_space s in
  let '(sign, s2) :=
    match s1 with
    | String "+" r => (1, r)
    | String "-" r => (-1, r)
    | _ => (1, s1)
    end in
  if startswith s2 "_" then invalid
  else
    match int_scan s2 0 0 false with
    | None => invalid
    | Some (n, digits, rest) =>
        if int_max_str_digits <? digits
        then Raise (ValueError "Exceeds the limit (4300 digits) for integer string conversion")
        else if digits =? 0 then invalid
        else if decide (lstrip_by is_int_space rest = "") then Ok (sign * n)
        else invalid
    end.

(** [str(n)] for an integer.  The sources apply it to the label counter
    only, which stays far below the 4300 digits at which [str] would
    raise. *)
Definition str_of_int (n : Z) : string := pretty n.

End Py.

Import Py.

(* ===================================================================== *)
(** * core/review_analysis.py                                             *)
(* ===================================================================== *)

Module ReviewAnalysis.

(** The keyword list of [extract_functional_snippets]. *)
Definition keywords : list string :=
  [ "bug"; "crash"; "error"; "broken"; "glitch"; "issue"; "stuck";
    "not working"; "doesn't work"; "fails to"; "unable to"; "can't" ].

(** [any(kw in sent for kw in keywords)] *)
Definition has_keyword (sent : string) : bool :=
  existsb (fun kw => contains sent kw) keywords.

(** The [for] loop of [extract_functional_snippets]: [Some sent] when the
    loop returns from inside, [None] when it runs to its end. *)
Fixpoint first_keyword_sentence (sentences : list string) : option string :=
  match sentences with
  | [] => None
  | sent :: rest =>
      if has_keyword sent then Some sent else first_keyword_sentence rest
  end.

Definition extract_functional_snippets (sentences : list string) : string :=
  match sentences with
  | [] => ""
  | first :: _ =>
      match first_keyword_sentence sentences with
      | Some sent => sent
      | None => first
      end
  end.

Section Segmenter.

(** The module-level [nlp]: [None] when the spaCy model failed to load,
    otherwise the pipeline, seen through the one thing the code reads
    from it: the texts of [nlp(text).sents]. *)
Variable nlp : option (string → list string).

Definition preprocess_and_segment_review (text : string) : list string :=
  match nlp with
  | None => []
  | Some sents =>
      if decide (text = "") then []
      else filter (fun s => s ≠ "") (strip <$> sents (strip (lower text)))
  end.

End Segmenter.

(** A stand-in sentence splitter to run the code on examples: a sentence
    ends after [.], [!] or [?] followed by a space. *)
Fixpoint naive_sents_from (s cur : string) : list string :=
  match s with
  | "" => if decide (cur = "") then [] else [cur]
  | String c s' =>
      let cur' := cur ++ String c "" in
      if mem_char c ".!?" && startswith s' " "
      then cur' :: naive_sents_from s' ""
      else naive_sents_from s' cur'
  end.

Definition naive_nlp : option (string → list string) :=
  Some (fun text => strip <$> naive_sents_from text "").

End ReviewAnalysis.

(* ===================================================================== *)
(** * core/gui_analysis.py                                                *)
(* ===================================================================== *)

Module GuiAnalysis.

(** An [xml.etree.ElementTree.Element]: tag, attribute dict, children. *)
#[warning="-register-all"]
Inductive element : Type :=
| Element (tag : string) (attrib : gmap string string) (children : list element).

Definition attrib_of (node : element) : gmap string string :=
  match node with Element _ a _ => a end.

(** [Element.iter()]: the node, then its descendants, in document order. *)
Fixpoint iter (node : element) : list element :=
  match node with
  | Element _ _ children => node :: concat (map iter children)
  end.

(** [d.get(key, default)] *)
Definition get_default (d : gmap string string) (key dflt : string) : string :=
  default dflt (d !! key).

(** [d[key]] *)
Definition getitem (d : gmap string string) (key : string) : result string :=
  match d !! key with
  | Some v => Ok v
  | None => Raise (KeyError key)
  end.

(** The body of the [for node in root.iter()] loop.  Inside the test
    ['bounds' in node.attrib] the call [node.attrib.get('bounds')] is the
    value found by the test. *)
Definition collect_node (elements : list (gmap string string)) (node : element)
  : list (gmap string string) :=
  let attrib := attrib_of node in
  match attrib !! "bounds" with
  | Some bounds =>
      elements ++
        [ <["class" := get_default attrib "class" "N/A"]>
          (<["text" := get_default attrib "text" ""]>
          (<["resource-id" := get_default attrib "resource-id" ""]>
          (<["clickable" := get_default attrib "clickable" "false"]>
          (<["bounds" := bounds]> ∅)))) ]
  | None => elements
  end.

Section Files.

(** [os.path.exists] and [ET.parse(path).getroot()]. *)
Variable path_exists : string → bool.
Variable ET_parse : string → result element.

Definition parse_xml_hierarchy (xml_path : string)
  : result (list (gmap string string)) :=
  if negb (path_exists xml_path) then Ok []
  else
    match ET_parse xml_path with
    | Raise ParseError => Ok []
    | Raise e => Raise e
    | Ok root => Ok (foldl collect_node [] (iter root))
    end.

End Files.

(** ** Screenshot annotation *)

(** What the code draws on the image, in order: [cv2.rectangle] with its
    two corners, colour and thickness, and [cv2.putText] with the label
    text (its remaining arguments lie beyond the end of the source file). *)
Inductive draw_op : Type :=
| Rectangle (pt1 pt2 : Z * Z) (color : Z * Z * Z) (thickness : Z)
| PutText (text : string).

(** The variables of the loop of [annotate_screenshot]; [img] is the list of
    drawing calls made on the image that was read. *)
Record annot_state : Type := AnnotState {
  img : list draw_op;
  label_counter : Z;
  annotated_widget_details : list string
}.

Definition is_clickable (el : gmap string string) : bool :=
  bool_decide (el !! "clickable" = Some "true").

Definition has_text (el : gmap string string) : bool :=
  negb (bool_decide (get_default el "text" "" = "")).

(** [(x1, y1, x2, y2) = coords] *)
Definition unpack4 (coords : list Z) : result (Z * Z * Z * Z) :=
  match coords with
  | [x1; y1; x2; y2] => Ok (x1, y1, x2, y2)
  | _ => Raise (ValueError "wrong number of values to unpack")
  end.

(** The first three statements of the [try] block: bounds such as
    ["[x1,y1][x2,y2]"] to four integers. *)
Definition parse_bounds (el : gmap string string) : result (Z * Z * Z * Z) :=
  bounds ← getitem el "bounds";
  let coords_str := strip_chars (replace bounds "][" ",") "[]" in
  coords ← mapM int (split coords_str ","%char);
  unpack4 coords.

(** Modelled from the spec: the rendered description of an annotated
    widget, "label N: class=..., text=..., clickable=..."; the statement
    that builds it lies beyond the end of the source file. *)
Definition describe (label : Z) (el : gmap string string) : string :=
  "label " ++ str_of_int label
    ++ ": class=" ++ get_default el "class" "N/A"
    ++ ", text=" ++ get_default el "text" ""
    ++ ", clickable=" ++ get_default el "clickable" "false".

(** What [annotate_screenshot] hands back: [None], or the pair that
    [app.py] unpacks. *)
Inductive annot_result : Type :=
| AnnotNone
| AnnotPair (annotated_image_path : string) (widget_details : list string).

Section Annotate.

(** [cv2.getTextSize(label_text, FONT_HERSHEY_SIMPLEX, 0.8, 2)[0]] *)
Variable getTextSize : string → Z * Z.

(** The drawing calls of the [try] block for one widget. *)
Definition draw_widget (st : annot_state) (el : gmap string string)
  : result (list draw_op) :=
  '(x1, y1, x2, y2) ← parse_bounds el;
  let color := if is_clickable el then (0, 255, 0) else (255, 0, 0) in
  let label_text := str_of_int (label_counter st) in
  let '(w, h) := getTextSize label_text in
  Ok [ Rectangle (x1, y1) (x2, y2) color 3;
       Rectangle (x1, y1 - h - 10) (x1 + w, y1 - 5) color (-1);
       PutText label_text ].

(** Modelled from the spec: the end of the loop body, which lies beyond
    the end of the source file.  After the drawing calls the widget's
    description is recorded under the current label and the counter moves
    on; a widget whose bounds do not parse is skipped silently.  The
    selection test and the [try] around the drawing calls are the
    source's. *)
Definition annotate_widget (st : annot_state) (el : gmap string string)
  : annot_state :=
  if is_clickable el || has_text el then
    match draw_widget st el with
    | Ok ops =>
        {| img := img st ++ ops;
           label_counter := label_counter st + 1;
           annotated_widget_details :=
             annotated_widget_details st ++ [describe (label_counter st) el] |}
    | Raise _ => st
    end
  else st.

Definition annotate_loop (elements : list (gmap string string)) : annot_state :=
  foldl annotate_widget
    {| img := []; label_counter := 1; annotated_widget_details := [] |}
    elements.

Variable path_exists : string → bool.
(** [cv2.imread(path) is not None] *)
Variable imread_ok : string → bool.
(** Modelled from the spec: the path under which the annotated image is
    saved; the statements that save it lie beyond the end of the source
    file. *)
Variable annotated_path_of : string → string.

Definition annotate_screenshot (image_path : string)
    (elements : list (gmap string string)) : annot_result :=
  if negb (path_exists image_path) then AnnotNone
  else if negb (imread_ok image_path) then AnnotNone
  else
    AnnotPair (annotated_path_of image_path)
              (annotated_widget_details (annotate_loop elements)).

End Annotate.

End GuiAnalysis.

(* ===================================================================== *)
(** * core/mllm_integration.py                                            *)
(* ===================================================================== *)

Module MllmIntegration.

(** ** The values [json.loads] produces *)

Inductive pyfloat : Type :=
| FDec (mantissa exponent : Z)      (* the decimal literal m * 10^e *)
| FNaN
| FInf (negative : bool).

#[warning="-register-all"]
Inductive pyval : Type :=
| PNone
| PBool (b : bool)
| PInt (n : Z)
| PFloat (f : pyfloat)
| PStr (s : string)
| PList (l : list pyval)
| PDict (d : gmap string pyval).

(** [key in v], for a string [key].  On a dict it tests the keys, on a
    list the elements (a string equals only a string), on a string it is
    the substring test; the other values are not iterable. *)
Definition py_in (key : string) (v : pyval) : result bool :=
  match v with
  | PDict d => Ok (bool_decide (is_Some (d !! key)))
  | PList l =>
      Ok (existsb (fun x => match x with
                            | PStr s => bool_decide (s = key)
                            | _ => false
                            end) l)
  | PStr s => Ok (contains s key)
  | _ => Raise (TypeError "argument is not iterable")
  end.

(** [all(key in v for key in keys)]: stops at the first [False]. *)
Fixpoint all_in (keys : list string) (v : pyval) : result bool :=
  match keys with
  | [] => Ok true
  | key :: keys' =>
      present ← py_in key v;
      if present : bool then all_in keys' v else Ok false
  end.

(** [v[key]], for a string [key]. *)
Definition py_getitem (v : pyval) (key : string) : result pyval :=
  match v with
  | PDict d =>
      match d !! key with
      | Some x => Ok x
      | None => Raise (KeyError key)
      end
  | PList _ | PStr _ => Raise (TypeError "indices must be integers")
  | _ => Raise (TypeError "object is not subscriptable")
  end.

(** [isinstance(v, str)] *)
Definition isinstance_str (v : pyval) : bool :=
  match v with PStr _ => true | _ => false end.

(** [isinstance(v, (int, float))]; [bool] is a subclass of [int]. *)
Definition isinstance_int_float (v : pyval) : bool :=
  match v with
  | PInt _ | PFloat _ | PBool _ => true
  | _ => false
  end.

(** [v.lower() not in ["yes", "no"]] for a [str] value. *)
Definition not_yes_no (v : pyval) : bool :=
  match v with
  | PStr s => negb (bool_decide (lower s ∈ ["yes"; "no"]))
  | _ => true
  end.

(** ** [construct_prompt] *)

Definition lines (ls : list string) : string := join newline ls.

Definition prompt_head : string := lines
  [ "";
    "Analyze the provided mobile UI screenshot to determine if there is a mismatch between the visual interface and the user's feedback.";
    "";
    "**User Review Snippet:**";
    dquote ].

Definition prompt_middle : string := lines
  [ dquote;
    "";
    "**Annotated Widget Details:**";
    "(Refer to the numbered widgets in the image)";
    "" ].

Definition prompt_tail : string := lines
  [ "";
    "";
    "**Your Task:**";
    "1.  **Identify the User's Core Complaint:** What specific UI element and problem is the user describing?";
    "2.  **Ground the Complaint:** Locate the relevant widget in the image and its details using the provided annotations.";
    "3.  **Analyze for Mismatch:** Compare the user's complaint with the visual and structural evidence. Does the UI imply a functionality that the user reports as broken or missing?";
    "4.  **Provide a Conclusion in JSON format.**";
    "";
    "**JSON Output Format:**";
    "Please provide your final analysis ONLY in the following JSON format. Do not add any text before or after the JSON block.";
    "{";
    "  " ++ dquote ++ "mismatch_detected" ++ dquote ++ ": " ++ dquote ++ "Yes" ++ dquote ++ " or " ++ dquote ++ "No" ++ dquote ++ ",";
    "  " ++ dquote ++ "confidence_score" ++ dquote ++ ": <A float between 0.0 and 1.0>,";
    "  " ++ dquote ++ "mismatch_type" ++ dquote ++ ": " ++ dquote ++ "<'Non-Functional Element', 'Feature Misrepresentation', 'Visual Glitch', or 'None'>" ++ dquote ++ ",";
    "  " ++ dquote ++ "rationale" ++ dquote ++ ": " ++ dquote ++ "<A concise, step-by-step explanation of your reasoning. Start by identifying the user's claim, then ground it to a widget, and finally explain why it is or is not a mismatch.>" ++ dquote ++ ",";
    "  " ++ dquote ++ "relevant_widget_id" ++ dquote ++ ": <The number of the most relevant widget, or null>";
    "}";
    "" ].

Definition widget_str (widget_details : list string) : string :=
  match widget_details with
  | [] => "No widget details extracted."
  | _ => join newline widget_details
  end.

Definition construct_prompt (widget_details : list string)
    (review_snippet : string) : string :=
  prompt_head ++ review_snippet ++ prompt_middle
    ++ widget_str widget_details ++ prompt_tail.

(** ** [parse_llm_output] *)

Definition required_keys : list string :=
  [ "mismatch_detected"; "confidence_score"; "mismatch_type"; "rationale" ].

(** The JSON candidate: [text[text.find('{') : text.rfind('}') + 1]]. *)
Definition json_candidate (generated_text : string) : string :=
  slice generated_text (find generated_text "{") (rfind generated_text "}" + 1).

Definition error_record (generated_text : string) : pyval :=
  PDict (<["error" := PStr "Failed to parse a valid JSON response from the MLLM."]>
         (<["raw_output" := PStr generated_text]> ∅)).

(** The exceptions named by the [except] clause; [JSONDecodeError] is a
    subclass of [ValueError]. *)
Definition caught (e : exn) : bool :=
  match e with
  | JSONDecodeError | ValueError _ | TypeError _ => true
  | _ => false
  end.

Section Parser.

(** [json.loads]: it returns the decoded value or raises.  On a text that
    is not a JSON document it raises [JSONDecodeError]; it can raise other
    exceptions too, such as [RecursionError] on a deeply nested text. *)
Variable json_loads : string → result pyval.

(** The body of the [try] block. *)
Definition parse_llm_output_try (generated_text : string) : result pyval :=
  let json_str := json_candidate generated_text in
  if decide (json_str = "")
  then Raise (ValueError "JSON block not found in the output.")
  else
    parsed_json ← json_loads json_str;
    present ← all_in required_keys parsed_json;
    if negb present
    then Raise (ValueError "The generated JSON is missing required keys.")
    else
      detected ← py_getitem parsed_json "mismatch_detected";
      if negb (isinstance_str detected) || not_yes_no detected
      then Raise (TypeError "`mismatch_detected` must be 'Yes' or 'No'.")
      else
        score ← py_getitem parsed_json "confidence_score";
        if negb (isinstance_int_float score)
        then Raise (TypeError "`confidence_score` must be a number.")
        else Ok parsed_json.

Definition parse_llm_output (generated_text : string) : result pyval :=
  match parse_llm_output_try generated_text with
  | Ok parsed_json => Ok parsed_json
  | Raise e =>
      if caught e then Ok (error_record generated_text) else Raise e
  end.

End Parser.

End MllmIntegration.

(* ===================================================================== *)
(** * A reference [json.loads]                                            *)
(* ===================================================================== *)

(** The theorems below hold for every decoder.  To run the parser on
    concrete model outputs, this module gives a decoder for the JSON
    grammar that Python's [json] module accepts, on documents whose strings
    stay within Latin-1, whose integers stay within the conversion limit
    and whose nesting stays within the interpreter's recursion limit. *)

Module JsonRef.

Import MllmIntegration.

Definition is_ws (c : ascii) : bool :=
  let n := code c in (n =? 32) || (n =? 9) || (n =? 10) || (n =? 13).

Definition skip_ws (s : string) : string := lstrip_by is_ws s.

Fixpoint drop (n : nat) (s : string) : string :=
  match n, s with
  | S k, String _ s' => drop k s'
  | _, _ => s
  end.

Definition hex_value (c : ascii) : option Z :=
  let n := code c in
  if between 48 57 n then Some (n - 48)
  else if between 97 102 n then Some (n - 87)
  else if between 65 70 n then Some (n - 55)
  else None.

Definition escape_char (c : ascii) : option ascii :=
  let n := code c in
  if (n =? 34) || (n =? 92) || (n =? 47) then Some c
  else if n =? 98 then Some (chr 8)
  else if n =? 102 then Some (chr 12)
  else if n =? 110 then Some (chr 10)
  else if n =? 114 then Some (chr 13)
  else if n =? 116 then Some (chr 9)
  else None.

(** The characters after an opening quote, up to the closing one. *)
Fixpoint scan_string (s acc : string) : option (string * string) :=
  match s with
  | "" => None
  | String c r =>
      if code c =? 34 then Some (acc, r)
      else if code c <? 32 then None
      else if code c =? 92 then
        match r with
        | String "u" (String h1 (String h2 (String h3 (String h4 r')))) =>
            a ← hex_value h1; b ← hex_value h2;
            c' ← hex_value h3; d ← hex_value h4;
            let n := ((a * 16 + b) * 16 + c') * 16 + d in
            if n <? 256 then scan_string r' (acc ++ String (chr n) "") else None
        | String e r' =>
            x ← escape_char e; scan_string r' (acc ++ String x "")
        | "" => None
        end
      else scan_string r (acc ++ String c "")
  end.

Fixpoint scan_digits (s : string) (acc count : Z) : Z * Z * string :=
  match s with
  | String c r =>
      if is_digit c then scan_digits r (10 * acc + (code c - 48)) (count + 1)
      else (acc, count, s)
  | "" => (acc, count, s)
  end.

(** A number: an optional minus sign, an integer part without a leading
    zero, an optional fraction, an optional exponent.  It is an [int] when
    there is neither fraction nor exponent, a [float] otherwise. *)
Definition scan_number (s : string) : option (pyval * string) :=
  let '(sign, s1) :=
    match s with String "-" r => (-1, r) | _ => (1, s) end in
  match s1 with
  | String c r =>
      if is_digit c then
        let '(ip, s2) :=
          if code c =? 48 then (0, r)
          else let '(v, _, rest) := scan_digits s1 0 0 in (v, rest) in
        let '(m, e, is_frac, s3) :=
          match s2 with
          | String "." r2 =>
              let '(v, cnt, rest) := scan_digits r2 ip 0 in
              if cnt =? 0 then (ip, 0, false, s2) else (v, - cnt, true, rest)
          | _ => (ip, 0, false, s2)
          end in
        let '(x, is_exp, s4) :=
          match s3 with
          | String k r3 =>
              if (code k =? 101) || (code k =? 69) then
                let '(esign, r4) :=
                  match r3 with
                  | String "+" t => (1, t)
                  | String "-" t => (-1, t)
                  | _ => (1, r3)
                  end in
                let '(v, cnt, rest) := scan_digits r4 0 0 in
                if cnt =? 0 then (0, false, s3) else (esign * v, true, rest)
              else (0, false, s3)
          | "" => (0, false, s3)
          end in
        if is_frac || is_exp
        then Some (PFloat (FDec (sign * m) (e + x)), s4)
        else Some (PInt (sign * m), s4)
      else None
  | "" => None
  end.

(** One JSON value at the head of [s], and what follows it.  [fuel] bounds
    the number of values, members and items read. *)
Fixpoint scan_value (fuel : nat) (s : string) : option (pyval * string) :=
  match fuel with
  | O => None
  | S n =>
      match s with
      | "" => None
      | String c r =>
          if code c =? 34 then
            '(str, rest) ← scan_string r ""; Some (PStr str, rest)
          else if code c =? 123 then
            let r' := skip_ws r in
            if startswith r' "}" then Some (PDict ∅, drop 1 r')
            else scan_members n r' ∅
          else if code c =? 91 then
            let r' := skip_ws r in
            if startswith r' "]" then Some (PList [], drop 1 r')
            else scan_items n r' []
          else if startswith s "null" then Some (PNone, drop 4 s)
          else if startswith s "true" then Some (PBool true, drop 4 s)
          else if startswith s "false" then Some (PBool false, drop 5 s)
          else if startswith s "NaN" then Some (PFloat FNaN, drop 3 s)
          else if startswith s "Infinity" then Some (PFloat (FInf false), drop 8 s)
          else if startswith s "-Infinity" then Some (PFloat (FInf true), drop 9 s)
          else scan_number s
      end
  end
with scan_members (fuel : nat) (s : string) (acc : gmap string pyval)
  : option (pyval * string) :=
  match fuel with
  | O => None
  | S n =>
      match s with
      | String q r =>
          if code q =? 34 then
            '(key, r1) ← scan_string r "";
            match skip_ws r1 with
            | String ":" r2 =>
                '(v, r3) ← scan_value n (skip_ws r2);
                let acc' := <[key := v]> acc in
                match skip_ws r3 with
                | String "," r4 => scan_members n (skip_ws r4) acc'
                | String "}" r4 => Some (PDict acc', r4)
                | _ => None
                end
            | _ => None
            end
          else None
      | "" => None
      end
  end
with scan_items (fuel : nat) (s : string) (acc : list pyval)
  : option (pyval * string) :=
  match fuel with
  | O => None
  | S n =>
      '(v, r1) ← scan_value n s;
      match skip_ws r1 with
      | String "," r2 => scan_items n (skip_ws r2) (acc ++ [v])
      | String "]" r2 => Some (PList (acc ++ [v]), r2)
      | _ => None
      end
  end.

(** One value, white space around it, nothing else. *)
Definition decode (s : string) : option pyval :=
  '(v, rest) ← scan_value (2 * String.length s + 2) (skip_ws s);
  if decide (skip_ws rest = "") then Some v else None.

(** [json.loads(s)]: the decoded value, or [JSONDecodeError]. *)
Definition json_loads (s : string) : result pyval :=
  match decode s with
  | Some v => Ok v
  | None => Raise JSONDecodeError
  end.

End JsonRef.

(* ===================================================================== *)
(** * Calls that leave the process                                        *)
(* ===================================================================== *)

Module Effects.

(** The calls a request can make to PIL, to the Florence-2 processor and to
    the model, and the call that builds the prompt. *)
Inductive event : Type :=
| ImageOpen (path : string)
| ConstructPrompt (widget_details : list string) (review_snippet : string)
| Processor (prompt : string)
| Generate (max_new_tokens : Z)
| BatchDecode.

(** A computation that can raise and that appends to the log of calls. *)
Definition io (A : Type) : Type := list event → result A * list event.

#[export] Instance io_ret : MRet io := fun A a log => (Ok a, log).

#[export] Instance io_bind : MBind io := fun A B k m log =>
  match m log with
  | (Ok a, log') => k a log'
  | (Raise e, log') => (Raise e, log')
  end.

Definition raise {A} (e : exn) : io A := fun log => (Raise e, log).

Definition lift {A} (r : result A) : io A := fun log => (r, log).

(** An external call: logged, then its outcome. *)
Definition call {A} (ev : event) (r : result A) : io A :=
  fun log => (r, (log ++ [ev])%list).

(** [try: m], with the outcome handed to the [except] clauses. *)
Definition attempt {A} (m : io A) : io (result A) :=
  fun log => let '(r, log') := m log in (Ok r, log').

(** [str(e)] for an exception. *)
Definition str_of_exn (e : exn) : string :=
  match e with
  | JSONDecodeError => "Expecting value"
  | ValueError msg | TypeError msg | GradioError msg | OtherError msg => msg
  | KeyError key => "'" ++ key ++ "'"
  | IndexError => "list index out of range"
  | FileNotFoundError => "No such file or directory"
  | ParseError => "syntax error"
  | RecursionError => "maximum recursion depth exceeded"
  end.

End Effects.

(* ===================================================================== *)
(** * [MLLMAnalyzer.analyze_ui_review_pair] and [app.py]                  *)
(* ===================================================================== *)

Module App.

Import Effects ReviewAnalysis GuiAnalysis MllmIntegration.

Section Pipeline.

(** PIL images, processor outputs and generated token ids. *)
Variables Image Inputs Ids : Type.

(** What [analyze_ui_review_pair] reads from [self]. *)
Record MLLMAnalyzer : Type := {
  max_tokens : Z;
  processor : string → Image → result Inputs;
  to_device : Inputs → result Inputs;
  model_generate : Inputs → Z → result Ids;
  batch_decode : Ids → result (list string)
}.

(** [Image.open(path).convert("RGB")] *)
Variable Image_open : string → result Image.
Variable json_loads : string → result pyval.

(** [texts[0]] *)
Definition first_text (texts : list string) : result string :=
  match texts with
  | t :: _ => Ok t
  | [] => Raise IndexError
  end.

(** [not image_path]: true for [None] and for the empty string. *)
Definition no_path (image_path : option string) : bool :=
  match image_path with
  | None => true
  | Some p => bool_decide (p = "")
  end.

Definition analyze_ui_review_pair (self : MLLMAnalyzer)
    (image_path : option string) (widget_details : list string)
    (review_snippet : string) : io pyval :=
  if no_path image_path || bool_decide (review_snippet = "")
  then mret (PDict {[ "error" := PStr "Missing image path or review snippet." ]})
  else
    let path := default "" image_path in
    opened ← attempt (call (ImageOpen path) (Image_open path));
    match opened with
    | Raise FileNotFoundError =>
        mret (PDict {[ "error" := PStr ("Annotated image not found at " ++ path) ]})
    | Raise e => raise e
    | Ok image =>
        task_prompt ← call (ConstructPrompt widget_details review_snippet)
                           (Ok (construct_prompt widget_details review_snippet));
        let final_prompt := "<MORE_DETAILED_OCR>" ++ task_prompt in
        inputs ← call (Processor final_prompt) (processor self final_prompt image);
        inputs ← lift (to_device self inputs);
        generated ← attempt (
          generated_ids ← call (Generate (max_tokens self))
                               (model_generate self inputs (max_tokens self));
          texts ← call BatchDecode (batch_decode self generated_ids);
          lift (first_text texts));
        match generated with
        | Raise e =>
            mret (PDict (<["error" := PStr "MLLM generation failed."]>
                        (<["details" := PStr (str_of_exn e)]> ∅)))
        | Ok generated_text => lift (parse_llm_output json_loads generated_text)
        end
    end.

(** ** [run_vipra_ui_analysis] *)

(** The module-level [analyzer], [None] when initialisation failed. *)
Variable analyzer : option MLLMAnalyzer.
Variable nlp : option (string → list string).
Variable path_exists : string → bool.
Variable ET_parse : string → result element.
Variable imread_ok : string → bool.
Variable getTextSize : string → Z * Z.
Variable annotated_path_of : string → string.
(** [json.dumps(v, indent=2)] and the text an f-string gives a value that
    is not a [str]. *)
Variable json_dumps : pyval → string.
Variable format_value : pyval → string.

(** A file handed over by the form: the code reads its [name]. *)
Record upload : Type := { name : string }.

(** [annotated_image_path, widget_details = ...] *)
Definition unpack_pair (r : annot_result) : result (string * list string) :=
  match r with
  | AnnotPair p details => Ok (p, details)
  | AnnotNone => Raise (TypeError "cannot unpack non-iterable NoneType object")
  end.

Definition fstring (v : pyval) : string :=
  match v with
  | PStr s => s
  | _ => format_value v
  end.

(** [d.get(key, dflt)] on the analysis result. *)
Definition result_get (v : pyval) (key : string) (dflt : pyval) : result pyval :=
  match v with
  | PDict d => Ok (default dflt (d !! key))
  | _ => Raise (OtherError "object has no attribute 'get'")
  end.

Definition run_vipra_ui_analysis (screenshot_image : option upload)
    (review_text : string) (xml_file : option upload) : io (string * string) :=
  match analyzer with
  | None =>
      raise (GradioError "MLLM Analyzer is not available. Check server logs for initialization errors.")
  | Some self =>
      match screenshot_image with
      | None => raise (GradioError "Please upload a screenshot and provide a user review.")
      | Some shot =>
          if bool_decide (strip review_text = "")
          then raise (GradioError "Please upload a screenshot and provide a user review.")
          else
            let screenshot_path := name shot in
            let xml_path := name <$> xml_file in
            let sentences := preprocess_and_segment_review nlp review_text in
            let functional_snippet := extract_functional_snippets sentences in
            ui_elements ← lift (
              if no_path xml_path then Ok []
              else parse_xml_hierarchy path_exists ET_parse (default "" xml_path));
            '(annotated_image_path, widget_details) ← lift (unpack_pair (
              annotate_screenshot getTextSize path_exists imread_ok
                annotated_path_of screenshot_path ui_elements));
            if bool_decide (annotated_image_path = "")
            then raise (GradioError "Failed to process the uploaded screenshot. It might be corrupted.")
            else
              analysis_result ← analyze_ui_review_pair self
                (Some annotated_image_path) widget_details functional_snippet;
              has_error ← lift (py_in "error" analysis_result);
              if has_error : bool then
                error_message ← lift (
                  result_get analysis_result "error" (PStr "An unknown error occurred."));
                raw_output ← lift (result_get analysis_result "raw_output" (PStr ""));
                raise (GradioError (fstring error_message ++ newline ++ newline
                                    ++ "Raw Output: " ++ fstring raw_output))
              else
                mret (annotated_image_path, json_dumps analysis_result)
      end
  end.

End Pipeline.

End App.


(* ===================================================================== *)
(** * Vocabulary of the specification                                     *)
(* ===================================================================== *)

Module Spec.

Import ReviewAnalysis GuiAnalysis MllmIntegration.

(** ** Review segmenter *)

(** A sentence mentions a keyword when one of them occurs in it. *)
Definition mentions_keyword (sent : string) : Prop :=
  ∃ kw pre post, kw ∈ keywords ∧ sent = pre ++ kw ++ post.

(** The fixed keyword set, as the specification enumerates it. *)
Definition keyword_set : list string :=
  [ "bug"; "crash"; "error"; "broken"; "glitch"; "issue"; "stuck";
    "not working"; "doesn't work"; "fails to"; "unable to"; "can't" ].

(** A sentence contains a keyword of that set as a substring. *)
Definition contains_keyword (sent : string) : Prop :=
  ∃ kw pre post, kw ∈ keyword_set ∧ sent = pre ++ kw ++ post.

(** ** Widget extractor *)

Definition carries_bounds (node : element) : Prop :=
  is_Some (attrib_of node !! "bounds").

#[export] Instance carries_bounds_dec node : Decision (carries_bounds node).
Proof. unfold carries_bounds. apply _. Defined.

(** Document order: a node comes first, then the nodes below its first
    child in document order, then those below its second child, and so
    on. *)
#[warning="-register-all"]
Inductive document_order : element → list element → Prop :=
| document_order_node tag attrib children below :
    Forall2 document_order children below →
    document_order (Element tag attrib children)
                   (Element tag attrib children :: concat below).

(** The record the specification asks for, for one node. *)
Definition record_of (node : element) (w : gmap string string) : Prop :=
  let attrib := attrib_of node in
  w !! "bounds" = attrib !! "bounds" ∧
  w !! "class" = Some (default "N/A" (attrib !! "class")) ∧
  w !! "text" = Some (default "" (attrib !! "text")) ∧
  w !! "resource-id" = Some (default "" (attrib !! "resource-id")) ∧
  w !! "clickable" = Some (default "false" (attrib !! "clickable")) ∧
  dom w = {[ "class"; "text"; "resource-id"; "clickable"; "bounds" ]}.

(** ** Visual annotator *)

(** The widgets the annotator selects: clickable, or with a text. *)
Definition qualifies (el : gmap string string) : Prop :=
  el !! "clickable" = Some "true" ∨ ∃ t, el !! "text" = Some t ∧ t ≠ "".

(** The widgets that end up with a label: selected, with bounds that parse. *)
Definition labelled (el : gmap string string) : bool :=
  (is_clickable el || has_text el) && is_ok (parse_bounds el).

(** Consecutive numbers from [n] on, attached to a list in its order. *)
Fixpoint number_from {A} (n : Z) (l : list A) : list (Z * A) :=
  match l with
  | [] => []
  | x :: l' => (n, x) :: number_from (n + 1) l'
  end.

(** The label texts put on the image, in drawing order. *)
Definition labels_drawn (ops : list draw_op) : list string :=
  omap (fun op => match op with PutText t => Some t | _ => None end) ops.

(** ** Prompt builder *)

(** The line feed and the double quote, by their code points. *)
Definition line_feed : string := String (ascii_of_nat 10) "".
Definition double_quote : string := String (ascii_of_nat 34) "".

(** The texts of a list one after the other, with a line feed between
    two neighbours. *)
Definition newline_joined (texts : list string) : string :=
  String.concat line_feed texts.

(** ** Response parser *)

(** The strings equal to "yes" or to "no" when case is ignored. *)
Definition yes_no_spellings : list string :=
  [ "yes"; "yeS"; "yEs"; "yES"; "Yes"; "YeS"; "YEs"; "YES";
    "no"; "nO"; "No"; "NO" ].

Definition upper_of (b : ascii) : ascii := chr (code b - 32).

(** A JSON number: an [int] or a [float], not a boolean. *)
Definition is_json_number (v : pyval) : Prop :=
  match v with
  | PInt _ | PFloat _ => True
  | _ => False
  end.

(** What an accepted model output looks like to the code. *)
Definition accepts (json_loads : string → result pyval) (text : string)
    (d : gmap string pyval) : Prop :=
  json_candidate text ≠ "" ∧
  json_loads (json_candidate text) = Ok (PDict d) ∧
  Forall (fun key => is_Some (d !! key)) required_keys ∧
  (∃ s, d !! "mismatch_detected" = Some (PStr s) ∧ lower s ∈ ["yes"; "no"]) ∧
  (∃ score, d !! "confidence_score" = Some score ∧
            isinstance_int_float score = true).

(** An exception of [json.loads] that the [except] clause of
    [parse_llm_output] does not name, and that therefore leaves it. *)
Definition decoder_escapes (json_loads : string → result pyval) (text : string)
    (e : exn) : Prop :=
  json_candidate text ≠ "" ∧
  json_loads (json_candidate text) = Raise e ∧ caught e = false.

(** A field that may be set to any value or be absent. *)
Definition with_optional (key : string) (v : option pyval)
    (d : gmap string pyval) : gmap string pyval :=
  match v with
  | Some x => <[key := x]> d
  | None => delete key d
  end.

Definition missing_inputs_record : pyval :=
  PDict {[ "error" := PStr "Missing image path or review snippet." ]}.

End Spec.

(* ===================================================================== *)
(** * Sample data                                                         *)
(* ===================================================================== *)

Module Samples.

Import ReviewAnalysis GuiAnalysis MllmIntegration App.

Definition field (key value : string) : string :=
  dquote ++ key ++ dquote ++ ":" ++ value.

Definition quoted (s : string) : string := dquote ++ s ++ dquote.

(** The inside of the object of the specification's parser example. *)
Definition sure_inner : string :=
  field "mismatch_detected" (quoted "Yes") ++ ","
  ++ field "confidence_score" "0.9" ++ ","
  ++ field "mismatch_type" (quoted "Visual Glitch") ++ ","
  ++ field "rationale" (quoted "x").

Definition sure_output : string := "Sure! " ++ "{" ++ sure_inner ++ "}" ++ " thanks".

Definition sure_object : gmap string pyval :=
  <["mismatch_detected" := PStr "Yes"]>
  (<["confidence_score" := PFloat (FDec 9 (-1))]>
  (<["mismatch_type" := PStr "Visual Glitch"]>
  (<["rationale" := PStr "x"]> ∅))).

(** An object whose [confidence_score] is the JSON boolean [true]. *)
Definition bool_score_output : string :=
  "{" ++ field "mismatch_detected" (quoted "Yes") ++ ","
  ++ field "confidence_score" "true" ++ ","
  ++ field "mismatch_type" (quoted "None") ++ ","
  ++ field "rationale" (quoted "x") ++ "}".

Definition bool_score_object : gmap string pyval :=
  <["mismatch_detected" := PStr "Yes"]>
  (<["confidence_score" := PBool true]>
  (<["mismatch_type" := PStr "None"]>
  (<["rationale" := PStr "x"]> ∅))).

(** An object without the [rationale] key. *)
Definition no_rationale_output : string :=
  "{" ++ field "mismatch_detected" (quoted "Yes") ++ ","
  ++ field "confidence_score" "0.9" ++ ","
  ++ field "mismatch_type" (quoted "None") ++ "}".

(** An object with a [mismatch_type] outside the enumeration and a
    [relevant_widget_id] that is not a number. *)
Definition odd_fields_output : string :=
  "Here: {" ++ field "mismatch_detected" (quoted "no") ++ ","
  ++ field "confidence_score" "1" ++ ","
  ++ field "mismatch_type" "42" ++ ","
  ++ field "rationale" (quoted "r") ++ ","
  ++ field "relevant_widget_id" (quoted "banana") ++ "}".

Definition odd_fields_base : gmap string pyval :=
  <["mismatch_detected" := PStr "no"]>
  (<["confidence_score" := PInt 1]>
  (<["rationale" := PStr "r"]> ∅)).

(** A clickable widget whose bounds are not four integers. *)
Definition malformed_widget : gmap string string :=
  <["clickable" := "true"]> (<["bounds" := "oops"]> ∅).

Definition login_button : gmap string string :=
  <["class" := "android.widget.Button"]>
  (<["text" := "Login"]>
  (<["clickable" := "true"]>
  (<["bounds" := "[0,0][100,50]"]> ∅))).

Definition spacer : gmap string string :=
  <["clickable" := "false"]> (<["bounds" := "[0,50][100,60]"]> ∅).

Definition caption : gmap string string :=
  <["text" := "Welcome"]> (<["bounds" := "[0,60][100,90]"]> ∅).

Definition text_size (label : string) : Z * Z := (12 * len label, 18).

(** A hierarchy with one node that carries bounds, and one without any. *)
Definition login_tree : element :=
  Element "hierarchy" ∅
    [ Element "node" ∅
        [ Element "node" (<["bounds" := "[0,0][100,50]"]> (<["text" := "Login"]> ∅)) [] ] ].

Definition plain_tree : element :=
  Element "hierarchy" ∅ [ Element "node" (<["text" := "Login"]> ∅) [] ].

(** A hierarchy whose document order differs from its order by depth:
    the first child of the root has descendants of its own. *)
Definition nested_tree : element :=
  Element "hierarchy" ∅
    [ Element "node"
        (<["bounds" := "[0,0][10,10]"]> (<["class" := "android.widget.FrameLayout"]> ∅))
        [ Element "node" (<["text" := "x"]> ∅)
            [ Element "node" (<["bounds" := "[1,1][2,2]"]> ∅) [] ];
          Element "node"
            (<["bounds" := "[3,3][4,4]"]> (<["clickable" := "true"]> ∅)) [] ];
      Element "node"
        (<["bounds" := "[5,5][6,6]"]> (<["resource-id" := "id/ok"]> ∅)) [] ].

(** The records of [nested_tree], in document order. *)
Definition nested_records : list (gmap string string) :=
  [ <["class" := "android.widget.FrameLayout"]>
    (<["text" := ""]> (<["resource-id" := ""]>
    (<["clickable" := "false"]> (<["bounds" := "[0,0][10,10]"]> ∅))));
    <["class" := "N/A"]>
    (<["text" := ""]> (<["resource-id" := ""]>
    (<["clickable" := "false"]> (<["bounds" := "[1,1][2,2]"]> ∅))));
    <["class" := "N/A"]>
    (<["text" := ""]> (<["resource-id" := ""]>
    (<["clickable" := "true"]> (<["bounds" := "[3,3][4,4]"]> ∅))));
    <["class" := "N/A"]>
    (<["text" := ""]> (<["resource-id" := "id/ok"]>
    (<["clickable" := "false"]> (<["bounds" := "[5,5][6,6]"]> ∅)))) ].

Definition sample_exists (path : string) : bool :=
  bool_decide (path ≠ "missing.xml" ∧ path ≠ "missing.png").

(** A parser for two more files: [nested.xml] holds [nested_tree]; every
    other file is one that declares a multi-byte encoding, on which
    [ET.parse] raises [ValueError]. *)
Definition encoded_ET_parse (path : string) : result element :=
  if decide (path = "nested.xml") then Ok nested_tree
  else Raise (ValueError "multi-byte encodings are not supported").

(** A clickable widget with a separator character (U+001C) before its
    third coordinate, and one whose first coordinate has 4301 digits. *)
Definition separator_widget : gmap string string :=
  <["clickable" := "true"]>
  (<["bounds" := "[1,2][" ++ String (ascii_of_nat 28) "3,4]"]> ∅).

Fixpoint nines (n : nat) : string :=
  match n with
  | O => ""
  | S k => String "9" (nines k)
  end.

Definition long_widget : gmap string string :=
  <["clickable" := "true"]>
  (<["bounds" := "[" ++ nines 4301 ++ ",2][3,4]"]> ∅).

(** The prompt for the snippet "the app crashed." and two widget
    descriptions, written out: the f-string of [construct_prompt] with its
    two fields filled in. *)
Definition expected_prompt : string :=
  let nl := String (ascii_of_nat 10) "" in
  let dq := String (ascii_of_nat 34) "" in
  nl ++
  "Analyze the provided mobile UI screenshot to determine if there is a mismatch between the visual interface and the user's feedback." ++ nl ++ nl ++
  "**User Review Snippet:**" ++ nl ++
  dq ++ "the app crashed." ++ dq ++ nl ++ nl ++
  "**Annotated Widget Details:**" ++ nl ++
  "(Refer to the numbered widgets in the image)" ++ nl ++
  "label 1: class=android.widget.Button, text=Login, clickable=true" ++ nl ++
  "label 2: class=N/A, text=Welcome, clickable=false" ++ nl ++ nl ++
  "**Your Task:**" ++ nl ++
  "1.  **Identify the User's Core Complaint:** What specific UI element and problem is the user describing?" ++ nl ++
  "2.  **Ground the Complaint:** Locate the relevant widget in the image and its details using the provided annotations." ++ nl ++
  "3.  **Analyze for Mismatch:** Compare the user's complaint with the visual and structural evidence. Does the UI imply a functionality that the user reports as broken or missing?" ++ nl ++
  "4.  **Provide a Conclusion in JSON format.**" ++ nl ++ nl ++
  "**JSON Output Format:**" ++ nl ++
  "Please provide your final analysis ONLY in the following JSON format. Do not add any text before or after the JSON block." ++ nl ++
  "{" ++ nl ++
  "  " ++ dq ++ "mismatch_detected" ++ dq ++ ": " ++ dq ++ "Yes" ++ dq ++ " or " ++ dq ++ "No" ++ dq ++ "," ++ nl ++
  "  " ++ dq ++ "confidence_score" ++ dq ++ ": <A float between 0.0 and 1.0>," ++ nl ++
  "  " ++ dq ++ "mismatch_type" ++ dq ++ ": " ++ dq ++ "<'Non-Functional Element', 'Feature Misrepresentation', 'Visual Glitch', or 'None'>" ++ dq ++ "," ++ nl ++
  "  " ++ dq ++ "rationale" ++ dq ++ ": " ++ dq ++ "<A concise, step-by-step explanation of your reasoning. Start by identifying the user's claim, then ground it to a widget, and finally explain why it is or is not a mismatch.>" ++ dq ++ "," ++ nl ++
  "  " ++ dq ++ "relevant_widget_id" ++ dq ++ ": <The number of the most relevant widget, or null>" ++ nl ++
  "}" ++ nl.

Definition sample_ET_parse (path : string) : result element :=
  if decide (path = "login.xml") then Ok login_tree
  else if decide (path = "plain.xml") then Ok plain_tree
  else Raise ParseError.

(** An analyzer whose model answers with the specification's example. *)
Definition sample_analyzer : MLLMAnalyzer unit unit unit :=
  {| max_tokens := 1024;
     processor := fun _ _ => Ok ();
     to_device := fun _ => Ok ();
     model_generate := fun _ _ => Ok ();
     batch_decode := fun _ => Ok [sure_output] |}.

Definition sample_run (nlp : option (string → list string))
    (imread_ok : string → bool) :=
  run_vipra_ui_analysis unit unit unit (fun _ => Ok ()) JsonRef.json_loads
    (Some sample_analyzer) nlp sample_exists sample_ET_parse imread_ok
    text_size (fun p => p ++ ".annotated.png")
    (fun _ => "{...}") (fun _ => "?").

End Samples.

(* ===================================================================== *)
(** * [MLLMAnalyzer.__init__] and the start of [app.py]                   *)
(* ===================================================================== *)

Module Startup.

Import MllmIntegration App.

Inductive torch_dtype : Type := bfloat16 | float32.

(** What [__init__] settles before it loads the model. *)
Record settings : Type := Settings {
  model_name : pyval;
  device : pyval;
  max_new_tokens : pyval;
  dtype : torch_dtype
}.

(** [v == s] for a string literal [s]. *)
Definition eq_str (v : pyval) (s : string) : bool :=
  match v with
  | PStr t => bool_decide (t = s)
  | _ => false
  end.

Section Init.

Variable path_exists : string → bool.
(** [yaml.safe_load] on the opened file. *)
Variable yaml_safe_load : string → result pyval.
(** [torch.cuda.is_available()] and [torch.cuda.is_bf16_supported()] *)
Variable cuda_is_available : bool.
Variable cuda_is_bf16_supported : bool.

(** Lines 22 to 40 of [__init__]: the configuration is read, the device
    falls back to the CPU, the tensor type is chosen. *)
Definition init_settings (config_path : string) : result settings :=
  if negb (path_exists config_path) then Raise FileNotFoundError
  else
    config ← yaml_safe_load config_path;
    mllm ← py_getitem config "mllm";
    model ← py_getitem mllm "model_name";
    mllm ← py_getitem config "mllm";
    dev ← py_getitem mllm "device";
    mllm ← py_getitem config "mllm";
    tokens ← py_getitem mllm "max_new_tokens";
    let dev :=
      if eq_str dev "cuda" && negb cuda_is_available then PStr "cpu" else dev in
    let torch_dtype :=
      if eq_str dev "cuda" && cuda_is_bf16_supported then bfloat16 else float32 in
    Ok {| model_name := model; device := dev; max_new_tokens := tokens;
          dtype := torch_dtype |}.

Variables Image Inputs Ids : Type.
(** The two [from_pretrained] calls, seen as what the request handler
    reads from the analyzer they build. *)
Variable from_pretrained : settings → result (MLLMAnalyzer Image Inputs Ids).

Definition MLLMAnalyzer_init (config_path : string)
  : result (MLLMAnalyzer Image Inputs Ids) :=
  s ← init_settings config_path;
  from_pretrained s.

(** The module-level [analyzer] of [app.py]: [None] when [__init__]
    raised. *)
Definition module_analyzer : option (MLLMAnalyzer Image Inputs Ids) :=
  match MLLMAnalyzer_init "config.yaml" with
  | Ok a => Some a
  | Raise _ => None
  end.

End Init.

End Startup.

(* ===================================================================== *)
(** * Further vocabulary                                                  *)
(* ===================================================================== *)

Module Outcomes.

Import Effects ReviewAnalysis GuiAnalysis MllmIntegration App Spec Samples.

(** The external calls of one analysis, in the order of the code. *)
Definition call_sequence {Image Inputs Ids} (self : MLLMAnalyzer Image Inputs Ids)
    (path : string) (widget_details : list string) (review_snippet : string)
  : list event :=
  [ ImageOpen path;
    ConstructPrompt widget_details review_snippet;
    Processor ("<MORE_DETAILED_OCR>"
               ++ construct_prompt widget_details review_snippet);
    Generate (max_tokens Image Inputs Ids self);
    BatchDecode ].

(** The model, asked about this image and this snippet, answers [text]. *)
Definition model_answers {Image Inputs Ids}
    (Image_open : string → result Image)
    (self : MLLMAnalyzer Image Inputs Ids)
    (path : string) (widget_details : list string) (review_snippet text : string)
  : Prop :=
  ∃ image inputs inputs' ids rest,
    Image_open path = Ok image ∧
    processor Image Inputs Ids self
      ("<MORE_DETAILED_OCR>" ++ construct_prompt widget_details review_snippet)
      image = Ok inputs ∧
    to_device Image Inputs Ids self inputs = Ok inputs' ∧
    model_generate Image Inputs Ids self inputs' (max_tokens Image Inputs Ids self)
      = Ok ids ∧
    batch_decode Image Inputs Ids self ids = Ok (text :: rest).

(** The two records [analyze_ui_review_pair] builds besides the one for
    missing inputs. *)
Definition image_not_found_record (path : string) : pyval :=
  PDict {[ "error" := PStr ("Annotated image not found at " ++ path) ]}.

Definition generation_failed_record (e : exn) : pyval :=
  PDict (<["error" := PStr "MLLM generation failed."]>
         (<["details" := PStr (str_of_exn e)]> ∅)).

(** The widget list a request works with: the parsed hierarchy when a
    file with a name is given, the empty list otherwise. *)
Definition request_elements (path_exists : string → bool)
    (ET_parse : string → result element) (xml_file : option upload)
  : result (list (gmap string string)) :=
  if no_path (name <$> xml_file) then Ok []
  else parse_xml_hierarchy path_exists ET_parse (default "" (name <$> xml_file)).

(** The six defects for which the code gives up on a model output.  The
    second is a failure of [json.loads] that the [except] clause names:
    [JSONDecodeError], or another [ValueError] or [TypeError]. *)
Definition defective (json_loads : string → result pyval) (text : string)
  : Prop :=
  json_candidate text = "" ∨
  (∃ e, json_loads (json_candidate text) = Raise e ∧ caught e = true) ∨
  (∃ v, json_loads (json_candidate text) = Ok v ∧ ∀ d, v ≠ PDict d) ∨
  (∃ d key, json_loads (json_candidate text) = Ok (PDict d) ∧
            key ∈ required_keys ∧ d !! key = None) ∨
  (∃ d x, json_loads (json_candidate text) = Ok (PDict d) ∧
          d !! "mismatch_detected" = Some x ∧
          ∀ s, x = PStr s → s ∉ yes_no_spellings) ∨
  (∃ d x, json_loads (json_candidate text) = Ok (PDict d) ∧
          d !! "confidence_score" = Some x ∧
          isinstance_int_float x = false).

Section RequestVocabulary.

Context {Image Inputs Ids : Type}.
Variable analyzer : option (MLLMAnalyzer Image Inputs Ids).
Variable nlp : option (string → list string).
Variable path_exists : string → bool.
Variable ET_parse : string → result element.
Variable imread_ok : string → bool.
Variable getTextSize : string → Z * Z.
Variable annotated_path_of : string → string.

(** A request that gets as far as the analysis: the analyzer is there,
    the review is not blank, the hierarchy (if any) was read, and the
    screenshot was annotated under a path that is not empty. *)
Definition prepared (self : MLLMAnalyzer Image Inputs Ids) (shot : upload)
    (review_text : string) (xml_file : option upload)
    (annotated_image_path : string) (widget_details : list string)
    (functional_snippet : string) : Prop :=
  analyzer = Some self ∧
  strip review_text ≠ "" ∧
  functional_snippet
    = extract_functional_snippets (preprocess_and_segment_review nlp review_text) ∧
  ∃ ui_elements,
    request_elements path_exists ET_parse xml_file = Ok ui_elements ∧
    annotate_screenshot getTextSize path_exists imread_ok annotated_path_of
      (name shot) ui_elements
    = AnnotPair annotated_image_path widget_details ∧
    annotated_image_path ≠ "".

End RequestVocabulary.

(** The message of the [gr.Error] raised for a result with an [error]
    key. *)
Definition error_message (format_value : pyval → string)
    (d : gmap string pyval) : string :=
  fstring format_value (default (PStr "An unknown error occurred.") (d !! "error"))
  ++ newline ++ newline ++ "Raw Output: "
  ++ fstring format_value (default (PStr "") (d !! "raw_output")).

(** Analyzers whose model decodes to the given texts. *)
Definition decoding_analyzer (texts : list string) : MLLMAnalyzer unit unit unit :=
  {| max_tokens := 1024;
     processor := fun _ _ => Ok ();
     to_device := fun _ => Ok ();
     model_generate := fun _ _ => Ok ();
     batch_decode := fun _ => Ok texts |}.

(** The record extracted from [Samples.login_tree]. *)
Definition login_record : gmap string string :=
  <["class" := "N/A"]>
  (<["text" := "Login"]>
  (<["resource-id" := ""]>
  (<["clickable" := "false"]>
  (<["bounds" := "[0,0][100,50]"]> ∅)))).

(** A request in the sample environment, for a given analyzer. *)
Definition sample_request (self : MLLMAnalyzer unit unit unit) :=
  run_vipra_ui_analysis unit unit unit (fun _ => Ok ()) JsonRef.json_loads
    (Some self) naive_nlp Samples.sample_exists
    Samples.sample_ET_parse (fun _ => true) Samples.text_size
    (fun p => p ++ ".annotated.png") (fun _ => "{...}") (fun _ => "?").

(** A valid object that also has an [error] key. *)
Definition error_key_output : string :=
  "{" ++ Samples.field "mismatch_detected" (Samples.quoted "No") ++ ","
  ++ Samples.field "confidence_score" "1" ++ ","
  ++ Samples.field "mismatch_type" (Samples.quoted "None") ++ ","
  ++ Samples.field "rationale" (Samples.quoted "r") ++ ","
  ++ Samples.field "error" (Samples.quoted "none") ++ "}".

Definition error_key_object : gmap string pyval :=
  <["mismatch_detected" := PStr "No"]>
  (<["confidence_score" := PInt 1]>
  (<["mismatch_type" := PStr "None"]>
  (<["rationale" := PStr "r"]>
  (<["error" := PStr "none"]> ∅)))).

(** A configuration that asks for the GPU. *)
Definition sample_config : pyval :=
  PDict {[ "mllm" :=
    PDict (<["model_name" := PStr "microsoft/Florence-2-large"]>
          (<["device" := PStr "cuda"]>
          (<["max_new_tokens" := PInt 1024]> ∅))) ]}.

(** Every character of [s] passes the test [f]. *)
Fixpoint all_chars (f : ascii → bool) (s : string) : bool :=
  match s with
  | "" => true
  | String c s' => f c && all_chars f s'
  end.

(** A digit or the minus sign. *)
Definition is_num_char (c : ascii) : bool :=
  is_digit c || bool_decide (c = "-"%char).

(** Bounds as the view hierarchy writes them. *)
Definition bounds_text (x1 y1 x2 y2 : Z) : string :=
  "[" ++ str_of_int x1 ++ "," ++ str_of_int y1 ++ "]["
      ++ str_of_int x2 ++ "," ++ str_of_int y2 ++ "]".

End Outcomes.


(* ===================================================================== *)
(** * Facts about the string built-ins                                    *)
(* ===================================================================== *)

Import Py.

Section StringFacts.

Implicit Types (s t u p sub : string) (c : ascii).

Lemma str_app_cons c s t : String c s ++ t = String c (s ++ t).
Proof. reflexivity. Qed.

Lemma str_app_nil_l s : "" ++ s = s.
Proof. reflexivity. Qed.

Lemma str_app_nil_r s : s ++ "" = s.
Proof. induction s as [|c s IH]; [done|]. by rewrite str_app_cons, IH. Qed.

Lemma str_app_assoc s t u : (s ++ t) ++ u = s ++ (t ++ u).
Proof. induction s as [|c s IH]; [done|]. by rewrite !str_app_cons, IH. Qed.

Lemma len_nil : len "" = 0.
Proof. reflexivity. Qed.

Lemma len_cons c s : len (String c s) = 1 + len s.
Proof. unfold len. cbn [String.length]. lia. Qed.

Lemma len_nonneg s : 0 ≤ len s.
Proof. unfold len. lia. Qed.

Lemma len_app s t : len (s ++ t) = len s + len t.
Proof.
  induction s as [|c s IH]; [by rewrite str_app_nil_l, len_nil|].
  rewrite str_app_cons, !len_cons, IH. lia.
Qed.

Lemma len_zero s : len s = 0 → s = "".
Proof. destruct s; [done|]. rewrite len_cons. pose proof (len_nonneg s). lia. Qed.

(** *** [startswith] *)

Lemma startswith_spec s p : startswith s p = true ↔ ∃ rest, s = p ++ rest.
Proof.
  revert s. induction p as [|a p IH]; intros s.
  - destruct s; cbn; split; eauto.
  - destruct s as [|b s]; cbn.
    + split; [done|]. intros [rest H]. discriminate H.
    + destruct (decide (a = b)) as [->|Hne].
      * rewrite IH. split; intros [rest H]; exists rest.
        -- by rewrite str_app_cons, H.
        -- rewrite str_app_cons in H. by injection H.
      * split; [done|]. intros [rest H]. rewrite str_app_cons in H. congruence.
Qed.

Lemma startswith_char c d s :
  startswith (String d s) (String c "") = bool_decide (c = d).
Proof.
  cbn. destruct (decide (c = d)) as [->|Hne].
  - rewrite bool_decide_true by done. by destruct s.
  - by rewrite bool_decide_false.
Qed.

(** *** [find] *)

Lemma find_from_range s sub i :
  find_from s sub i = -1 ∨ (i ≤ find_from s sub i ≤ i + len s).
Proof.
  revert i. induction s as [|c s IH]; intros i; cbn [find_from].
  - destruct (startswith "" sub); rewrite ?len_nil; lia.
  - destruct (startswith (String c s) sub); rewrite len_cons.
    + pose proof (len_nonneg s). lia.
    + destruct (IH (i + 1)); lia.
Qed.

(** [sub in s] holds exactly when [s] decomposes around [sub]. *)
Lemma find_from_occurs s sub i :
  0 ≤ i → find_from s sub i ≠ -1 ↔ ∃ pre post, s = pre ++ sub ++ post.
Proof.
  revert i. induction s as [|c s IH]; intros i Hi; cbn [find_from].
  - destruct (startswith "" sub) eqn:Hp.
    + apply startswith_spec in Hp as [rest Hp]. split; [|lia].
      intros _. exists "", rest. by rewrite str_app_nil_l.
    + split; [done|]. intros (pre & post & H).
      destruct pre; [|discriminate H]. rewrite str_app_nil_l in H.
      assert (startswith "" sub = true) by (apply startswith_spec; eauto).
      congruence.
  - destruct (startswith (String c s) sub) eqn:Hp.
    + apply startswith_spec in Hp as [rest Hp]. split; [|lia].
      intros _. exists "", rest. by rewrite str_app_nil_l.
    + rewrite IH by lia. split.
      * intros (pre & post & ->). exists (String c pre), post. by rewrite str_app_cons.
      * intros (pre & post & H). destruct pre as [|d pre].
        -- rewrite str_app_nil_l in H.
           assert (startswith (String c s) sub = true) by (apply startswith_spec; eauto).
           congruence.
        -- rewrite str_app_cons in H. injection H as -> ->. eauto.
Qed.

Lemma contains_spec s sub :
  contains s sub = true ↔ ∃ pre post, s = pre ++ sub ++ post.
Proof.
  unfold contains, find. rewrite <- (find_from_occurs s sub 0) by lia.
  rewrite negb_true_iff, Z.eqb_neq. done.
Qed.


(** *** One-character patterns *)

Lemma mem_char_app c s t : mem_char c (s ++ t) = mem_char c s || mem_char c t.
Proof.
  induction s as [|d s IH]; [done|]. rewrite str_app_cons. cbn [mem_char].
  destruct (decide (c = d)); [done|]. apply IH.
Qed.

Lemma find_char_absent c s i :
  mem_char c s = false → find_from s (String c "") i = -1.
Proof.
  revert i. induction s as [|d s IH]; intros i H; [done|].
  cbn [mem_char] in H. destruct (decide (c = d)) as [|Hne]; [done|].
  cbn [find_from]. rewrite startswith_char, bool_decide_false by done. by apply IH.
Qed.

Lemma find_char_first c pre rest i :
  mem_char c pre = false →
  find_from (pre ++ String c rest) (String c "") i = i + len pre.
Proof.
  revert i. induction pre as [|d pre IH]; intros i H.
  - rewrite str_app_nil_l, len_nil. cbn [find_from].
    rewrite startswith_char, bool_decide_true by done. lia.
  - cbn [mem_char] in H. destruct (decide (c = d)) as [|Hne]; [done|].
    rewrite str_app_cons, len_cons. cbn [find_from].
    rewrite startswith_char, bool_decide_false by done. rewrite IH by done. lia.
Qed.

Lemma rfind_char_absent c s i :
  mem_char c s = false → rfind_from s (String c "") i = -1.
Proof.
  revert i. induction s as [|d s IH]; intros i H; [done|].
  cbn [mem_char] in H. destruct (decide (c = d)) as [|Hne]; [done|].
  cbn [rfind_from]. rewrite IH by done.
  by rewrite startswith_char, bool_decide_false.
Qed.

Lemma rfind_char_last c x post i :
  0 ≤ i → mem_char c post = false →
  rfind_from (x ++ String c post) (String c "") i = i + len x.
Proof.
  revert i. induction x as [|d x IH]; intros i Hi H.
  - rewrite str_app_nil_l, len_nil. cbn [rfind_from].
    rewrite rfind_char_absent by done.
    rewrite startswith_char, bool_decide_true by done. cbn. lia.
  - rewrite str_app_cons, len_cons. cbn [rfind_from]. cbv zeta.
    rewrite IH by (done || lia).
    pose proof (len_nonneg x).
    destruct (Z.eqb_spec (i + 1 + len x) (-1)); lia.
Qed.

Lemma last_occurrence c s :
  mem_char c s = true →
  ∃ x post, s = x ++ String c post ∧ mem_char c post = false.
Proof.
  induction s as [|d s IH]; [done|]. intros H.
  destruct (mem_char c s) eqn:Hs.
  - destruct IH as (x & post & -> & Hpost); [done|].
    exists (String d x), post. by rewrite str_app_cons.
  - cbn [mem_char] in H. destruct (decide (c = d)) as [->|]; [|congruence].
    by exists "", s.
Qed.

(** *** Slices *)

Lemma substring_zero k s : String.substring k 0 s = "".
Proof. revert s. induction k; intros [|c s]; cbn; auto. Qed.

Lemma substring_prefix t u :
  String.substring 0 (String.length t) (t ++ u) = t.
Proof.
  induction t as [|c t IH]; [apply substring_zero|].
  rewrite str_app_cons. cbn [String.length String.substring]. by rewrite IH.
Qed.

Lemma substring_app pre body post :
  String.substring (String.length pre) (String.length body) (pre ++ body ++ post)
  = body.
Proof.
  induction pre as [|c pre IH]; [exact (substring_prefix body post)|].
  rewrite str_app_cons. cbn [String.length String.substring]. apply IH.
Qed.

Lemma clamp_index_nonneg n i : 0 ≤ i → clamp_index n i = Z.min i n.
Proof. intros H. unfold clamp_index. destruct (Z.ltb_spec i 0); [lia|done]. Qed.

Lemma clamp_index_neg n i : i < 0 → clamp_index n i = Z.max 0 (i + n).
Proof. intros H. unfold clamp_index. destruct (Z.ltb_spec i 0); [done|lia]. Qed.

Lemma slice_middle pre body post :
  slice (pre ++ body ++ post) (len pre) (len pre + len body) = body.
Proof.
  unfold slice, clamp_index. rewrite !len_app.
  pose proof (len_nonneg pre). pose proof (len_nonneg body).
  pose proof (len_nonneg post).
  destruct (Z.ltb_spec (len pre) 0); [lia|].
  destruct (Z.ltb_spec (len pre + len body) 0); [lia|].
  rewrite !Z.min_l by lia.
  replace (len pre + len body - len pre) with (len body) by lia.
  unfold len. rewrite !Nat2Z.id. apply substring_app.
Qed.

Lemma slice_empty s start stop :
  clamp_index (len s) stop ≤ clamp_index (len s) start → slice s start stop = "".
Proof.
  intros H. unfold slice. cbv zeta.
  replace (Z.to_nat (clamp_index (len s) stop - clamp_index (len s) start))
    with O by lia.
  apply substring_zero.
Qed.

End StringFacts.

(* ===================================================================== *)
(** * The response parser                                                 *)
(* ===================================================================== *)

Import MllmIntegration Spec.

Section CandidateFacts.

Lemma json_candidate_block pre inner post :
  mem_char "{" pre = false → mem_char "}" post = false →
  json_candidate (pre ++ "{" ++ inner ++ "}" ++ post) = "{" ++ inner ++ "}".
Proof.
  intros Hpre Hpost. unfold json_candidate, find, rfind.
  change (pre ++ "{" ++ inner ++ "}" ++ post)
    with (pre ++ String "{" (inner ++ "}" ++ post)) at 2.
  rewrite find_char_first by done.
  replace (pre ++ "{" ++ inner ++ "}" ++ post)
    with ((pre ++ "{" ++ inner) ++ String "}" post) at 2
    by (by rewrite !str_app_assoc).
  rewrite rfind_char_last by done.
  replace (pre ++ "{" ++ inner ++ "}" ++ post)
    with (pre ++ ("{" ++ inner ++ "}") ++ post) by (by rewrite !str_app_assoc).
  replace (0 + len (pre ++ "{" ++ inner) + 1)
    with (len pre + len ("{" ++ inner ++ "}")).
  - rewrite Z.add_0_l. apply slice_middle.
  - rewrite !len_app. change (len "{") with 1. change (len "}") with 1. lia.
Qed.

Lemma json_candidate_no_braces text :
  mem_char "{" text = false → mem_char "}" text = false →
  json_candidate text = "".
Proof.
  intros Ho Hc. unfold json_candidate, find, rfind.
  rewrite find_char_absent, rfind_char_absent by done.
  apply slice_empty.
  rewrite (clamp_index_neg _ (-1)), (clamp_index_nonneg _ (-1 + 1)) by lia.
  pose proof (len_nonneg text). lia.
Qed.

Lemma json_candidate_close_only x post :
  mem_char "{" (x ++ String "}" post) = false → mem_char "}" post = false →
  json_candidate (x ++ String "}" post) = if decide (post = "") then "}" else "".
Proof.
  intros Ho Hc. unfold json_candidate, find, rfind.
  rewrite find_char_absent, rfind_char_last by done.
  destruct (decide (post = "")) as [->|Hne].
  - replace (x ++ "}") with (x ++ "}" ++ "") by done.
    pose proof (len_nonneg x).
    unfold slice.
    rewrite (clamp_index_neg _ (-1)), (clamp_index_nonneg _ (0 + len x + 1)) by lia.
    rewrite !len_app. change (len "}") with 1. change (len "") with 0.
    rewrite Z.max_r, Z.min_l by lia.
    replace (Z.to_nat (-1 + (len x + (1 + 0)))) with (String.length x)
      by (unfold len; lia).
    replace (Z.to_nat (0 + len x + 1 - (-1 + (len x + (1 + 0)))))
      with (String.length "}") by (cbn; lia).
    apply substring_app.
  - pose proof (len_nonneg x). pose proof (len_nonneg post).
    assert (len post ≠ 0) by (intros ?%len_zero; done).
    apply slice_empty.
    rewrite (clamp_index_neg _ (-1)), (clamp_index_nonneg _ (0 + len x + 1)) by lia.
    rewrite len_app, len_cons. lia.
Qed.

Lemma ends_with_last c x post y :
  mem_char c post = false → x ++ String c post = y ++ String c "" → post = "".
Proof.
  intros Hpost Heq.
  assert (len x = len y) as Hlen.
  { pose proof (rfind_char_last c x post 0 ltac:(lia) Hpost) as H1.
    pose proof (rfind_char_last c y "" 0 ltac:(lia) eq_refl) as H2.
    rewrite Heq in H1. lia. }
  apply (f_equal len) in Heq. rewrite !len_app, !len_cons, len_nil in Heq.
  apply len_zero. lia.
Qed.

(** Without an opening brace the candidate is a lone closing brace when
    the text ends with one, and empty otherwise. *)
Lemma json_candidate_no_open text :
  mem_char "{" text = false →
  ((∃ x, text = x ++ "}") → json_candidate text = "}") ∧
  ((∀ x, text ≠ x ++ "}") → json_candidate text = "").
Proof.
  intros Ho. destruct (mem_char "}" text) eqn:Hc.
  - destruct (last_occurrence _ _ Hc) as (x & post & -> & Hpost).
    rewrite json_candidate_close_only by done. split.
    + intros [y Hy]. apply ends_with_last in Hy; [|done].
      by rewrite decide_True.
    + intros Hno. destruct (decide (post = "")) as [->|]; [|done].
      by destruct (Hno x).
  - rewrite json_candidate_no_braces by done. split; [|done].
    intros [x ->]. rewrite mem_char_app in Hc.
    by rewrite orb_true_r in Hc.
Qed.

End CandidateFacts.

Section ResultMonad.

Lemma bind_ok {A B} (a : A) (k : A → result B) : (Ok a ≫= k) = k a.
Proof. reflexivity. Qed.

Lemma bind_inv_ok {A B} (m : result A) (k : A → result B) b :
  (m ≫= k) = Ok b → ∃ a, m = Ok a ∧ k a = Ok b.
Proof. destruct m as [a|e]; [eauto|done]. Qed.

Lemma bind_inv_raise {A B} (m : result A) (k : A → result B) e :
  (m ≫= k) = Raise e → m = Raise e ∨ ∃ a, m = Ok a ∧ k a = Raise e.
Proof. destruct m as [a|e']; [eauto|]. intros [= ->]. by left. Qed.

End ResultMonad.

Section ValueFacts.

Lemma py_in_raises key v e : py_in key v = Raise e → caught e = true.
Proof. destruct v; cbn; intros [= <-]; done. Qed.

Lemma all_in_raises keys v e : all_in keys v = Raise e → caught e = true.
Proof.
  induction keys as [|key keys IH]; [done|]. cbn [all_in].
  intros [H|(b & Hb & H)]%bind_inv_raise.
  - by eapply py_in_raises.
  - destruct b; [auto|done].
Qed.

Lemma all_in_dict keys d :
  all_in keys (PDict d)
  = Ok (forallb (fun k => bool_decide (is_Some (d !! k))) keys).
Proof.
  induction keys as [|key keys IH]; [done|]. cbn [all_in forallb py_in].
  cbn. destruct (bool_decide _); [apply IH|done].
Qed.

Lemma py_getitem_raises v key e :
  py_getitem v key = Raise e →
  caught e = true ∨ ∃ d, v = PDict d ∧ d !! key = None.
Proof.
  destruct v; cbn; try (intros [= <-]; by left).
  destruct (d !! key) eqn:E; [done|]. intros _. right. eauto.
Qed.

Lemma py_getitem_ok v key x :
  py_getitem v key = Ok x → ∃ d, v = PDict d ∧ d !! key = Some x.
Proof.
  destruct v; cbn; try done. destruct (d !! key) eqn:E; [|done].
  intros [= ->]. eauto.
Qed.

Lemma required_keys_present (d : gmap string pyval) :
  forallb (fun k => bool_decide (is_Some (d !! k))) required_keys = true ↔
  Forall (fun k => is_Some (d !! k)) required_keys.
Proof.
  unfold required_keys. cbn [forallb].
  rewrite !andb_true_iff, !bool_decide_eq_true, !Forall_cons, Forall_nil.
  tauto.
Qed.

Lemma is_json_number_instance v :
  is_json_number v → isinstance_int_float v = true.
Proof. by destruct v. Qed.

Lemma lower_char_letter a b :
  mem_char b "yesno" = true → lower_char a = b → a = b ∨ a = upper_of b.
Proof.
  intros Hb <-.
  destruct a as [[] [] [] [] [] [] [] []]; vm_compute in Hb;
    first [discriminate Hb | by left | by right].
Qed.

(** The test [s.lower() in ["yes", "no"]] holds for the twelve spellings of
    the two words and for nothing else. *)
Lemma lower_yes_no s : lower s ∈ ["yes"; "no"] ↔ s ∈ yes_no_spellings.
Proof.
  split.
  - intros H. apply elem_of_cons in H as [H|H].
    + destruct s as [|a [|b [|c [|]]]]; try discriminate H.
      cbn [lower] in H. injection H as Ha Hb Hc.
      apply lower_char_letter in Ha as [-> | ->]; [| |done];
      apply lower_char_letter in Hb as [-> | ->]; try done;
      apply lower_char_letter in Hc as [-> | ->]; try done;
      vm_compute; set_solver.
    + apply list_elem_of_singleton in H.
      destruct s as [|a [|b [|]]]; try discriminate H.
      cbn [lower] in H. injection H as Ha Hb.
      apply lower_char_letter in Ha as [-> | ->]; [| |done];
      apply lower_char_letter in Hb as [-> | ->]; try done;
      vm_compute; set_solver.
  - unfold yes_no_spellings. rewrite !elem_of_cons, elem_of_nil.
    intros H. repeat (destruct H as [-> | H]; [vm_compute; set_solver|]). done.
Qed.

End ValueFacts.

Section ParserFacts.

Variable json_loads : string → result pyval.

Lemma parse_llm_output_try_ok text v :
  parse_llm_output_try json_loads text = Ok v ↔
  ∃ d, v = PDict d ∧ accepts json_loads text d.
Proof.
  unfold parse_llm_output_try, accepts. cbv zeta. split.
  - destruct (decide (json_candidate text = "")) as [|Hne]; [done|].
    destruct (json_loads (json_candidate text)) as [w|]; [|done].
    rewrite bind_ok. intros (present & Hall & H)%bind_inv_ok.
    destruct present; [|done]. cbn [negb] in H.
    apply bind_inv_ok in H as (detected & Hd & H).
    apply py_getitem_ok in Hd as (d & -> & Hd).
    rewrite all_in_dict in Hall. injection Hall as Hall.
    apply required_keys_present in Hall.
    destruct detected; try done. cbn [isinstance_str negb orb not_yes_no] in H.
    destruct (bool_decide (lower s ∈ ["yes"; "no"])) eqn:Hs; [|done].
    apply bool_decide_eq_true in Hs. cbn [negb] in H.
    apply bind_inv_ok in H as (score & Hsc & H).
    apply py_getitem_ok in Hsc as (d' & [= <-] & Hsc).
    destruct (isinstance_int_float score) eqn:Hi; [|done].
    injection H as <-. exists d. split_and!; eauto.
  - intros (d & -> & Hne & Hl & Hall & (s & Hs & Hyn) & (score & Hsc & Hi)).
    destruct (decide (json_candidate text = "")); [done|]. rewrite Hl.
    apply required_keys_present in Hall.
    rewrite bind_ok, all_in_dict, Hall, bind_ok. cbn [negb].
    unfold py_getitem. rewrite Hs, bind_ok.
    cbn [isinstance_str negb orb not_yes_no].
    rewrite bool_decide_true by done. cbn [negb].
    by rewrite Hsc, bind_ok, Hi.
Qed.

(** Whatever the [try] block raises is named by the [except] clause,
    unless it is an exception of [json.loads] itself: the [KeyError] of the
    two subscripts cannot occur after the key test. *)
Lemma parse_llm_output_try_raises text e :
  parse_llm_output_try json_loads text = Raise e →
  caught e = true ∨ decoder_escapes json_loads text e.
Proof.
  unfold parse_llm_output_try, decoder_escapes. cbv zeta.
  destruct (decide (json_candidate text = "")); [intros [= <-]; by left|].
  destruct (json_loads (json_candidate text)) as [w|e'].
  2:{ intros [= ->]. destruct (caught e) eqn:Hc; [by left|by right]. }
  rewrite bind_ok. intros H. left. revert H.
  intros [H|(present & Hall & H)]%bind_inv_raise; [by eapply all_in_raises|].
  destruct present; [|by injection H as <-]. cbn [negb] in H.
  apply bind_inv_raise in H as [H|(detected & Hd & H)].
  { apply py_getitem_raises in H as [?|(d & -> & Hnone)]; [done|].
    rewrite all_in_dict in Hall. injection Hall as Hall.
    apply required_keys_present in Hall.
    rewrite Forall_forall in Hall.
    destruct (Hall "mismatch_detected") as [? ?]; [set_solver|congruence]. }
  destruct (negb (isinstance_str detected) || not_yes_no detected);
    [by injection H as <-|].
  apply bind_inv_raise in H as [H|(score & Hsc & H)].
  { apply py_getitem_raises in H as [?|(d & -> & Hnone)]; [done|].
    rewrite all_in_dict in Hall. injection Hall as Hall.
    apply required_keys_present in Hall.
    rewrite Forall_forall in Hall.
    destruct (Hall "confidence_score") as [? ?]; [set_solver|congruence]. }
  destruct (negb (isinstance_int_float score)); [by injection H as <-|done].
Qed.

(** An exception of [json.loads] that the [except] clause does not name
    leaves [parse_llm_output]. *)
Lemma parse_llm_output_escape text e :
  decoder_escapes json_loads text e →
  parse_llm_output json_loads text = Raise e.
Proof.
  intros (Hne & Hl & Hc). unfold parse_llm_output, parse_llm_output_try.
  cbv zeta. destruct (decide (json_candidate text = "")); [done|].
  rewrite Hl. cbn. by rewrite Hc.
Qed.

(** The parser has three outcomes: the decoded object, when it is
    accepted; the exception of [json.loads], when the [except] clause does
    not name it; and the error record otherwise. *)
Lemma parse_llm_output_cases text :
  (∃ d, accepts json_loads text d ∧
        parse_llm_output json_loads text = Ok (PDict d)) ∨
  (∃ e, decoder_escapes json_loads text e ∧
        parse_llm_output json_loads text = Raise e) ∨
  ((∀ d, ¬ accepts json_loads text d) ∧
   (∀ e, ¬ decoder_escapes json_loads text e) ∧
   parse_llm_output json_loads text = Ok (error_record text)).
Proof.
  destruct (parse_llm_output_try json_loads text) as [v|e] eqn:E.
  - apply parse_llm_output_try_ok in E as (d & -> & Hd). left.
    exists d. split; [done|]. unfold parse_llm_output.
    assert (parse_llm_output_try json_loads text = Ok (PDict d)) as ->
      by (apply parse_llm_output_try_ok; eauto).
    done.
  - right. destruct (parse_llm_output_try_raises _ _ E) as [Hc|Hesc].
    + right. split_and!.
      * intros d Hd.
        assert (parse_llm_output_try json_loads text = Ok (PDict d)) as H
          by (apply parse_llm_output_try_ok; eauto).
        congruence.
      * intros e' (Hne & Hl & Hc'). revert E. unfold parse_llm_output_try.
        cbv zeta. destruct (decide (json_candidate text = "")); [done|].
        rewrite Hl. cbn. intros [= ->]. congruence.
      * unfold parse_llm_output. by rewrite E, Hc.
    + left. exists e. split; [done|]. by apply parse_llm_output_escape.
Qed.

Lemma parse_llm_output_accept text d :
  accepts json_loads text d → parse_llm_output json_loads text = Ok (PDict d).
Proof.
  intros Hd. unfold parse_llm_output.
  assert (parse_llm_output_try json_loads text = Ok (PDict d)) as ->
    by (apply parse_llm_output_try_ok; eauto).
  done.
Qed.

Lemma parse_llm_output_reject text :
  (∀ d, ¬ accepts json_loads text d) →
  (∀ e, ¬ decoder_escapes json_loads text e) →
  parse_llm_output json_loads text = Ok (error_record text).
Proof.
  intros Hno Hesc.
  destruct (parse_llm_output_cases text)
    as [(d & Hd & _)|[(e & He & _)|(_ & _ & H)]];
    [by destruct (Hno d)|by destruct (Hesc e)|done].
Qed.

(** No exception leaves [parse_llm_output] but one that [json.loads]
    raised and that the [except] clause does not name.  With a decoder
    whose only failure is [JSONDecodeError], none does. *)
Lemma parse_llm_output_returns text :
  (∀ e, json_loads (json_candidate text) = Raise e → caught e = true) →
  ∃ v, parse_llm_output json_loads text = Ok v.
Proof.
  intros Hl.
  destruct (parse_llm_output_cases text)
    as [(d & _ & H)|[(e & (_ & He & Hc) & _)|(_ & _ & H)]]; eauto.
  apply Hl in He. congruence.
Qed.

(** The error record carries the whole raw text. *)
Lemma error_record_raw_output text :
  py_getitem (error_record text) "raw_output" = Ok (PStr text).
Proof. reflexivity. Qed.

(** The rejections: an empty candidate, a candidate on which [json.loads]
    raises [JSONDecodeError] (or another exception that the [except] clause
    names), a decoded value that is not an object, a missing required key,
    a [mismatch_detected] that is not one of the twelve spellings, and a
    [confidence_score] that is neither [int], [float] nor [bool]. *)
Lemma parse_llm_output_rejections text :
  json_candidate text = "" ∨
  (∃ e, json_loads (json_candidate text) = Raise e ∧ caught e = true) ∨
  (∃ v, json_loads (json_candidate text) = Ok v ∧ ∀ d, v ≠ PDict d) ∨
  (∃ d key, json_loads (json_candidate text) = Ok (PDict d) ∧
            key ∈ required_keys ∧ d !! key = None) ∨
  (∃ d x, json_loads (json_candidate text) = Ok (PDict d) ∧
          d !! "mismatch_detected" = Some x ∧
          ∀ s, x = PStr s → s ∉ yes_no_spellings) ∨
  (∃ d x, json_loads (json_candidate text) = Ok (PDict d) ∧
          d !! "confidence_score" = Some x ∧
          isinstance_int_float x = false) →
  parse_llm_output json_loads text = Ok (error_record text).
Proof.
  intros H. apply parse_llm_output_reject.
  2:{ intros e (Hne & Hl & Hc).
      destruct H as [H|[(e' & He' & Hc')|[(v & Hv & _)|[(d' & key & Hd' & _)|
                     [(d' & x & Hd' & _)|(d' & x & Hd' & _)]]]]]; congruence. }
  intros d (Hne & Hl & Hall & (s & Hs & Hyn) & (score & Hsc & Hi)).
  destruct H as [H|[(e' & H & _)|[(v & Hv & Hnd)|[(d' & key & Hd' & Hk & Hnone)|
                 [(d' & x & Hd' & Hx & Hbad)|(d' & x & Hd' & Hx & Hbad)]]]]].
  - done.
  - congruence.
  - rewrite Hl in Hv. injection Hv as <-. by destruct (Hnd d).
  - rewrite Hl in Hd'. injection Hd' as <-.
    rewrite Forall_forall in Hall. destruct (Hall key Hk) as [? ?]. congruence.
  - rewrite Hl in Hd'. injection Hd' as <-.
    rewrite Hs in Hx. injection Hx as <-.
    apply (Hbad s eq_refl). by apply lower_yes_no.
  - rewrite Hl in Hd'. injection Hd' as <-.
    rewrite Hsc in Hx. injection Hx as <-. congruence.
Qed.

End ParserFacts.

(** With a decoder that gives up on its input with [RecursionError], as
    [json.loads] does on a deeply nested text, [parse_llm_output] raises
    [RecursionError]; with one that raises [JSONDecodeError] it returns the
    error record. *)
Lemma parse_llm_output_recursion_error :
  parse_llm_output (fun _ => Raise RecursionError) "[[[[]]]] {} " = Raise RecursionError ∧
  parse_llm_output (fun _ => Raise JSONDecodeError) "[[[[]]]] {} "
  = Ok (error_record "[[[[]]]] {} ").
Proof. split; vm_compute; reflexivity. Qed.

Import Samples.

Section ParserClaims.

(** C1.  When the text from the first opening brace to the last closing
    brace decodes to an object that has the four required keys, a
    [mismatch_detected] that spells "yes" or "no" in any case and a numeric
    [confidence_score], [parse_llm_output] returns that object unchanged.
    In particular the output [Sure! {...} thanks] of the specification
    yields the enclosed four-field object. *)
Theorem parse_llm_output_returns_object :
  (∀ json_loads pre inner post d s score,
     mem_char "{" pre = false →
     mem_char "}" post = false →
     json_loads ("{" ++ inner ++ "}") = Ok (PDict d) →
     Forall (fun key => is_Some (d !! key)) required_keys →
     d !! "mismatch_detected" = Some (PStr s) →
     s ∈ yes_no_spellings →
     d !! "confidence_score" = Some score →
     is_json_number score →
     parse_llm_output json_loads (pre ++ "{" ++ inner ++ "}" ++ post)
     = Ok (PDict d))
  ∧ parse_llm_output JsonRef.json_loads sure_output = Ok (PDict sure_object).
Proof.
  split; [|by vm_compute].
  intros json_loads pre inner post d s score Hpre Hpost Hl Hall Hs Hyn Hsc Hnum.
  apply parse_llm_output_accept. unfold accepts.
  rewrite json_candidate_block by done. split_and!; [done|done|done| |].
  - exists s. split; [done|]. by apply lower_yes_no.
  - exists score. split; [done|]. by apply is_json_number_instance.
Qed.

Lemma parse_llm_output_returns_object_witness :
  parse_llm_output JsonRef.json_loads
    ("Sure! " ++ "{" ++ sure_inner ++ "}" ++ " thanks")
  = Ok (PDict sure_object).
Proof.
  apply (proj1 parse_llm_output_returns_object JsonRef.json_loads
           "Sure! " sure_inner " thanks" sure_object "Yes" (PFloat (FDec 9 (-1)))).
  - reflexivity.
  - reflexivity.
  - vm_compute. reflexivity.
  - unfold required_keys. repeat constructor; vm_compute; eauto.
  - vm_compute. reflexivity.
  - unfold yes_no_spellings. set_solver.
  - vm_compute. reflexivity.
  - exact I.
Defined.

(** C2, the failing case.  An object with the four required keys, a valid
    [mismatch_detected] and the JSON boolean [true] as [confidence_score]
    is returned as a validated result, although a boolean is not a number:
    [isinstance(True, (int, float))] holds in Python.  The result is not
    the error record. *)
Theorem parse_llm_output_accepts_boolean_score :
  parse_llm_output JsonRef.json_loads bool_score_output
    = Ok (PDict bool_score_object)
  ∧ bool_score_object !! "confidence_score" = Some (PBool true)
  ∧ ¬ is_json_number (PBool true)
  ∧ parse_llm_output JsonRef.json_loads bool_score_output
    ≠ Ok (error_record bool_score_output).
Proof.
  assert (parse_llm_output JsonRef.json_loads bool_score_output
          = Ok (PDict bool_score_object)) as E by (by vm_compute).
  split_and!; [done|by vm_compute|by intros []|].
  rewrite E. intros H.
  apply (f_equal (fun r => match r with
                           | Ok (PDict d) => d !! "error"
                           | _ => None
                           end)) in H.
  vm_compute in H. discriminate H.
Qed.

(** The specification's second parser example: an object without the
    [rationale] key gives the error record. *)
Lemma parse_llm_output_missing_rationale :
  parse_llm_output JsonRef.json_loads no_rationale_output
  = Ok (error_record no_rationale_output).
Proof. by vm_compute. Qed.

(** C8.  Validation looks at [mismatch_type] for its presence only and
    never at [relevant_widget_id]: with the other fields valid, the object
    is returned for every value of [mismatch_type] and for every value, or
    the absence, of [relevant_widget_id]. *)
Theorem parse_llm_output_ignores_type_and_widget
    json_loads text d s score mismatch_type widget_id :
  d !! "mismatch_detected" = Some (PStr s) →
  s ∈ yes_no_spellings →
  d !! "confidence_score" = Some score →
  is_json_number score →
  is_Some (d !! "rationale") →
  let d' := <["mismatch_type" := mismatch_type]>
              (with_optional "relevant_widget_id" widget_id d) in
  json_candidate text ≠ "" →
  json_loads (json_candidate text) = Ok (PDict d') →
  parse_llm_output json_loads text = Ok (PDict d').
Proof.
  intros Hs Hyn Hsc Hnum Hr d' Hne Hl.
  assert (∀ key, key ≠ "mismatch_type" → key ≠ "relevant_widget_id" →
                 d' !! key = d !! key) as Hsame.
  { intros key H1 H2. unfold d', with_optional.
    rewrite lookup_insert_ne by done.
    destruct widget_id; by rewrite ?lookup_insert_ne, ?lookup_delete_ne. }
  apply parse_llm_output_accept. unfold accepts. split_and!; [done|done| | |].
  - unfold required_keys. rewrite !Forall_cons, Forall_nil.
    split_and!; [| | | |done].
    + rewrite Hsame, Hs by done. eauto.
    + rewrite Hsame, Hsc by done. eauto.
    + unfold d'. rewrite lookup_insert_eq. eauto.
    + by rewrite Hsame.
  - exists s. rewrite Hsame by done. split; [done|]. by apply lower_yes_no.
  - exists score. rewrite Hsame by done. split; [done|].
    by apply is_json_number_instance.
Qed.

Lemma parse_llm_output_ignores_type_and_widget_witness :
  parse_llm_output JsonRef.json_loads odd_fields_output
  = Ok (PDict (<["mismatch_type" := PInt 42]>
                 (<["relevant_widget_id" := PStr "banana"]> odd_fields_base))).
Proof.
  apply (parse_llm_output_ignores_type_and_widget JsonRef.json_loads
           odd_fields_output odd_fields_base "no" (PInt 1) (PInt 42)
           (Some (PStr "banana"))).
  - vm_compute. reflexivity.
  - unfold yes_no_spellings. set_solver.
  - vm_compute. reflexivity.
  - exact I.
  - vm_compute. eauto.
  - vm_compute. discriminate.
  - vm_compute. reflexivity.
Defined.

(** C9, as stated, fails: a text without an opening brace that ends with
    a closing brace has the candidate [}], which is not empty. *)
Lemma json_candidate_lone_closing_brace :
  mem_char "{" "abc}" = false ∧ json_candidate "abc}" = "}"
  ∧ json_candidate "abc}" ≠ "".
Proof. by vm_compute. Qed.

(** C9, amended.  For a text without an opening brace the candidate is
    empty, unless the text ends with a closing brace: then it is that one
    character.  Either way the function returns the error record, a lone
    closing brace not being a JSON document. *)
Theorem parse_llm_output_without_opening_brace json_loads text :
  mem_char "{" text = false →
  json_loads "}" = Raise JSONDecodeError →
  ((∀ x, text ≠ x ++ "}") → json_candidate text = "") ∧
  ((∃ x, text = x ++ "}") → json_candidate text = "}") ∧
  parse_llm_output json_loads text = Ok (error_record text).
Proof.
  intros Ho Hbrace.
  destruct (json_candidate_no_open text Ho) as [Hends Hnot].
  split_and!; [done|done|].
  apply parse_llm_output_rejections.
  destruct (mem_char "}" text) eqn:Hc.
  - destruct (last_occurrence _ _ Hc) as (x & post & Heq & Hpost).
    destruct (decide (post = "")) as [->|Hne].
    + right. left. rewrite Hends by eauto. by exists JSONDecodeError.
    + left. apply Hnot. intros y Hy. rewrite Heq in Hy.
      by apply ends_with_last in Hy.
  - left. by apply json_candidate_no_braces.
Qed.

Lemma parse_llm_output_without_opening_brace_witness :
  ((∀ x, "abc}" ≠ x ++ "}") → json_candidate "abc}" = "") ∧
  ((∃ x, "abc}" = x ++ "}") → json_candidate "abc}" = "}") ∧
  parse_llm_output JsonRef.json_loads "abc}" = Ok (error_record "abc}").
Proof.
  apply (parse_llm_output_without_opening_brace JsonRef.json_loads "abc}").
  - reflexivity.
  - vm_compute. reflexivity.
Defined.

End ParserClaims.

(* ===================================================================== *)
(** * The review segmenter                                                *)
(* ===================================================================== *)

Import ReviewAnalysis.

Section SegmenterFacts.

Lemma has_keyword_spec sent : has_keyword sent = true ↔ mentions_keyword sent.
Proof.
  unfold has_keyword, mentions_keyword. rewrite existsb_exists. split.
  - intros (kw & Hin & (pre & post & ->)%contains_spec).
    exists kw, pre, post. by rewrite list_elem_of_In.
  - intros (kw & pre & post & Hin & ->). exists kw. split.
    + by apply list_elem_of_In.
    + apply contains_spec. eauto.
Qed.

Lemma has_keyword_false sent : has_keyword sent = false ↔ ¬ mentions_keyword sent.
Proof. rewrite <- has_keyword_spec. by destruct (has_keyword sent). Qed.

Lemma first_keyword_sentence_none sentences :
  Forall (fun s => ¬ mentions_keyword s) sentences →
  first_keyword_sentence sentences = None.
Proof.
  induction 1 as [|s l Hs _ IH]; [done|]. cbn [first_keyword_sentence].
  apply has_keyword_false in Hs. by rewrite Hs.
Qed.

Lemma first_keyword_sentence_found before sent after :
  Forall (fun s => ¬ mentions_keyword s) before → mentions_keyword sent →
  first_keyword_sentence (before ++ sent :: after) = Some sent.
Proof.
  intros Hb Hs. induction Hb as [|s l Hn _ IH]; cbn [app first_keyword_sentence].
  - apply has_keyword_spec in Hs. by rewrite Hs.
  - apply has_keyword_false in Hn. by rewrite Hn.
Qed.

(** The keyword list of the code is the set that the specification
    enumerates, in the same order. *)
Lemma keywords_as_specified : keywords = keyword_set.
Proof. reflexivity. Qed.

Lemma contains_keyword_spec sent : has_keyword sent = true ↔ contains_keyword sent.
Proof.
  rewrite has_keyword_spec. unfold mentions_keyword, contains_keyword.
  by rewrite keywords_as_specified.
Qed.

Lemma contains_keyword_false sent :
  has_keyword sent = false ↔ ¬ contains_keyword sent.
Proof. rewrite <- contains_keyword_spec. by destruct (has_keyword sent). Qed.

Lemma no_keyword_as_specified sentences :
  Forall (fun s => ¬ contains_keyword s) sentences →
  Forall (fun s => ¬ mentions_keyword s) sentences.
Proof.
  intros H. eapply Forall_impl; [exact H|]. intros s Hs.
  by apply has_keyword_false, contains_keyword_false.
Qed.

(** C5.  [extract_functional_snippets] returns the first sentence that
    contains, as a substring, one of the twelve keywords bug, crash, error,
    broken, glitch, issue, stuck, "not working", "doesn't work",
    "fails to", "unable to", "can't"; the first sentence when no sentence
    contains one; the empty string for the empty list.  The review "The
    app crashed. I love the colors.", once segmented into its two
    sentences, gives "the app crashed."; so does the same review with its
    two sentences exchanged. *)
Theorem extract_functional_snippets_spec :
  extract_functional_snippets [] = "" ∧
  (∀ before sent after,
     Forall (fun s => ¬ contains_keyword s) before →
     contains_keyword sent →
     extract_functional_snippets (before ++ sent :: after) = sent) ∧
  (∀ first rest,
     Forall (fun s => ¬ contains_keyword s) (first :: rest) →
     extract_functional_snippets (first :: rest) = first) ∧
  (∀ sents,
     sents "the app crashed. i love the colors."
       = ["the app crashed."; "i love the colors."] →
     extract_functional_snippets
       (preprocess_and_segment_review (Some sents)
          "The app crashed. I love the colors.")
     = "the app crashed.") ∧
  (∀ sents,
     sents "i love the colors. the app crashed."
       = ["i love the colors."; "the app crashed."] →
     extract_functional_snippets
       (preprocess_and_segment_review (Some sents)
          "I love the colors. The app crashed.")
     = "the app crashed.").
Proof.
  split_and!.
  - done.
  - intros before sent after Hb Hs. unfold extract_functional_snippets.
    rewrite first_keyword_sentence_found;
      [by destruct before|by apply no_keyword_as_specified|].
    by apply has_keyword_spec, contains_keyword_spec.
  - intros first rest H. unfold extract_functional_snippets.
    by rewrite first_keyword_sentence_none by (by apply no_keyword_as_specified).
  - intros sents H. unfold preprocess_and_segment_review.
    destruct (decide _) as [|_]; [done|].
    replace (strip (lower "The app crashed. I love the colors."))
      with "the app crashed. i love the colors." by (by vm_compute).
    rewrite H. by vm_compute.
  - intros sents H. unfold preprocess_and_segment_review.
    destruct (decide _) as [|_]; [done|].
    replace (strip (lower "I love the colors. The app crashed."))
      with "i love the colors. the app crashed." by (by vm_compute).
    rewrite H. by vm_compute.
Qed.

Lemma extract_functional_snippets_spec_witness :
  Forall (fun sent =>
            extract_functional_snippets (["nice colors."] ++ sent :: ["bye."])
            = sent)
    [ "found a bug."; "it will crash."; "an error appears.";
      "the button is broken."; "a glitch on screen."; "one issue here.";
      "i am stuck."; "login is not working."; "search doesn't work.";
      "it fails to load."; "i am unable to pay."; "i can't log in." ] ∧
  extract_functional_snippets ("great app, love it!" :: ["five stars"])
    = "great app, love it!" ∧
  extract_functional_snippets
    (preprocess_and_segment_review naive_nlp "The app crashed. I love the colors.")
    = "the app crashed." ∧
  extract_functional_snippets
    (preprocess_and_segment_review naive_nlp "I love the colors. The app crashed.")
    = "the app crashed.".
Proof.
  destruct extract_functional_snippets_spec
    as (_ & Hfound & Hnone & Hexample & Hexchanged).
  split_and!.
  - repeat constructor;
      (apply Hfound;
       [ repeat constructor; by apply contains_keyword_false
       | by apply contains_keyword_spec ]).
  - apply Hnone. repeat constructor; by apply contains_keyword_false.
  - apply Hexample. by vm_compute.
  - apply Hexchanged. by vm_compute.
Defined.

End SegmenterFacts.

(* ===================================================================== *)
(** * The widget extractor                                                *)
(* ===================================================================== *)

Import GuiAnalysis.

Section ExtractorFacts.

Lemma collect_node_bounds elements node :
  carries_bounds node →
  ∃ w, collect_node elements node = (elements ++ [w])%list ∧ record_of node w.
Proof.
  intros [b Hb]. unfold collect_node. rewrite Hb. eexists. split; [done|].
  unfold record_of, get_default. cbv zeta. rewrite Hb.
  split_and!;
    first [ by simplify_map_eq
          | rewrite !dom_insert_L, dom_empty_L; set_solver ].
Qed.

Lemma collect_node_no_bounds elements node :
  ¬ carries_bounds node → collect_node elements node = elements.
Proof.
  intros Hn. unfold collect_node.
  destruct (attrib_of node !! "bounds") eqn:E; [|done].
  destruct Hn. by eexists.
Qed.

Lemma foldl_collect_node nodes elements :
  ∃ ws, foldl collect_node elements nodes = (elements ++ ws)%list ∧
        Forall2 record_of (filter carries_bounds nodes) ws.
Proof.
  revert elements. induction nodes as [|node nodes IH]; intros elements.
  - exists []. by rewrite app_nil_r.
  - cbn [foldl]. destruct (decide (carries_bounds node)) as [Hb|Hn].
    + destruct (collect_node_bounds elements node Hb) as (w & -> & Hw).
      destruct (IH (elements ++ [w])%list) as (ws & -> & Hws).
      exists (w :: ws). rewrite <- app_assoc. split; [done|].
      rewrite filter_cons_True by done. by constructor.
    + rewrite collect_node_no_bounds by done.
      destruct (IH elements) as (ws & -> & Hws).
      exists ws. by rewrite filter_cons_False.
Qed.

Lemma filter_carries_bounds_none nodes :
  Forall (fun node => ¬ carries_bounds node) nodes →
  filter carries_bounds nodes = [].
Proof.
  induction 1 as [|n l Hn _ IH]; [done|]. by rewrite filter_cons_False.
Qed.

(** Induction on a hierarchy, with the property known of every child. *)
Lemma element_children_ind (P : element → Prop) :
  (∀ tag attrib children,
     Forall P children → P (Element tag attrib children)) →
  ∀ node, P node.
Proof.
  intros Hnode. fix IH 1. intros [tag attrib children]. apply Hnode.
  induction children as [|child children IHchildren]; constructor;
    [apply IH|apply IHchildren].
Qed.

(** [Element.iter()] lists the nodes in document order, and document order
    is one order only. *)
Lemma iter_document_order root : document_order root (iter root).
Proof.
  induction root as [tag attrib children IH] using element_children_ind.
  cbn [iter]. constructor.
  induction IH as [|child children Hchild _ IHchildren]; cbn [map];
    by constructor.
Qed.

Lemma document_order_iter root nodes :
  document_order root nodes → nodes = iter root.
Proof.
  revert nodes.
  induction root as [tag attrib children IH] using element_children_ind.
  intros nodes Hnodes. inversion Hnodes as [? ? ? below Hbelow]; subst.
  cbn [iter]. do 2 f_equal. clear Hnodes.
  induction Hbelow as [|child l children below Hl _ IHbelow]; [done|].
  apply Forall_cons in IH as [Hchild IH]. cbn [map].
  by rewrite (Hchild l Hl), (IHbelow IH).
Qed.

(** What the code does for a file that is missing, that raises
    [ET.ParseError], or that parses: one record for each node that carries
    [bounds], in document order, with the defaults "N/A", "", "" and
    "false" for an absent class, text, resource-id and clickable; nodes
    without [bounds] give nothing, and a description in which no node
    carries [bounds] gives the empty list. *)
Lemma parse_xml_hierarchy_records path_exists ET_parse xml_path :
  (path_exists xml_path = false →
     parse_xml_hierarchy path_exists ET_parse xml_path = Ok []) ∧
  (ET_parse xml_path = Raise ParseError →
     parse_xml_hierarchy path_exists ET_parse xml_path = Ok []) ∧
  (∀ root,
     path_exists xml_path = true → ET_parse xml_path = Ok root →
     ∃ nodes widgets,
       document_order root nodes ∧
       parse_xml_hierarchy path_exists ET_parse xml_path = Ok widgets ∧
       Forall2 record_of (filter carries_bounds nodes) widgets) ∧
  (∀ root nodes,
     path_exists xml_path = true → ET_parse xml_path = Ok root →
     document_order root nodes →
     Forall (fun node => ¬ carries_bounds node) nodes →
     parse_xml_hierarchy path_exists ET_parse xml_path = Ok []).
Proof.
  unfold parse_xml_hierarchy. split_and!.
  - by intros ->.
  - intros ->. by destruct (negb _).
  - intros root -> ->. cbn [negb].
    destruct (foldl_collect_node (iter root) []) as (ws & -> & Hws).
    exists (iter root), ws. split_and!; [apply iter_document_order|done|done].
  - intros root nodes -> -> ->%document_order_iter Hnone. cbn [negb].
    destruct (foldl_collect_node (iter root) []) as (ws & -> & Hws).
    rewrite (filter_carries_bounds_none _ Hnone) in Hws. by inversion Hws.
Qed.

(** The records of a hierarchy with nested nodes come in document order,
    not level by level. *)
Lemma parse_xml_hierarchy_nested :
  parse_xml_hierarchy sample_exists encoded_ET_parse "nested.xml"
  = Ok nested_records ∧
  parse_xml_hierarchy sample_exists sample_ET_parse "missing.xml" = Ok [] ∧
  parse_xml_hierarchy sample_exists sample_ET_parse "broken.xml" = Ok [] ∧
  parse_xml_hierarchy sample_exists sample_ET_parse "plain.xml" = Ok [].
Proof. split_and!; vm_compute; reflexivity. Qed.

(** C6, the failing case.  [parse_xml_hierarchy] turns [ET.ParseError]
    into the empty list and nothing else: a file on which [ET.parse] raises
    another exception, such as the [ValueError] it raises for a declared
    multi-byte encoding, makes [parse_xml_hierarchy] raise that exception,
    and the request that carries the file ends with it. *)
Theorem parse_xml_hierarchy_unparseable_escapes :
  (∀ path_exists ET_parse xml_path e,
     path_exists xml_path = true →
     ET_parse xml_path = Raise e → e ≠ ParseError →
     parse_xml_hierarchy path_exists ET_parse xml_path = Raise e) ∧
  parse_xml_hierarchy sample_exists encoded_ET_parse "gbk.xml"
  = Raise (ValueError "multi-byte encodings are not supported") ∧
  App.run_vipra_ui_analysis unit unit unit (fun _ => Ok ()) JsonRef.json_loads
    (Some sample_analyzer) naive_nlp sample_exists encoded_ET_parse
    (fun _ => true) text_size (fun p => p ++ ".annotated.png")
    (fun _ => "{...}") (fun _ => "?")
    (Some {| App.name := "shot.png" |}) "The login button is broken."
    (Some {| App.name := "gbk.xml" |}) []
  = (Raise (ValueError "multi-byte encodings are not supported"), []).
Proof.
  split_and!; [|by vm_compute|by vm_compute].
  intros path_exists ET_parse xml_path e He Hp Hne.
  unfold parse_xml_hierarchy. rewrite He, Hp. cbn [negb]. by destruct e.
Qed.

End ExtractorFacts.

(* ===================================================================== *)
(** * The visual annotator                                                *)
(* ===================================================================== *)

Section AnnotatorFacts.

Lemma selected_spec el : is_clickable el || has_text el = true ↔ qualifies el.
Proof.
  unfold is_clickable, has_text, qualifies, get_default.
  rewrite orb_true_iff, negb_true_iff, bool_decide_eq_true, bool_decide_eq_false.
  destruct (el !! "text") as [t|]; cbn [default]; split.
  - intros [?|?]; [by left|right; eauto].
  - intros [?|(t' & [= <-] & ?)]; [by left|by right].
  - intros [?|?]; [by left|done].
  - intros [?|(t' & ? & ?)]; [by left|done].
Qed.

Lemma labelled_spec el :
  labelled el = true ↔ qualifies el ∧ ∃ coords, parse_bounds el = Ok coords.
Proof.
  unfold labelled. rewrite andb_true_iff, selected_spec.
  destruct (parse_bounds el) as [c|e]; cbn [is_ok]; split.
  - intros [? _]. eauto.
  - intros [? _]. done.
  - intros [_ ?]. done.
  - intros [_ [c H]]. done.
Qed.

Lemma number_from_fst {A} n (l : list A) :
  (number_from n l).*1 = (fun i => n + Z.of_nat i) <$> seq 0 (length l).
Proof.
  revert n. induction l as [|x l IH]; intros n; [done|].
  cbn [number_from fmap list_fmap length seq fst]. f_equal; [lia|].
  rewrite IH, <- seq_shift, <- list_fmap_compose. apply list_fmap_ext.
  intros _ i _. cbn. lia.
Qed.

Lemma number_from_length {A} n (l : list A) :
  length (number_from n l) = length l.
Proof.
  revert n. induction l as [|x l IH]; intros n; [done|].
  cbn [number_from length]. by rewrite IH.
Qed.

Lemma labels_drawn_app ops1 ops2 :
  labels_drawn (ops1 ++ ops2) = (labels_drawn ops1 ++ labels_drawn ops2)%list.
Proof. apply omap_app. Qed.

Variable getTextSize : string → Z * Z.

Lemma annotate_widget_skipped st el :
  labelled el = false → annotate_widget getTextSize st el = st.
Proof.
  unfold labelled, annotate_widget, draw_widget.
  destruct (is_clickable el || has_text el); [|done]. cbn [andb].
  destruct (parse_bounds el); [done|done].
Qed.

Lemma annotate_widget_labelled st el :
  labelled el = true →
  ∃ ops, labels_drawn ops = [str_of_int (label_counter st)] ∧
         length ops = 3%nat ∧
         annotate_widget getTextSize st el =
           {| img := img st ++ ops;
              label_counter := label_counter st + 1;
              annotated_widget_details :=
                annotated_widget_details st ++ [describe (label_counter st) el] |}.
Proof.
  unfold labelled, annotate_widget, draw_widget.
  destruct (is_clickable el || has_text el); [|done]. cbn [andb].
  destruct (parse_bounds el) as [[[[x1 y1] x2] y2]|]; [|done]. intros _.
  cbn. destruct (getTextSize _) as [w h].
  refine (ex_intro _ _ (conj _ (conj _ eq_refl))); done.
Qed.

(** The loop invariant: from any state, the loop numbers the labelled
    widgets consecutively from the current counter, in their order. *)
Lemma annotate_fold st elements :
  let st' := foldl (annotate_widget getTextSize) st elements in
  let chosen :=
    number_from (label_counter st)
      (filter (fun el => labelled el = true) elements) in
  annotated_widget_details st' =
    (annotated_widget_details st ++ ((fun p => describe p.1 p.2) <$> chosen))%list ∧
  labels_drawn (img st') =
    (labels_drawn (img st) ++ ((fun p => str_of_int p.1) <$> chosen))%list ∧
  length (img st') = (length (img st) + 3 * length chosen)%nat ∧
  label_counter st' = label_counter st + Z.of_nat (length chosen).
Proof.
  revert st. induction elements as [|el elements IH]; intros st; cbn zeta.
  - cbn. rewrite !app_nil_r. split_and!; (done || lia).
  - cbn [foldl]. destruct (labelled el) eqn:Hl.
    + destruct (annotate_widget_labelled st el Hl) as (ops & Hops & Hlen & ->).
      rewrite filter_cons_True by done.
      destruct (IH {| img := img st ++ ops;
                      label_counter := label_counter st + 1;
                      annotated_widget_details :=
                        annotated_widget_details st
                          ++ [describe (label_counter st) el] |})
        as (-> & -> & -> & ->).
      cbn [img label_counter annotated_widget_details number_from fmap
           list_fmap length fst snd].
      rewrite labels_drawn_app, Hops, <- !app_assoc, length_app, Hlen.
      split_and!; (done || lia).
    + rewrite annotate_widget_skipped by done.
      rewrite filter_cons_False by (by rewrite Hl). apply IH.
Qed.

(** C3, as stated, fails: a clickable widget whose bounds do not parse is
    selected but receives neither a label nor a box. *)
Lemma annotate_skips_malformed_bounds :
  qualifies malformed_widget ∧
  annotate_loop text_size [malformed_widget]
  = {| img := []; label_counter := 1; annotated_widget_details := [] |}.
Proof. split; [by left|by vm_compute]. Qed.

(** C3, amended.  The labels go exactly to the widgets that are clickable
    or have a text and whose bounds parse to four integers: these receive
    the labels 1, 2, 3, ... in their original order, three drawing calls
    each; every other widget leaves the image, the counter and the
    descriptions as they were. *)
Theorem annotate_screenshot_labels elements :
  let st := annotate_loop getTextSize elements in
  let chosen := number_from 1 (filter (fun el => labelled el = true) elements) in
  annotated_widget_details st = (fun p => describe p.1 p.2) <$> chosen ∧
  labels_drawn (img st) = (fun p => str_of_int p.1) <$> chosen ∧
  chosen.*1 = (fun i => 1 + Z.of_nat i) <$> seq 0 (length chosen) ∧
  length (img st) = (3 * length chosen)%nat ∧
  (∀ el, labelled el = true ↔
         qualifies el ∧ ∃ coords, parse_bounds el = Ok coords) ∧
  (∀ st' el, ¬ qualifies el → annotate_widget getTextSize st' el = st') ∧
  (∀ path_exists imread_ok annotated_path_of image_path,
     path_exists image_path = true → imread_ok image_path = true →
     annotate_screenshot getTextSize path_exists imread_ok annotated_path_of
       image_path elements
     = AnnotPair (annotated_path_of image_path)
                 ((fun p => describe p.1 p.2) <$> chosen)).
Proof.
  cbv zeta. unfold annotate_loop.
  destruct (annotate_fold
              {| img := []; label_counter := 1; annotated_widget_details := [] |}
              elements) as (Hd & Hl & Hn & _).
  cbn [img label_counter annotated_widget_details labels_drawn omap list_omap
       app length Nat.add] in Hd, Hl, Hn.
  split_and!; try done.
  - by rewrite number_from_length, number_from_fst.
  - apply labelled_spec.
  - intros st' el Hq. apply annotate_widget_skipped.
    destruct (labelled el) eqn:E; [|done].
    apply labelled_spec in E as [? _]. done.
  - intros path_exists imread_ok annotated_path_of image_path He Hr.
    unfold annotate_screenshot, annotate_loop. by rewrite He, Hr, Hd.
Qed.

End AnnotatorFacts.

(** [int] on texts that a coordinate can be.  White space around the
    literal, a sign, single underscores between digits and leading zeros
    are read; U+00A0 counts as white space, the separators U+001C..U+001F
    do not; 4300 digits are converted, 4301 are not. *)
Lemma int_examples :
  int "42" = Ok 42 ∧ int " -7 " = Ok (-7) ∧ int "+1_000" = Ok 1000 ∧
  int "007" = Ok 7 ∧ int (String (ascii_of_nat 160) "3") = Ok 3 ∧
  is_ok (int "") = false ∧ is_ok (int "1__0") = false ∧
  is_ok (int "_1") = false ∧ is_ok (int "1_") = false ∧
  is_ok (int "- 1") = false ∧ is_ok (int "1.5") = false ∧
  is_ok (int "0x10") = false ∧
  is_ok (int (String (ascii_of_nat 28) "3")) = false ∧
  is_ok (int ("3" ++ String (ascii_of_nat 31) "")) = false ∧
  is_ok (int (nines 4300)) = true ∧
  int (nines 4301)
  = Raise (ValueError "Exceeds the limit (4300 digits) for integer string conversion").
Proof. vm_compute. repeat split. Qed.

Lemma annotate_screenshot_labels_witness :
  ¬ qualifies spacer ∧
  annotate_widget text_size
    (annotate_loop text_size [login_button; malformed_widget]) spacer
  = annotate_loop text_size [login_button; malformed_widget] ∧
  qualifies separator_widget ∧ labelled separator_widget = false ∧
  qualifies long_widget ∧ labelled long_widget = false ∧
  annotate_screenshot text_size sample_exists (fun _ => true)
    (fun p => p ++ ".annotated.png") "shot.png"
    [login_button; spacer; malformed_widget; separator_widget; long_widget;
     caption]
  = AnnotPair "shot.png.annotated.png"
      [ "label 1: class=android.widget.Button, text=Login, clickable=true";
        "label 2: class=N/A, text=Welcome, clickable=false" ].
Proof.
  assert (¬ qualifies spacer) as Hq.
  { intros [H|(t & H & ?)]; vm_compute in H; discriminate H. }
  split_and!; [done| |by left|by vm_compute|by left|by vm_compute|].
  - by apply (proj1 (proj2 (proj2 (proj2 (proj2 (proj2
            (annotate_screenshot_labels text_size [])))))) _ spacer).
  - rewrite (proj2 (proj2 (proj2 (proj2 (proj2 (proj2
               (annotate_screenshot_labels text_size
                  [login_button; spacer; malformed_widget; separator_widget;
                   long_widget; caption]))))))
               sample_exists (fun _ => true) (fun p => p ++ ".annotated.png")
               "shot.png" eq_refl eq_refl).
    vm_compute. reflexivity.
Defined.

(* ===================================================================== *)
(** * The prompt builder                                                  *)
(* ===================================================================== *)

Section PromptFacts.

Lemma prompt_head_ends_with_quote : ∃ h, prompt_head = h ++ dquote.
Proof.
  exists (String.substring 0 (Nat.pred (String.length prompt_head)) prompt_head).
  vm_compute. reflexivity.
Qed.

Lemma prompt_middle_starts_with_quote : ∃ m, prompt_middle = dquote ++ m.
Proof.
  exists (String.substring 1 (Nat.pred (String.length prompt_middle)) prompt_middle).
  vm_compute. reflexivity.
Qed.

(** [join] with the line feed as separator puts the texts one after the
    other with a line feed between two neighbours. *)
Lemma join_newline_joined texts : join newline texts = newline_joined texts.
Proof.
  unfold newline_joined.
  induction texts as [|w [|w' ws] IH]; [done|done|].
  change (join newline (w :: w' :: ws))
    with (w ++ newline ++ join newline (w' :: ws)).
  by rewrite IH.
Qed.

(** C7.  The prompt contains the review snippet verbatim between double
    quotes and the widget descriptions verbatim, joined by line feeds; for
    an empty list of descriptions it contains "No widget details
    extracted.". *)
Theorem construct_prompt_embeds widget_details review_snippet :
  (∃ pre post,
     construct_prompt widget_details review_snippet
     = pre ++ double_quote ++ review_snippet ++ double_quote ++ post) ∧
  (∃ pre post,
     construct_prompt widget_details review_snippet
     = pre ++ newline_joined widget_details ++ post) ∧
  (∃ pre post,
     construct_prompt [] review_snippet
     = pre ++ "No widget details extracted." ++ post).
Proof.
  unfold construct_prompt. change double_quote with dquote.
  rewrite <- join_newline_joined.
  destruct prompt_head_ends_with_quote as [h ->].
  destruct prompt_middle_starts_with_quote as [m ->].
  generalize prompt_tail. intros t. split_and!.
  - exists h, (m ++ widget_str widget_details ++ t).
    by rewrite !str_app_assoc.
  - destruct widget_details as [|w ws].
    + exists "". eexists. cbn [join]. by rewrite !str_app_nil_l.
    + exists ((h ++ dquote) ++ review_snippet ++ dquote ++ m), t.
      cbn [widget_str]. by rewrite !str_app_assoc.
  - exists ((h ++ dquote) ++ review_snippet ++ dquote ++ m), t.
    cbn [widget_str]. by rewrite !str_app_assoc.
Qed.

End PromptFacts.

Lemma construct_prompt_embeds_witness :
  construct_prompt
    [ "label 1: class=android.widget.Button, text=Login, clickable=true";
      "label 2: class=N/A, text=Welcome, clickable=false" ]
    "the app crashed."
  = expected_prompt ∧
  (∃ pre post,
     expected_prompt
     = pre ++ String (ascii_of_nat 34)
                ("the app crashed." ++ String (ascii_of_nat 34) post)) ∧
  (∃ pre post,
     expected_prompt
     = pre ++ ("label 1: class=android.widget.Button, text=Login, clickable=true"
               ++ String (ascii_of_nat 10)
                    "label 2: class=N/A, text=Welcome, clickable=false")
           ++ post) ∧
  (∃ pre post,
     construct_prompt [] "the app crashed."
     = pre ++ "No widget details extracted." ++ post).
Proof.
  assert (construct_prompt
            [ "label 1: class=android.widget.Button, text=Login, clickable=true";
              "label 2: class=N/A, text=Welcome, clickable=false" ]
            "the app crashed."
          = expected_prompt) as Hprompt by (vm_compute; reflexivity).
  destruct (construct_prompt_embeds
              [ "label 1: class=android.widget.Button, text=Login, clickable=true";
                "label 2: class=N/A, text=Welcome, clickable=false" ]
              "the app crashed.") as (Hsnippet & Hwidgets & Hempty).
  rewrite Hprompt in Hsnippet, Hwidgets.
  split_and!; [exact Hprompt|exact Hsnippet|exact Hwidgets|exact Hempty].
Defined.

(* ===================================================================== *)
(** * The request handler                                                 *)
(* ===================================================================== *)

Import Effects App.

Section MonadFacts.

Lemma io_bind_lift {A B} (r : result A) (k : A → io B) log :
  (lift r ≫= k) log =
  match r with Ok a => k a log | Raise e => (Raise e, log) end.
Proof. by destruct r. Qed.

End MonadFacts.

Section HandlerFacts.

Context {Image Inputs Ids : Type}.
Variable Image_open : string → result Image.
Variable json_loads : string → result pyval.

Lemma analyze_missing_inputs (self : MLLMAnalyzer Image Inputs Ids)
    image_path widget_details review_snippet log :
  no_path image_path = true ∨ review_snippet = "" →
  analyze_ui_review_pair Image Inputs Ids Image_open json_loads self
    image_path widget_details review_snippet log
  = (Ok missing_inputs_record, log).
Proof.
  intros H. unfold analyze_ui_review_pair.
  replace (no_path image_path || bool_decide (review_snippet = "")) with true.
  - done.
  - destruct H as [-> | ->]; [done|]. by rewrite bool_decide_true, orb_true_r.
Qed.

Variable analyzer : option (MLLMAnalyzer Image Inputs Ids).
Variable nlp : option (string → list string).
Variable path_exists : string → bool.
Variable ET_parse : string → result element.
Variable imread_ok : string → bool.
Variable getTextSize : string → Z * Z.
Variable annotated_path_of : string → string.
Variable json_dumps : pyval → string.
Variable format_value : pyval → string.

Lemma annotate_screenshot_unreadable image_path elements :
  path_exists image_path = false ∨ imread_ok image_path = false →
  annotate_screenshot getTextSize path_exists imread_ok annotated_path_of
    image_path elements = AnnotNone.
Proof.
  unfold annotate_screenshot. intros [-> | ->]; [done|].
  by destruct (negb (path_exists image_path)).
Qed.

Lemma run_empty_snippet_no_calls screenshot_image review_text xml_file log :
  extract_functional_snippets (preprocess_and_segment_review nlp review_text)
    = "" →
  (run_vipra_ui_analysis Image Inputs Ids Image_open json_loads analyzer nlp
     path_exists ET_parse imread_ok getTextSize annotated_path_of json_dumps
     format_value screenshot_image review_text xml_file log).2 = log.
Proof.
  intros Hsnip. unfold run_vipra_ui_analysis.
  destruct analyzer as [self|]; [|done].
  destruct screenshot_image as [shot|]; [|done].
  destruct (bool_decide (strip review_text = "")); [done|].
  rewrite io_bind_lift. destruct (if no_path _ then _ else _) as [els|e]; [|done].
  rewrite io_bind_lift. destruct (unpack_pair _) as [[p details]|e]; [|done].
  destruct (bool_decide (p = "")); [done|].
  rewrite Hsnip.
  unfold mbind at 1, io_bind at 1. rewrite analyze_missing_inputs by (by right).
  rewrite io_bind_lift. cbn [py_in missing_inputs_record].
  done.
Qed.

(** C4, the failing case.  For a screenshot file that is missing or that
    OpenCV cannot read, [annotate_screenshot] returns [None]; the handler
    unpacks that result into two names before it tests it, so the request
    ends with a [TypeError] and the message "Failed to process the uploaded
    screenshot." is never raised. *)
Theorem run_unreadable_screenshot self shot review_text xml_file log :
  analyzer = Some self →
  strip review_text ≠ "" →
  (∀ x, xml_file = Some x →
        is_ok (parse_xml_hierarchy path_exists ET_parse (name x)) = true) →
  path_exists (name shot) = false ∨ imread_ok (name shot) = false →
  (∀ elements,
     annotate_screenshot getTextSize path_exists imread_ok annotated_path_of
       (name shot) elements = AnnotNone) ∧
  run_vipra_ui_analysis Image Inputs Ids Image_open json_loads analyzer nlp
    path_exists ET_parse imread_ok getTextSize annotated_path_of json_dumps
    format_value (Some shot) review_text xml_file log
  = (Raise (TypeError "cannot unpack non-iterable NoneType object"), log).
Proof.
  intros Han Hrev Hxml Hbad. split.
  { intros elements. by apply annotate_screenshot_unreadable. }
  unfold run_vipra_ui_analysis. rewrite Han.
  rewrite bool_decide_false by done.
  rewrite io_bind_lift.
  assert (∃ els, (if no_path (name <$> xml_file) then Ok []
          else parse_xml_hierarchy path_exists ET_parse
                 (default "" (name <$> xml_file))) = Ok els) as [els ->].
  { destruct xml_file as [x|]; [|by eauto].
    cbn [fmap option_fmap option_map no_path default].
    destruct (bool_decide (name x = "")); [by eauto|].
    specialize (Hxml x eq_refl).
    destruct (parse_xml_hierarchy _ _ _); [eauto|done]. }
  rewrite io_bind_lift.
  by rewrite annotate_screenshot_unreadable.
Qed.

(** C10.  With an empty or absent image path, or with an empty review
    snippet, [analyze_ui_review_pair] returns the record with the error
    "Missing image path or review snippet." and makes no call: the image is
    not opened, no prompt is built, the model is not invoked.  Hence a
    request whose review segments to the empty snippet makes no call at
    all. *)
Theorem analyze_ui_review_pair_guard :
  (∀ self image_path widget_details review_snippet log,
     no_path image_path = true ∨ review_snippet = "" →
     analyze_ui_review_pair Image Inputs Ids Image_open json_loads self
       image_path widget_details review_snippet log
     = (Ok (PDict {[ "error" := PStr "Missing image path or review snippet." ]}),
        log)) ∧
  (∀ screenshot_image review_text xml_file log,
     extract_functional_snippets (preprocess_and_segment_review nlp review_text)
       = "" →
     (run_vipra_ui_analysis Image Inputs Ids Image_open json_loads analyzer nlp
        path_exists ET_parse imread_ok getTextSize annotated_path_of json_dumps
        format_value screenshot_image review_text xml_file log).2 = log).
Proof.
  split.
  - intros. by apply analyze_missing_inputs.
  - intros. by apply run_empty_snippet_no_calls.
Qed.

End HandlerFacts.

Lemma run_unreadable_screenshot_witness :
  (∀ elements,
     annotate_screenshot text_size sample_exists (fun _ => true)
       (fun p => p ++ ".annotated.png") "missing.png" elements = AnnotNone) ∧
  sample_run naive_nlp (fun _ => true) (Some {| name := "missing.png" |})
    "The login button is broken." (Some {| name := "login.xml" |}) []
  = (Raise (TypeError "cannot unpack non-iterable NoneType object"), []).
Proof.
  unfold sample_run.
  apply (run_unreadable_screenshot (fun _ => Ok ()) JsonRef.json_loads
           (Some sample_analyzer) naive_nlp sample_exists sample_ET_parse
           (fun _ => true) text_size (fun p => p ++ ".annotated.png")
           (fun _ => "{...}") (fun _ => "?") sample_analyzer
           {| name := "missing.png" |} "The login button is broken."
           (Some {| name := "login.xml" |}) []).
  - reflexivity.
  - by vm_compute.
  - intros x [= <-]. by vm_compute.
  - left. by vm_compute.
Defined.

Lemma analyze_ui_review_pair_guard_witness :
  analyze_ui_review_pair unit unit unit (fun _ => Ok ()) JsonRef.json_loads
    sample_analyzer (Some "shot.png") ["label 1: class=N/A, text=, clickable=true"]
    "" []
  = (Ok (PDict {[ "error" := PStr "Missing image path or review snippet." ]}), []) ∧
  analyze_ui_review_pair unit unit unit (fun _ => Ok ()) JsonRef.json_loads
    sample_analyzer None [] "the app crashed." []
  = (Ok (PDict {[ "error" := PStr "Missing image path or review snippet." ]}), []) ∧
  (sample_run None (fun _ => true) (Some {| name := "shot.png" |})
     "The login button is broken." None []).2 = [].
Proof.
  split_and!.
  - apply (proj1 (analyze_ui_review_pair_guard (fun _ => Ok ()) JsonRef.json_loads
                    (Some sample_analyzer) None sample_exists sample_ET_parse
                    (fun _ => true) text_size (fun p => p ++ ".annotated.png")
                    (fun _ => "{...}") (fun _ => "?"))).
    by right.
  - apply (proj1 (analyze_ui_review_pair_guard (fun _ => Ok ()) JsonRef.json_loads
                    (Some sample_analyzer) None sample_exists sample_ET_parse
                    (fun _ => true) text_size (fun p => p ++ ".annotated.png")
                    (fun _ => "{...}") (fun _ => "?"))).
    by left.
  - unfold sample_run.
    apply (proj2 (analyze_ui_review_pair_guard (fun _ => Ok ()) JsonRef.json_loads
                    (Some sample_analyzer) None sample_exists sample_ET_parse
                    (fun _ => true) text_size (fun p => p ++ ".annotated.png")
                    (fun _ => "{...}") (fun _ => "?"))).
    reflexivity.
Defined.



(* ===================================================================== *)
(** * More on the response parser                                         *)
(* ===================================================================== *)

Import Startup Outcomes.

Section CandidateShape.

Lemma first_occurrence c s :
  mem_char c s = true →
  ∃ pre rest, s = pre ++ String c rest ∧ mem_char c pre = false.
Proof.
  induction s as [|d s IH]; [done|]. cbn [mem_char].
  destruct (decide (c = d)) as [->|Hne]; intros H.
  - by exists "", s.
  - destruct (IH H) as (pre & rest & -> & Hpre).
    exists (String d pre), rest. split; [done|].
    cbn [mem_char]. by rewrite decide_False.
Qed.

(** An occurrence of [c] in [pre ++ s], where [s] has none, starts inside
    [pre]. *)
Lemma occurrence_before c x post pre s :
  x ++ String c post = pre ++ s → mem_char c s = false → len x < len pre.
Proof.
  revert x. induction pre as [|d pre IH]; intros x Heq Hs.
  - rewrite str_app_nil_l in Heq. subst s.
    rewrite mem_char_app in Hs. cbn [mem_char] in Hs.
    rewrite decide_True, orb_true_r in Hs by done. done.
  - rewrite len_cons. destruct x as [|e x].
    + rewrite len_nil. pose proof (len_nonneg pre). lia.
    + rewrite !str_app_cons in Heq. injection Heq as -> Heq.
      rewrite len_cons. specialize (IH x Heq Hs). lia.
Qed.

Lemma json_candidate_open_no_close pre rest :
  mem_char "{" pre = false → mem_char "}" rest = false →
  json_candidate (pre ++ String "{" rest) = "".
Proof.
  intros Hpre Hrest. unfold json_candidate, find, rfind.
  rewrite find_char_first by done.
  pose proof (len_nonneg pre). pose proof (len_nonneg rest).
  destruct (mem_char "}" (pre ++ String "{" rest)) eqn:Hc.
  - destruct (last_occurrence _ _ Hc) as (x & post & Heq & Hpost).
    assert (len x < len pre) as Hlt.
    { eapply occurrence_before; [symmetry; exact Heq|].
      cbn [mem_char]. by rewrite decide_False. }
    rewrite Heq at 2. rewrite rfind_char_last by done.
    pose proof (len_nonneg x).
    apply slice_empty.
    rewrite !clamp_index_nonneg by lia. rewrite len_app, len_cons. lia.
  - rewrite rfind_char_absent by done.
    apply slice_empty.
    rewrite !clamp_index_nonneg by lia. rewrite len_app, len_cons. lia.
Qed.

(** The three shapes of a candidate, with the text around it. *)
Lemma json_candidate_cases text :
  json_candidate text = "" ∨
  (json_candidate text = "}" ∧ ∃ x, text = x ++ "}") ∨
  ∃ pre inner post,
    text = pre ++ "{" ++ inner ++ "}" ++ post ∧
    mem_char "{" pre = false ∧ mem_char "}" post = false ∧
    json_candidate text = "{" ++ inner ++ "}".
Proof.
  destruct (mem_char "{" text) eqn:Ho.
  - destruct (first_occurrence _ _ Ho) as (pre & rest & -> & Hpre).
    destruct (mem_char "}" rest) eqn:Hc.
    + destruct (last_occurrence _ _ Hc) as (inner & post & -> & Hpost).
      right. right. exists pre, inner, post.
      split_and!; [done|done|done|].
      by apply (json_candidate_block pre inner post).
    + left. by apply json_candidate_open_no_close.
  - destruct (json_candidate_no_open text Ho) as [Hends Hnot].
    destruct (mem_char "}" text) eqn:Hc.
    + destruct (last_occurrence _ _ Hc) as (x & post & Heq & Hpost).
      destruct (decide (post = "")) as [->|Hne].
      * right. left. split; [apply Hends|]; eauto.
      * left. apply Hnot. intros y Hy. rewrite Heq in Hy.
        by apply ends_with_last in Hy.
    + left. by apply json_candidate_no_braces.
Qed.

(** X1.  The JSON candidate is a contiguous part of the raw text; it is
    empty, a lone closing brace, or a block that starts with an opening
    brace and ends with a closing one; and extracting the candidate of a
    candidate changes nothing. *)
Theorem json_candidate_shape text :
  (∃ before after, text = before ++ json_candidate text ++ after) ∧
  (json_candidate text = "" ∨ json_candidate text = "}" ∨
   ∃ inner, json_candidate text = "{" ++ inner ++ "}") ∧
  json_candidate (json_candidate text) = json_candidate text.
Proof.
  destruct (json_candidate_cases text)
    as [H|[[H [x Hx]]|(pre & inner & post & Heq & Hpre & Hpost & H)]];
    rewrite H.
  - split_and!; [by exists "", text|by left|done].
  - split_and!; [|by right; left|done].
    exists x, "". by rewrite str_app_nil_r.
  - split_and!; [|right; right; by exists inner|].
    + exists pre, post. by rewrite Heq, !str_app_assoc.
    + apply (json_candidate_block "" inner ""); done.
Qed.

End CandidateShape.


Section ParserOutcome.

Variable json_loads : string → result pyval.

Lemma isinstance_int_float_cases v :
  isinstance_int_float v = true → is_json_number v ∨ ∃ b, v = PBool b.
Proof. destruct v; cbn; eauto; done. Qed.

Lemma accepts_not_error_record text d :
  accepts json_loads text d → PDict d ≠ error_record text.
Proof.
  intros (_ & _ & Hall & _) [= ->].
  rewrite Forall_forall in Hall.
  destruct (Hall "rationale") as [x Hx]; [set_solver|].
  vm_compute in Hx. discriminate Hx.
Qed.

(** X2.  [parse_llm_output] has three outcomes and no other.  What it
    returns is a dict: the error record, or the object that [json.loads]
    decoded, and then that object has the four required keys, a
    [mismatch_detected] that spells "yes" or "no" in some case, and a
    [confidence_score] that is an int, a float or a boolean.  What it
    raises is an exception that [json.loads] raised on the candidate and
    that the [except] clause does not name, such as [RecursionError]. *)
Theorem parse_llm_output_sound text :
  match parse_llm_output json_loads text with
  | Ok v =>
      ∃ d, v = PDict d ∧
        (PDict d = error_record text ∨
         (json_loads (json_candidate text) = Ok (PDict d) ∧
          Forall (fun key => is_Some (d !! key)) required_keys ∧
          (∃ s, d !! "mismatch_detected" = Some (PStr s) ∧
                s ∈ yes_no_spellings) ∧
          (∃ score, d !! "confidence_score" = Some score ∧
                    (is_json_number score ∨ ∃ b, score = PBool b))))
  | Raise e =>
      json_candidate text ≠ "" ∧
      json_loads (json_candidate text) = Raise e ∧
      e ≠ JSONDecodeError ∧ (∀ msg, e ≠ ValueError msg ∧ e ≠ TypeError msg)
  end.
Proof.
  destruct (parse_llm_output_cases json_loads text)
    as [(d & Hacc & ->)|[(e & (Hne & Hl & Hc) & ->)|(_ & _ & ->)]].
  - exists d. split; [done|]. right.
    destruct Hacc as (_ & Hl & Hall & (s & Hs & Hyn) & (score & Hsc & Hi)).
    split_and!; [done|done| |].
    + exists s. split; [done|]. by apply lower_yes_no.
    + exists score. split; [done|]. by apply isinstance_int_float_cases.
  - split_and!; [done|done|by intros ->|].
    intros msg. split; by intros ->.
  - eexists. split; [done|]. by left.
Qed.

Lemma not_accepted_defective text :
  (∀ d, ¬ accepts json_loads text d) →
  (∀ e, ¬ decoder_escapes json_loads text e) →
  defective json_loads text.
Proof.
  intros Hno Hesc. unfold defective.
  destruct (decide (json_candidate text = "")) as [|Hne]; [by left|].
  destruct (json_loads (json_candidate text)) as [v|e] eqn:Hl.
  2:{ destruct (caught e) eqn:Hc; [right; left; eauto|].
      by destruct (Hesc e). }
  right. right.
  assert ((∀ d, v ≠ PDict d) ∨ ∃ d, v = PDict d) as [Hv|[d ->]].
  { destruct v; try (left; intros d' [=]; done). right. eauto. }
  { left. eauto. }
  right.
  destruct (d !! "mismatch_detected") as [x|] eqn:Hd;
    [|left; exists d, "mismatch_detected"; split_and!; [done|set_solver|done]].
  destruct (d !! "confidence_score") as [score|] eqn:Hsc;
    [|left; exists d, "confidence_score"; split_and!; [done|set_solver|done]].
  destruct (d !! "mismatch_type") as [ty|] eqn:Hty;
    [|left; exists d, "mismatch_type"; split_and!; [done|set_solver|done]].
  destruct (d !! "rationale") as [ra|] eqn:Hra;
    [|left; exists d, "rationale"; split_and!; [done|set_solver|done]].
  right.
  assert ((∀ s, x = PStr s → s ∉ yes_no_spellings) ∨
          ∃ s, x = PStr s ∧ s ∈ yes_no_spellings) as [Hx|(s & -> & Hs)].
  { destruct x; try (left; intros s' [=]; done).
    destruct (decide (s ∈ yes_no_spellings)); [right; eauto|].
    left. by intros s' [= <-]. }
  { left. eauto. }
  right. exists d, score. split_and!; [done|done|].
  destruct (isinstance_int_float score) eqn:Hi; [|done].
  destruct (Hno d). unfold accepts. split_and!; [done|done| | |].
  - unfold required_keys. rewrite !Forall_cons, Forall_nil.
    rewrite Hd, Hsc, Hty, Hra. split_and!; eauto.
  - exists s. split; [done|]. by apply lower_yes_no.
  - eauto.
Qed.

(** X3.  The error record is returned exactly for the defective outputs:
    an empty candidate, a candidate that [json.loads] rejects with
    [JSONDecodeError] (or with another exception that the [except] clause
    names), a decoded value that is not an object, a missing required key,
    a [mismatch_detected] that is not a spelling of "yes" or "no", or a
    [confidence_score] that is neither int, float nor boolean. *)
Theorem parse_llm_output_error_iff text :
  parse_llm_output json_loads text = Ok (error_record text) ↔ defective json_loads text.
Proof.
  split.
  - intros H.
    destruct (parse_llm_output_cases json_loads text)
      as [(d & Hd & H')|[(e & _ & H')|(Hno & Hesc & _)]].
    + destruct (accepts_not_error_record text d Hd). congruence.
    + congruence.
    + by apply not_accepted_defective.
  - apply parse_llm_output_rejections.
Qed.

End ParserOutcome.


(* ===================================================================== *)
(** * More on the review segmenter                                        *)
(* ===================================================================== *)

Section StripFacts.

Variable drop : ascii → bool.

Lemma lstrip_by_head c t s :
  lstrip_by drop s = String c t → drop c = false.
Proof.
  induction s as [|d s IH]; [done|]. cbn [lstrip_by].
  destruct (drop d) eqn:Hd; [done|]. by intros [= <- _].
Qed.

Lemma rstrip_by_keep c t :
  drop c = false → rstrip_by drop (String c t) = String c (rstrip_by drop t).
Proof.
  intros Hc. cbn [rstrip_by]. destruct (rstrip_by drop t); [by rewrite Hc|done].
Qed.

Lemma rstrip_by_idem s : rstrip_by drop (rstrip_by drop s) = rstrip_by drop s.
Proof.
  induction s as [|c s IH]; [done|]. cbn [rstrip_by].
  destruct (rstrip_by drop s) as [|d r] eqn:Hr.
  - destruct (drop c) eqn:Hc; [done|]. cbn [rstrip_by]. by rewrite Hc.
  - cbn [rstrip_by] in IH |- *.
    destruct (rstrip_by drop r) as [|e r'] eqn:Hr'.
    + destruct (drop d) eqn:Hd; [done|]. by injection IH as <-.
    + by rewrite IH.
Qed.

(** Stripping twice is stripping once. *)
Lemma strip_by_idem s : strip_by drop (strip_by drop s) = strip_by drop s.
Proof.
  unfold strip_by. destruct (lstrip_by drop s) as [|c t] eqn:Hl; [done|].
  pose proof (lstrip_by_head _ _ _ Hl) as Hc.
  rewrite rstrip_by_keep by done. cbn [lstrip_by]. rewrite Hc.
  by rewrite rstrip_by_keep, rstrip_by_idem.
Qed.

End StripFacts.

Section SegmenterOutcome.

Lemma first_keyword_sentence_some sentences sent :
  first_keyword_sentence sentences = Some sent →
  sent ∈ sentences ∧ mentions_keyword sent.
Proof.
  induction sentences as [|s l IH]; [done|]. cbn [first_keyword_sentence].
  destruct (has_keyword s) eqn:Hs.
  - intros [= <-]. split; [left|by apply has_keyword_spec].
  - intros Hf. destruct (IH Hf) as [? ?]. split; [by right|done].
Qed.

Lemma first_keyword_sentence_none_inv sentences :
  first_keyword_sentence sentences = None →
  Forall (fun sent => ¬ mentions_keyword sent) sentences.
Proof.
  induction sentences as [|s l IH]; [constructor|]. cbn [first_keyword_sentence].
  destruct (has_keyword s) eqn:Hs; [done|].
  intros Hf. constructor; [by apply has_keyword_false|by apply IH].
Qed.

Lemma extract_functional_snippets_in first rest :
  extract_functional_snippets (first :: rest) ∈ first :: rest ∧
  (mentions_keyword (extract_functional_snippets (first :: rest)) ∨
   (extract_functional_snippets (first :: rest) = first ∧
    Forall (fun sent => ¬ mentions_keyword sent) (first :: rest))).
Proof.
  unfold extract_functional_snippets.
  destruct (first_keyword_sentence (first :: rest)) as [sent|] eqn:Hf.
  - apply first_keyword_sentence_some in Hf as [? ?]. eauto.
  - apply first_keyword_sentence_none_inv in Hf. split; [left|eauto].
Qed.

(** X4.  For a list that is not empty, [extract_functional_snippets]
    returns one of the given sentences, and either a keyword occurs in it
    or it is the first sentence and no sentence has a keyword. *)
Theorem extract_functional_snippets_member first rest :
  let snippet := extract_functional_snippets (first :: rest) in
  snippet ∈ first :: rest ∧
  (mentions_keyword snippet ∨
   (snippet = first ∧
    Forall (fun sent => ¬ mentions_keyword sent) (first :: rest))).
Proof. apply extract_functional_snippets_in. Qed.

Variable nlp : option (string → list string).

Lemma preprocess_sentences_trimmed text sent :
  sent ∈ preprocess_and_segment_review nlp text →
  sent ≠ "" ∧ strip sent = sent.
Proof.
  unfold preprocess_and_segment_review.
  destruct nlp as [sents|]; [|by intros ?%elem_of_nil].
  destruct (decide (text = "")); [by intros ?%elem_of_nil|].
  intros [Hne (raw & -> & _)%list_elem_of_fmap]%list_elem_of_filter.
  split; [done|]. apply strip_by_idem.
Qed.

(** X5.  Every sentence that [preprocess_and_segment_review] returns is
    non-empty and has no white space at either end; without the spaCy
    model, or for the empty review, it returns no sentence.  Hence the
    snippet selected from its result is empty exactly when it returned no
    sentence. *)
Theorem preprocess_and_segment_review_trimmed text :
  Forall (fun sent => sent ≠ "" ∧ strip sent = sent)
         (preprocess_and_segment_review nlp text) ∧
  (nlp = None ∨ text = "" → preprocess_and_segment_review nlp text = []) ∧
  (extract_functional_snippets (preprocess_and_segment_review nlp text) = "" ↔
   preprocess_and_segment_review nlp text = []).
Proof.
  split_and!.
  - apply Forall_forall. intros sent. apply preprocess_sentences_trimmed.
  - unfold preprocess_and_segment_review. intros [-> | ->]; [done|].
    by destruct nlp.
  - split; [|by intros ->].
    destruct (preprocess_and_segment_review nlp text) as [|first rest] eqn:Hp;
      [done|].
    intros Hempty.
    destruct (extract_functional_snippets_in first rest) as [Hin _].
    rewrite Hempty, <- Hp in Hin.
    by apply preprocess_sentences_trimmed in Hin as [? _].
Qed.

End SegmenterOutcome.


(* ===================================================================== *)
(** * More on the widget extractor and the annotator                      *)
(* ===================================================================== *)

Section CharFacts.

Lemma all_chars_app f s t :
  all_chars f (s ++ t) = all_chars f s && all_chars f t.
Proof.
  induction s as [|c s IH]; [done|]. rewrite str_app_cons. cbn [all_chars].
  by rewrite IH, andb_assoc.
Qed.

Lemma all_chars_mem f s c :
  all_chars f s = true → f c = false → mem_char c s = false.
Proof.
  intros Hs Hc. induction s as [|d s IH]; [done|]. cbn [all_chars] in Hs.
  apply andb_true_iff in Hs as [Hd Hs]. cbn [mem_char].
  destruct (decide (c = d)) as [->|]; [congruence|by apply IH].
Qed.

Lemma all_chars_impl (f g : ascii → bool) s :
  (∀ c, f c = true → g c = true) → all_chars f s = true → all_chars g s = true.
Proof.
  intros Hfg. induction s as [|c s IH]; [done|]. cbn [all_chars].
  rewrite !andb_true_iff. intros [? ?]. auto.
Qed.

Lemma pretty_N_char_code d :
  (d < 10)%N → is_digit (pretty_N_char d) = true ∧
               code (pretty_N_char d) - 48 = Z.of_N d.
Proof.
  intros Hd.
  assert (d = 0 ∨ d = 1 ∨ d = 2 ∨ d = 3 ∨ d = 4 ∨ d = 5 ∨ d = 6 ∨ d = 7
          ∨ d = 8 ∨ d = 9)%N as H by lia.
  repeat (destruct H as [-> | H]; [by vm_compute|]). subst d. by vm_compute.
Qed.

Lemma pretty_N_go_digits x s :
  all_chars is_digit s = true → all_chars is_digit (pretty_N_go x s) = true.
Proof.
  revert s. induction (N.lt_wf_0 x) as [x _ IH]; intros s Hs.
  assert (x = 0 ∨ 0 < x)%N as [->|Hx] by lia; [by rewrite pretty_N_go_0|].
  rewrite pretty_N_go_step by done. apply IH; [by apply N.div_lt|].
  cbn [all_chars]. rewrite Hs, andb_true_r.
  apply pretty_N_char_code, N.mod_lt. lia.
Qed.

(** Reading the digits that [pretty_N_go] writes gives the number back,
    and counts them: [k] digits, none for zero, and a number of [k] digits
    is at least [10 ^ (k - 1)]. *)
Lemma pretty_N_go_scan x :
  ∃ m k, 0 ≤ k ∧ (x = 0%N → k = 0) ∧
    ((0 < x)%N → 0 < k ∧ 10 ^ (k - 1) ≤ Z.of_N x) ∧
    ∀ s acc digits b,
      int_scan (pretty_N_go x s) acc digits b
      = int_scan s (acc * m + Z.of_N x) (digits + k)
          (b && bool_decide (x = 0%N)).
Proof.
  induction (N.lt_wf_0 x) as [x _ IH].
  assert (x = 0 ∨ 0 < x)%N as [->|Hx] by lia.
  - exists 1, 0. split_and!; [done|done|lia|]. intros s acc digits b.
    rewrite pretty_N_go_0, bool_decide_true, andb_true_r by done.
    f_equal; lia.
  - destruct (IH (x `div` 10)%N) as (m & k & Hk & Hzero & Hpos & Hm);
      [by apply N.div_lt|].
    pose proof (N.div_mod x 10 ltac:(lia)) as Hdiv.
    pose proof (N.mod_lt x 10 ltac:(lia)) as Hmod.
    exists (10 * m), (k + 1). split_and!; [lia|lia| |].
    + intros _. split; [lia|]. replace (k + 1 - 1) with k by lia.
      assert (x `div` 10 = 0 ∨ 0 < x `div` 10)%N as [H0|Hq] by lia.
      * rewrite (Hzero H0). change (10 ^ 0) with 1. lia.
      * destruct (Hpos Hq) as [Hk1 Hpos'']. clear Hpos. rename Hpos'' into Hpos.
        replace k with (Z.succ (k - 1)) at 1 by lia.
        rewrite Z.pow_succ_r by lia. rewrite N2Z.inj_div in Hpos.
        pose proof (Z.mul_div_le (Z.of_N x) 10 ltac:(lia)) as Hle.
        change (Z.of_N 10) with 10 in Hpos.
        revert Hpos Hle. generalize (10 ^ (k - 1)) (Z.of_N x `div` 10).
        intros; lia.
    + intros s acc digits b.
      rewrite pretty_N_go_step, Hm by done. cbn [int_scan].
      destruct (pretty_N_char_code (x `mod` 10)%N) as [-> ->]; [done|].
      rewrite (bool_decide_false (x = 0%N)), andb_false_r by lia.
      f_equal; lia.
Qed.

End CharFacts.


Section IntOfStr.

Lemma lstrip_by_none drop s :
  all_chars (fun c => negb (drop c)) s = true → lstrip_by drop s = s.
Proof.
  destruct s as [|c s]; [done|]. cbn [all_chars lstrip_by].
  intros [Hc _]%andb_true_iff. apply negb_true_iff in Hc. by rewrite Hc.
Qed.

Lemma rstrip_by_none drop s :
  all_chars (fun c => negb (drop c)) s = true → rstrip_by drop s = s.
Proof.
  induction s as [|c s IH]; [done|]. cbn [all_chars].
  intros [Hc Hs]%andb_true_iff. apply negb_true_iff in Hc.
  rewrite rstrip_by_keep by done. by rewrite IH.
Qed.

Lemma strip_by_none drop s :
  all_chars (fun c => negb (drop c)) s = true → strip_by drop s = s.
Proof.
  intros H. unfold strip_by. by rewrite lstrip_by_none, rstrip_by_none.
Qed.

Lemma rstrip_by_app_drop drop s c :
  drop c = true → rstrip_by drop (s ++ String c "") = rstrip_by drop s.
Proof.
  intros Hc. induction s as [|d s IH].
  - rewrite str_app_nil_l. cbn [rstrip_by]. by rewrite Hc.
  - rewrite str_app_cons. cbn [rstrip_by]. by rewrite IH.
Qed.

(** [s.strip(chars)] takes one leading and one trailing character of the
    set off a text that has none of them inside. *)
Lemma strip_by_wrapped drop a b s :
  drop a = true → drop b = true →
  all_chars (fun c => negb (drop c)) s = true →
  strip_by drop (String a (s ++ String b "")) = s.
Proof.
  intros Ha Hb Hs. unfold strip_by. cbn [lstrip_by]. rewrite Ha.
  destruct s as [|c s].
  - rewrite str_app_nil_l. cbn [lstrip_by]. by rewrite Hb.
  - pose proof Hs as Hs'. cbn [all_chars] in Hs'.
    apply andb_true_iff in Hs' as [Hc _]. apply negb_true_iff in Hc.
    rewrite str_app_cons. cbn [lstrip_by]. rewrite Hc.
    rewrite <- str_app_cons, rstrip_by_app_drop by done.
    by apply rstrip_by_none.
Qed.

Lemma num_char_not_space s :
  all_chars is_num_char s = true →
  all_chars (fun c => negb (is_int_space c)) s = true.
Proof.
  apply all_chars_impl. intros c Hc.
  destruct c as [[] [] [] [] [] [] [] []]; vm_compute in Hc |- *;
    first [done | discriminate Hc].
Qed.

Lemma digit_is_num_char s :
  all_chars is_digit s = true → all_chars is_num_char s = true.
Proof.
  apply all_chars_impl. intros c Hc. unfold is_num_char. by rewrite Hc.
Qed.

(** The text of a positive number is made of digits and reads back; a
    number below [10 ^ int_max_str_digits] has at most that many. *)
Lemma pretty_positive_int p :
  all_chars is_digit (pretty_N_go (Npos p) "") = true ∧
  ∃ k, 0 < k ∧ (Zpos p < 10 ^ int_max_str_digits → k ≤ int_max_str_digits) ∧
       int_scan (pretty_N_go (Npos p) "") 0 0 false = Some (Zpos p, k, "").
Proof.
  split; [by apply pretty_N_go_digits|].
  destruct (pretty_N_go_scan (Npos p)) as (m & k & Hk & _ & Hpos & Hm).
  destruct (Hpos ltac:(lia)) as [Hk1 Hpow]. clear Hpos.
  exists k. split_and!; [done| |].
  - intros Hlt.
    assert (k - 1 < int_max_str_digits); [|lia].
    apply (Z.pow_lt_mono_r_iff 10); [lia|done|].
    revert Hlt Hpow. change (Z.of_N (N.pos p)) with (Z.pos p).
    generalize (10 ^ int_max_str_digits) (10 ^ (k - 1)). intros; lia.
  - rewrite Hm. cbn [int_scan andb]. repeat f_equal; lia.
Qed.

Lemma str_of_int_cases n :
  (n = 0 ∧ str_of_int n = "0") ∨
  (∃ p, n = Zpos p ∧ str_of_int n = pretty_N_go (Npos p) "") ∨
  (∃ p, n = Zneg p ∧ str_of_int n = "-" ++ pretty_N_go (Npos p) "").
Proof.
  destruct n as [|p|p]; [by left|right; left|right; right]; exists p;
    (split; [done|]);
    unfold str_of_int, pretty, pretty_Z, pretty, pretty_positive, pretty,
      pretty_N; by rewrite decide_False.
Qed.

Lemma str_of_int_chars n : all_chars is_num_char (str_of_int n) = true.
Proof.
  destruct (str_of_int_cases n) as [[_ ->]|[(p & _ & ->)|(p & _ & ->)]].
  - done.
  - apply digit_is_num_char, pretty_positive_int.
  - change ("-" ++ pretty_N_go (N.pos p) "")
      with (String "-" (pretty_N_go (N.pos p) "")).
    cbn [all_chars]. rewrite digit_is_num_char by apply pretty_positive_int.
    done.
Qed.

(** A run of digits, within the limit, is read as its value, and with a
    minus sign before it as the opposite. *)
Lemma int_of_digits s n k :
  all_chars is_digit s = true →
  int_scan s 0 0 false = Some (n, k, "") →
  0 < k → k ≤ int_max_str_digits →
  int s = Ok n ∧ int (String "-" s) = Ok (- n).
Proof.
  intros Hs Hscan Hk Hmax.
  destruct s as [|c r]; [cbn in Hscan; injection Hscan as _ <- ; lia|].
  cbn [all_chars] in Hs. apply andb_true_iff in Hs as [Hc _].
  assert (is_int_space c = false ∧ c ≠ "+"%char ∧ c ≠ "-"%char
          ∧ c ≠ "_"%char) as (Hsp & Hplus & Hminus & Hus).
  { destruct c as [[] [] [] [] [] [] [] []]; vm_compute in Hc;
      first [discriminate Hc | by vm_compute]. }
  assert ((int_max_str_digits <? k) = false) as Hlim by lia.
  assert ((k =? 0) = false) as Hnz by lia.
  split.
  - unfold int. cbn [lstrip_by]. rewrite Hsp.
    assert (match String c r with
            | String "+" r' => (1, r')
            | String "-" r' => (-1, r')
            | _ => (1, String c r)
            end = (1, String c r)) as ->.
    { destruct c as [[] [] [] [] [] [] [] []]; done. }
    cbn [startswith]. rewrite (decide_False (P := "_"%char = c)) by done.
    rewrite Hscan, Hlim, Hnz. cbn [lstrip_by]. rewrite decide_True by done.
    f_equal; lia.
  - unfold int. cbn [lstrip_by]. change (is_int_space "-") with false. cbn match.
    cbn [startswith]. rewrite (decide_False (P := "_"%char = c)) by done.
    rewrite Hscan, Hlim, Hnz. cbn [lstrip_by]. rewrite decide_True by done.
    f_equal; lia.
Qed.

(** [int(str(n)) == n], for the integers whose text stays within the
    conversion limit. *)
Lemma int_str_of_int n :
  Z.abs n < 10 ^ int_max_str_digits → int (str_of_int n) = Ok n.
Proof.
  intros Hn.
  destruct (str_of_int_cases n) as [[-> ->]|[(p & -> & ->)|(p & -> & ->)]].
  - by vm_compute.
  - destruct (pretty_positive_int p) as (Hd & k & Hk & Hmax & Hscan).
    by apply (int_of_digits _ _ k Hd Hscan Hk (Hmax Hn)).
  - destruct (pretty_positive_int p) as (Hd & k & Hk & Hmax & Hscan).
    change ("-" ++ pretty_N_go (N.pos p) "")
      with (String "-" (pretty_N_go (N.pos p) "")).
    by apply (int_of_digits _ _ k Hd Hscan Hk (Hmax Hn)).
Qed.

End IntOfStr.


Section BoundsRoundTrip.

Lemma replace_from_free s t :
  mem_char "]" s = false →
  replace_from (s ++ t) "][" "," O = s ++ replace_from t "][" "," O.
Proof.
  induction s as [|c s IH]; [done|]. cbn [mem_char].
  destruct (decide ("]"%char = c)) as [|Hne]; [done|]. intros Hs.
  rewrite !str_app_cons. cbn [replace_from startswith].
  rewrite decide_False by done. by rewrite IH.
Qed.

Lemma replace_from_match t :
  replace_from ("][" ++ t) "][" "," O = "," ++ replace_from t "][" "," O.
Proof.
  change ("][" ++ t) with (String "]" (String "[" t)).
  cbn [replace_from startswith]. rewrite !decide_True by done.
  by destruct t.
Qed.

Lemma split_free s sep : mem_char sep s = false → split s sep = [s].
Proof.
  induction s as [|c s IH]; [done|]. cbn [mem_char split].
  destruct (decide (sep = c)) as [|Hne]; [done|]. intros Hs.
  rewrite decide_False by done. by rewrite IH.
Qed.

Lemma split_app s t sep :
  mem_char sep s = false → split (s ++ String sep t) sep = s :: split t sep.
Proof.
  induction s as [|c s IH].
  - intros _. rewrite str_app_nil_l. cbn [split]. by rewrite decide_True.
  - cbn [mem_char]. destruct (decide (sep = c)) as [|Hne]; [done|]. intros Hs.
    rewrite str_app_cons. cbn [split]. rewrite decide_False by done.
    by rewrite IH.
Qed.

Lemma num_chars_free s c :
  is_num_char c = false → all_chars is_num_char s = true → mem_char c s = false.
Proof. intros Hc Hs. by eapply all_chars_mem. Qed.

Lemma bounds_inner_chars a b c d :
  all_chars (fun ch => negb (mem_char ch "[]"))
    (str_of_int a ++ "," ++ str_of_int b ++ "," ++ str_of_int c ++ ","
       ++ str_of_int d) = true.
Proof.
  assert (∀ s, all_chars is_num_char s = true →
               all_chars (fun ch => negb (mem_char ch "[]")) s = true) as Hnum.
  { intros s. apply all_chars_impl. intros ch Hch.
    destruct ch as [[] [] [] [] [] [] [] []]; vm_compute in Hch |- *;
      first [done | discriminate Hch]. }
  rewrite !all_chars_app.
  rewrite (Hnum (str_of_int a)), (Hnum (str_of_int b)), (Hnum (str_of_int c)),
    (Hnum (str_of_int d)) by apply str_of_int_chars.
  by vm_compute.
Qed.

(** X6.  Bounds written as "[x1,y1][x2,y2]", with the four integers in
    decimal (negative ones included), parse back to these four integers,
    provided each of them is below [10 ^ 4300] in absolute value: up to
    4300 digits is what [int] converts. *)
Theorem parse_bounds_round_trip el a b c d :
  Forall (fun n => Z.abs n < 10 ^ int_max_str_digits) [a; b; c; d] →
  el !! "bounds" = Some (bounds_text a b c d) →
  parse_bounds el = Ok (a, b, c, d).
Proof.
  rewrite !Forall_cons. intros (Hla & Hlb & Hlc & Hld & _).
  intros Hb. unfold parse_bounds, getitem. rewrite Hb, bind_ok. cbv zeta.
  pose proof (str_of_int_chars a) as Ha. pose proof (str_of_int_chars b) as Hb'.
  pose proof (str_of_int_chars c) as Hc. pose proof (str_of_int_chars d) as Hd.
  set (pa := str_of_int a) in *. set (pb := str_of_int b) in *.
  set (pc := str_of_int c) in *. set (pd := str_of_int d) in *.
  assert (replace (bounds_text a b c d) "][" ","
          = String "[" ((pa ++ "," ++ pb ++ "," ++ pc ++ "," ++ pd) ++ "]"))
    as ->.
  { unfold bounds_text, replace. fold pa pb pc pd.
    replace ("[" ++ pa ++ "," ++ pb ++ "][" ++ pc ++ "," ++ pd ++ "]")
      with (("[" ++ pa ++ "," ++ pb) ++ "][" ++ (pc ++ "," ++ pd) ++ "]")
      by (by rewrite !str_app_assoc).
    rewrite replace_from_free.
    2:{ rewrite !mem_char_app.
        rewrite (num_chars_free pa "]"), (num_chars_free pb "]") by done.
        by vm_compute. }
    rewrite replace_from_match, replace_from_free.
    2:{ rewrite !mem_char_app.
        rewrite (num_chars_free pc "]"), (num_chars_free pd "]") by done.
        by vm_compute. }
    change (replace_from "]" "][" "," 0) with "]".
    by rewrite !str_app_assoc. }
  unfold strip_chars.
  rewrite strip_by_wrapped; [|done|done|apply bounds_inner_chars].
  change (pa ++ "," ++ pb ++ "," ++ pc ++ "," ++ pd)
    with (pa ++ String "," (pb ++ String "," (pc ++ String "," pd))).
  rewrite split_app by (by apply num_chars_free).
  rewrite split_app by (by apply num_chars_free).
  rewrite split_app by (by apply num_chars_free).
  rewrite split_free by (by apply num_chars_free).
  cbn [mapM]. unfold pa, pb, pc, pd.
  rewrite !int_str_of_int, !bind_ok by done.
  done.
Qed.


Lemma parse_bounds_round_trip_witness :
  parse_bounds (<["bounds" := bounds_text (-3) 0 1080 1920]> ∅)
  = Ok (-3, 0, 1080, 1920).
Proof.
  apply (parse_bounds_round_trip (<["bounds" := bounds_text (-3) 0 1080 1920]> ∅)
           (-3) 0 1080 1920).
  - repeat constructor; vm_compute; reflexivity.
  - reflexivity.
Defined.

End BoundsRoundTrip.

Section ExtractorFeedsAnnotator.

Lemma record_of_same_reading node w :
  record_of node w →
  (∃ bounds, getitem w "bounds" = Ok bounds) ∧
  parse_bounds w = parse_bounds (attrib_of node) ∧
  is_clickable w = is_clickable (attrib_of node) ∧
  has_text w = has_text (attrib_of node).
Proof.
  intros (Hb & _ & Ht & _ & Hc & Hdom).
  assert (is_Some (w !! "bounds")) as [bounds Hbounds].
  { apply elem_of_dom. rewrite Hdom. set_solver. }
  split_and!.
  - exists bounds. unfold getitem. by rewrite Hbounds.
  - unfold parse_bounds, getitem. by rewrite Hb.
  - unfold is_clickable. rewrite Hc.
    destruct (attrib_of node !! "clickable") as [v|]; cbn [default].
    + done.
    + by rewrite !bool_decide_false.
  - unfold has_text, get_default. rewrite Ht. done.
Qed.

(** X7.  The records that [parse_xml_hierarchy] returns always carry a
    [bounds] entry, so the subscript [el['bounds']] of the annotator cannot
    fail on them; and, taken in order, they stand for the nodes of the
    hierarchy that carry [bounds], taken in document order: the annotator
    reads from each record what it would read from that node's own
    attributes, the same bounds, the same clickable test, the same text
    test. *)
Theorem parse_xml_hierarchy_feeds_annotator
    path_exists ET_parse xml_path root widgets :
  ET_parse xml_path = Ok root →
  parse_xml_hierarchy path_exists ET_parse xml_path = Ok widgets →
  Forall (fun w => ∃ bounds, getitem w "bounds" = Ok bounds) widgets ∧
  (path_exists xml_path = true →
   ∃ nodes,
     document_order root nodes ∧
     Forall2 (fun node w =>
                parse_bounds w = parse_bounds (attrib_of node) ∧
                is_clickable w = is_clickable (attrib_of node) ∧
                has_text w = has_text (attrib_of node))
             (filter carries_bounds nodes) widgets).
Proof.
  intros Hroot Hparse. unfold parse_xml_hierarchy in Hparse.
  rewrite Hroot in Hparse.
  destruct (path_exists xml_path); cbn [negb] in Hparse.
  - destruct (foldl_collect_node (iter root) []) as (ws & Hws & Hrec).
    rewrite Hws in Hparse. injection Hparse as <-. split.
    + clear Hws. induction Hrec as [|node w nodes ws' Hw _ IH]; constructor;
        [by apply (record_of_same_reading node w)|done].
    + intros _. clear Hws. exists (iter root).
      split; [apply iter_document_order|].
      induction Hrec as [|node w nodes ws' Hw _ IH]; constructor; [|done].
      by destruct (record_of_same_reading node w Hw) as (_ & ? & ? & ?).
  - injection Hparse as <-. split; [constructor|done].
Qed.

End ExtractorFeedsAnnotator.

Lemma parse_xml_hierarchy_feeds_annotator_witness :
  parse_xml_hierarchy sample_exists encoded_ET_parse "nested.xml"
  = Ok nested_records ∧
  parse_bounds <$> nested_records
  = [ Ok (0, 0, 10, 10); Ok (1, 1, 2, 2); Ok (3, 3, 4, 4); Ok (5, 5, 6, 6) ] ∧
  is_clickable <$> nested_records = [ false; false; true; false ] ∧
  Forall (fun w => ∃ bounds, getitem w "bounds" = Ok bounds) nested_records ∧
  ∃ nodes,
    document_order nested_tree nodes ∧
    Forall2 (fun node w =>
               parse_bounds w = parse_bounds (attrib_of node) ∧
               is_clickable w = is_clickable (attrib_of node) ∧
               has_text w = has_text (attrib_of node))
            (filter carries_bounds nodes) nested_records.
Proof.
  assert (parse_xml_hierarchy sample_exists encoded_ET_parse "nested.xml"
          = Ok nested_records) as Hparse by (vm_compute; reflexivity).
  destruct (parse_xml_hierarchy_feeds_annotator sample_exists encoded_ET_parse
              "nested.xml" nested_tree nested_records eq_refl Hparse)
    as [Hbounds Hnodes].
  split_and!; [exact Hparse|vm_compute; reflexivity|vm_compute; reflexivity
              |exact Hbounds|exact (Hnodes eq_refl)].
Defined.


(* ===================================================================== *)
(** * More on [analyze_ui_review_pair]                                    *)
(* ===================================================================== *)

Section AnalysisOutcome.

Context {Image Inputs Ids : Type}.
Variable Image_open : string → result Image.
Variable json_loads : string → result pyval.
Variable self : MLLMAnalyzer Image Inputs Ids.

Abbreviation analyze :=
  (analyze_ui_review_pair Image Inputs Ids Image_open json_loads self).

(** The whole of [analyze_ui_review_pair] past its guard, call by call. *)
Lemma analyze_steps path widget_details review_snippet log :
  path ≠ "" → review_snippet ≠ "" →
  let calls := call_sequence self path widget_details review_snippet in
  let prompt :=
    "<MORE_DETAILED_OCR>" ++ construct_prompt widget_details review_snippet in
  analyze (Some path) widget_details review_snippet log =
  match Image_open path with
  | Raise FileNotFoundError =>
      (Ok (image_not_found_record path), log ++ take 1 calls)
  | Raise e => (Raise e, log ++ take 1 calls)
  | Ok image =>
      match processor Image Inputs Ids self prompt image with
      | Raise e => (Raise e, log ++ take 3 calls)
      | Ok inputs =>
          match to_device Image Inputs Ids self inputs with
          | Raise e => (Raise e, log ++ take 3 calls)
          | Ok inputs' =>
              match model_generate Image Inputs Ids self inputs'
                      (max_tokens Image Inputs Ids self) with
              | Raise e => (Ok (generation_failed_record e), log ++ take 4 calls)
              | Ok ids =>
                  match batch_decode Image Inputs Ids self ids with
                  | Raise e => (Ok (generation_failed_record e), log ++ calls)
                  | Ok [] => (Ok (generation_failed_record IndexError), log ++ calls)
                  | Ok (text :: _) =>
                      (parse_llm_output json_loads text, log ++ calls)
                  end
              end
          end
      end
  end%list.
Proof.
  intros Hp Hs. cbv zeta. unfold analyze_ui_review_pair, call_sequence.
  cbn [no_path default from_option id]. rewrite !bool_decide_false by done.
  cbn [orb].
  unfold mbind, io_bind, attempt, call, lift, mret, io_ret, raise.
  generalize (construct_prompt widget_details review_snippet). intros prompt.
  destruct (Image_open path) as [image|e]; [|by destruct e].
  cbn [take]. rewrite <- ?app_assoc. cbn [app].
  destruct (processor _ _ _ self _ image) as [inputs|e]; [|done].
  destruct (to_device _ _ _ self inputs) as [inputs'|e]; [|done].
  destruct (model_generate _ _ _ self inputs' _) as [ids|e]; [|done].
  destruct (batch_decode _ _ _ self ids) as [[|text rest]|e]; done.
Qed.

Lemma analyze_guarded image_path widget_details review_snippet log :
  no_path image_path = true ∨ review_snippet = "" →
  analyze image_path widget_details review_snippet log
  = (Ok missing_inputs_record, log).
Proof. apply analyze_missing_inputs. Qed.

Lemma no_path_false image_path :
  no_path image_path = false → ∃ path, image_path = Some path ∧ path ≠ "".
Proof.
  destruct image_path as [path|]; [|done]. cbn [no_path].
  intros H%bool_decide_eq_false. eauto.
Qed.

(** X8.  Whatever its arguments, [analyze_ui_review_pair] makes its
    external calls in one fixed order and each at most once: opening the
    image, building the prompt, the processor on the prefixed prompt, one
    [generate] with the configured token budget, one [batch_decode].  What
    it adds to the log of calls is an initial part of that sequence. *)
Theorem analyze_ui_review_pair_call_order
    image_path widget_details review_snippet log :
  ∃ k, (analyze image_path widget_details review_snippet log).2
       = (log ++ take k (call_sequence self (default "" image_path)
                           widget_details review_snippet))%list.
Proof.
  destruct (no_path image_path) eqn:Hp.
  { exists 0%nat. rewrite analyze_guarded by (by left). cbn. by rewrite app_nil_r. }
  destruct (decide (review_snippet = "")) as [->|Hs].
  { exists 0%nat. rewrite analyze_guarded by (by right). cbn. by rewrite app_nil_r. }
  apply no_path_false in Hp as (path & -> & Hp). cbn [default from_option id].
  rewrite analyze_steps by done. cbv zeta.
  destruct (Image_open path) as [image|e];
    [|exists 1%nat; by destruct e].
  destruct (processor _ _ _ self _ image) as [inputs|e]; [|by exists 3%nat].
  destruct (to_device _ _ _ self inputs) as [inputs'|e]; [|by exists 3%nat].
  destruct (model_generate _ _ _ self inputs' _) as [ids|e]; [|by exists 4%nat].
  exists 5%nat.
  destruct (batch_decode _ _ _ self ids) as [[|text rest]|e]; done.
Qed.

Lemma analyze_result_cases
    image_path widget_details review_snippet log :
  match (analyze image_path widget_details review_snippet log).1 with
  | Ok v => ∃ d, v = PDict d
  | Raise e =>
      (Image_open (default "" image_path) = Raise e ∧ e ≠ FileNotFoundError) ∨
      (∃ image,
         processor Image Inputs Ids self
           ("<MORE_DETAILED_OCR>"
            ++ construct_prompt widget_details review_snippet) image
         = Raise e) ∨
      (∃ inputs, to_device Image Inputs Ids self inputs = Raise e) ∨
      (∃ text, decoder_escapes json_loads text e)
  end.
Proof.
  destruct (no_path image_path) eqn:Hp.
  { rewrite analyze_guarded by (by left). cbn. unfold missing_inputs_record. eauto. }
  destruct (decide (review_snippet = "")) as [->|Hs].
  { rewrite analyze_guarded by (by right). cbn. unfold missing_inputs_record. eauto. }
  apply no_path_false in Hp as (path & -> & Hp). cbn [default from_option id].
  rewrite analyze_steps by done. cbv zeta.
  destruct (Image_open path) as [image|e] eqn:Ho.
  2:{ destruct e; cbn [fst]; first [by left | unfold image_not_found_record; eauto]. }
  destruct (processor _ _ _ self _ image) as [inputs|e] eqn:Hpr;
    [|cbn [fst]; eauto].
  destruct (to_device _ _ _ self inputs) as [inputs'|e] eqn:Hd;
    [|cbn [fst]; eauto].
  destruct (model_generate _ _ _ self inputs' _) as [ids|e];
    [|cbn [fst]; unfold generation_failed_record; eauto].
  destruct (batch_decode _ _ _ self ids) as [[|text rest]|e]; cbn [fst];
    try (unfold generation_failed_record; by eauto).
  destruct (parse_llm_output_cases json_loads text)
    as [(d & _ & ->)|[(e & He & ->)|(_ & _ & ->)]];
    unfold error_record; eauto 6.
Qed.

(** X9.  [analyze_ui_review_pair] returns a dict or raises, and it raises
    only what [Image.open] raised other than [FileNotFoundError], what the
    processor raised, what moving the inputs to the device raised, or what
    [json.loads] raised on the candidate of the model's answer without the
    [except] clause of [parse_llm_output] naming it (the call of
    [parse_llm_output] stands outside every [try]).  A failure of
    [generate] or [batch_decode], an empty list of decoded texts and an
    answer on which [json.loads] raises [JSONDecodeError] never leave it
    as exceptions. *)
Theorem analyze_ui_review_pair_escapes
    image_path widget_details review_snippet log :
  match (analyze image_path widget_details review_snippet log).1 with
  | Ok v => ∃ d, v = PDict d
  | Raise e =>
      (Image_open (default "" image_path) = Raise e ∧ e ≠ FileNotFoundError) ∨
      (∃ image,
         processor Image Inputs Ids self
           ("<MORE_DETAILED_OCR>"
            ++ construct_prompt widget_details review_snippet) image
         = Raise e) ∨
      (∃ inputs, to_device Image Inputs Ids self inputs = Raise e) ∨
      (∃ text,
         json_candidate text ≠ "" ∧
         json_loads (json_candidate text) = Raise e ∧
         e ≠ JSONDecodeError ∧ ∀ msg, e ≠ ValueError msg ∧ e ≠ TypeError msg)
  end.
Proof.
  pose proof (analyze_result_cases image_path widget_details review_snippet log)
    as H.
  destruct (analyze image_path widget_details review_snippet log).1 as [v|e];
    [done|].
  destruct H as [H|[H|[H|(text & Hne & Hl & Hc)]]]; eauto.
  do 3 right. exists text. split_and!; [done|done|by intros ->|].
  intros msg. split; by intros ->.
Qed.

Lemma analyze_model_answers path widget_details review_snippet text log :
  path ≠ "" → review_snippet ≠ "" →
  model_answers Image_open self path widget_details review_snippet text →
  analyze (Some path) widget_details review_snippet log
  = (parse_llm_output json_loads text,
     (log ++ call_sequence self path widget_details review_snippet)%list).
Proof.
  intros Hp Hs (image & inputs & inputs' & ids & rest & Ho & Hpr & Hd & Hg & Hb).
  rewrite analyze_steps by done. cbv zeta. by rewrite Ho, Hpr, Hd, Hg, Hb.
Qed.


End AnalysisOutcome.


(* ===================================================================== *)
(** * More on the request handler                                         *)
(* ===================================================================== *)

Section RequestOutcome.

Context {Image Inputs Ids : Type}.
Variable Image_open : string → result Image.
Variable json_loads : string → result pyval.
Variable analyzer : option (MLLMAnalyzer Image Inputs Ids).
Variable nlp : option (string → list string).
Variable path_exists : string → bool.
Variable ET_parse : string → result element.
Variable imread_ok : string → bool.
Variable getTextSize : string → Z * Z.
Variable annotated_path_of : string → string.
Variable json_dumps : pyval → string.
Variable format_value : pyval → string.

Abbreviation run :=
  (run_vipra_ui_analysis Image Inputs Ids Image_open json_loads analyzer nlp
     path_exists ET_parse imread_ok getTextSize annotated_path_of json_dumps
     format_value).

Abbreviation prepared_for :=
  (prepared analyzer nlp path_exists ET_parse imread_ok getTextSize
     annotated_path_of).

(** A prepared request ends as its analysis ends: an exception of the
    analysis is the request's; a dict with an [error] key becomes a
    [gr.Error]; any other dict is dumped beside the annotated path. *)
Lemma run_prepared self shot review_text xml_file apath details snippet log :
  prepared_for self shot review_text xml_file apath details snippet →
  run (Some shot) review_text xml_file log =
  match analyze_ui_review_pair Image Inputs Ids Image_open json_loads self
          (Some apath) details snippet log with
  | (Raise e, log') => (Raise e, log')
  | (Ok (PDict d), log') =>
      if decide (is_Some (d !! "error"))
      then (Raise (GradioError (error_message format_value d)), log')
      else (Ok (apath, json_dumps (PDict d)), log')
  | (Ok v, log') =>
      match py_in "error" v with
      | Ok false => (Ok (apath, json_dumps v), log')
      | Ok true => (Raise (OtherError "object has no attribute 'get'"), log')
      | Raise e => (Raise e, log')
      end
  end.
Proof.
  intros (Han & Hrev & -> & els & Hels & Hann & Hpath).
  unfold run_vipra_ui_analysis. rewrite Han.
  rewrite bool_decide_false by done.
  change (if no_path (name <$> xml_file) then Ok []
          else parse_xml_hierarchy path_exists ET_parse
                 (default "" (name <$> xml_file)))
    with (request_elements path_exists ET_parse xml_file).
  rewrite io_bind_lift, Hels, io_bind_lift, Hann. cbn [unpack_pair].
  rewrite bool_decide_false by done.
  unfold mbind at 1, io_bind at 1.
  destruct (analyze_ui_review_pair _ _ _ _ _ _ _ _ _ _) as [[v|e] log'];
    [|done].
  rewrite io_bind_lift.
  destruct v as [| | | |s|l|d]; try done; cbn [py_in].
  - by destruct (contains s "error").
  - by destruct (existsb _ l).
  - destruct (decide (is_Some (d !! "error"))) as [Hsome|Hnone].
    + rewrite bool_decide_true by done. by rewrite !io_bind_lift.
    + by rewrite bool_decide_false.
Qed.


Lemma prepared_path self shot review_text xml_file apath details snippet :
  prepared_for self shot review_text xml_file apath details snippet →
  apath ≠ "".
Proof. by intros (_ & _ & _ & els & _ & _ & ?). Qed.

(** X11.  When the model's answer is defective, the request ends with a
    [gr.Error] whose message is the parser's error, a blank line, and
    "Raw Output: " followed by the whole raw answer; the five external
    calls were made once each. *)
Theorem run_reports_raw_output
    self shot review_text xml_file apath details snippet text log :
  prepared_for self shot review_text xml_file apath details snippet →
  snippet ≠ "" →
  model_answers Image_open self apath details snippet text →
  defective json_loads text →
  run (Some shot) review_text xml_file log
  = (Raise (GradioError
              ("Failed to parse a valid JSON response from the MLLM."
               ++ newline ++ newline ++ "Raw Output: " ++ text)),
     (log ++ call_sequence self apath details snippet)%list).
Proof.
  intros Hprep Hs Hmodel Hbad.
  rewrite (run_prepared _ _ _ _ _ _ _ _ Hprep).
  rewrite (analyze_model_answers Image_open json_loads self apath details
             snippet text log) by (done || by eapply prepared_path).
  rewrite parse_llm_output_rejections by done.
  unfold error_record. rewrite decide_True by (by simplify_map_eq).
  unfold error_message. by simplify_map_eq.
Qed.

(** X12.  A model answer that passes validation is still reported as a
    failure when its object has an [error] key: the request ends with a
    [gr.Error] built from that entry and from [raw_output]. *)
Theorem run_rejects_error_key
    self shot review_text xml_file apath details snippet text d log :
  prepared_for self shot review_text xml_file apath details snippet →
  snippet ≠ "" →
  model_answers Image_open self apath details snippet text →
  accepts json_loads text d →
  is_Some (d !! "error") →
  run (Some shot) review_text xml_file log
  = (Raise (GradioError (error_message format_value d)),
     (log ++ call_sequence self apath details snippet)%list).
Proof.
  intros Hprep Hs Hmodel Hacc Herr.
  rewrite (run_prepared _ _ _ _ _ _ _ _ Hprep).
  rewrite (analyze_model_answers Image_open json_loads self apath details
             snippet text log) by (done || by eapply prepared_path).
  rewrite (parse_llm_output_accept _ _ _ Hacc). by rewrite decide_True.
Qed.

(** X13.  A model answer that passes validation and has no [error] key
    is the request's result: the annotated image path and the dump of the
    decoded object, after the five external calls. *)
Theorem run_returns_validated_object
    self shot review_text xml_file apath details snippet text d log :
  prepared_for self shot review_text xml_file apath details snippet →
  snippet ≠ "" →
  model_answers Image_open self apath details snippet text →
  accepts json_loads text d →
  d !! "error" = None →
  run (Some shot) review_text xml_file log
  = (Ok (apath, json_dumps (PDict d)),
     (log ++ call_sequence self apath details snippet)%list).
Proof.
  intros Hprep Hs Hmodel Hacc Herr.
  rewrite (run_prepared _ _ _ _ _ _ _ _ Hprep).
  rewrite (analyze_model_answers Image_open json_loads self apath details
             snippet text log) by (done || by eapply prepared_path).
  rewrite (parse_llm_output_accept _ _ _ Hacc).
  rewrite decide_False; [done|]. rewrite Herr. by intros [? ?].
Qed.

(** X14.  A prepared request whose annotated image opens (or is reported
    missing) and whose processor and device transfer do not fail ends in
    one of three ways only: with the annotated path and a dump; with a
    [gr.Error]; or with an exception that [json.loads] raised on the
    candidate of a model answer and that the [except] clause of
    [parse_llm_output] does not name, such as [RecursionError].  With a
    decoder that raises nothing but [JSONDecodeError], the third way is
    closed. *)
Theorem run_ends_three_ways
    self shot review_text xml_file apath details snippet log :
  prepared_for self shot review_text xml_file apath details snippet →
  (∀ e, Image_open apath = Raise e → e = FileNotFoundError) →
  (∀ prompt image, is_ok (processor Image Inputs Ids self prompt image) = true) →
  (∀ inputs, is_ok (to_device Image Inputs Ids self inputs) = true) →
  match (run (Some shot) review_text xml_file log).1 with
  | Ok (path, _) => path = apath
  | Raise e =>
      (∃ msg, e = GradioError msg) ∨
      (∃ text,
         json_candidate text ≠ "" ∧
         json_loads (json_candidate text) = Raise e ∧
         e ≠ JSONDecodeError ∧ ∀ msg, e ≠ ValueError msg ∧ e ≠ TypeError msg)
  end ∧
  ((∀ s e, json_loads s = Raise e → e = JSONDecodeError) →
   match (run (Some shot) review_text xml_file log).1 with
   | Ok (path, _) => path = apath
   | Raise e => ∃ msg, e = GradioError msg
   end).
Proof.
  intros Hprep Hopen Hproc Hdev.
  assert (match (run (Some shot) review_text xml_file log).1 with
          | Ok (path, _) => path = apath
          | Raise e =>
              (∃ msg, e = GradioError msg) ∨
              (∃ text, decoder_escapes json_loads text e)
          end) as Hrun.
  { rewrite (run_prepared _ _ _ _ _ _ _ _ Hprep).
    pose proof (analyze_result_cases Image_open json_loads self (Some apath)
                  details snippet log) as Hcases.
    destruct (analyze_ui_review_pair _ _ _ _ _ _ _ _ _ _) as [[v|e] log'];
      cbn [fst] in Hcases.
    - destruct Hcases as [d ->].
      destruct (decide (is_Some (d !! "error"))); cbn [fst]; eauto.
    - cbn [fst]. destruct Hcases as [[Ho Hne]|[[image Hp]|[[inputs Hd]|Hesc]]].
      + cbn [default from_option id] in Ho. by destruct (Hne (Hopen _ Ho)).
      + specialize (Hproc ("<MORE_DETAILED_OCR>"
                           ++ construct_prompt details snippet) image).
        by rewrite Hp in Hproc.
      + specialize (Hdev inputs). by rewrite Hd in Hdev.
      + by right. }
  destruct ((run (Some shot) review_text xml_file log).1) as [[path dump]|e];
    [done|].
  split.
  - destruct Hrun as [?|(text & Hne & Hl & Hc)]; [by left|right].
    exists text. split_and!; [done|done|by intros ->|].
    intros msg. split; by intros ->.
  - intros Honly. destruct Hrun as [?|(text & Hne & Hl & Hc)]; [done|].
    apply Honly in Hl. by subst e.
Qed.

Lemma request_elements_unusable x :
  name x = "" ∨ path_exists (name x) = false
  ∨ ET_parse (name x) = Raise ParseError →
  request_elements path_exists ET_parse (Some x) = Ok [].
Proof.
  unfold request_elements. cbn [fmap option_fmap option_map no_path].
  intros [Hn|[He|Hp]].
  - by rewrite bool_decide_true.
  - destruct (bool_decide _); [done|]. cbn [default from_option id].
    unfold parse_xml_hierarchy. by rewrite He.
  - destruct (bool_decide _); [done|]. cbn [default from_option id].
    unfold parse_xml_hierarchy. rewrite Hp. by destruct (negb _).
Qed.

(** X15.  A hierarchy file without a name, one that does not exist and
    one that does not parse leave no trace: the request runs exactly as
    it does without a hierarchy file. *)
Theorem run_ignores_unusable_xml screenshot_image review_text x log :
  name x = "" ∨ path_exists (name x) = false
  ∨ ET_parse (name x) = Raise ParseError →
  run_vipra_ui_analysis Image Inputs Ids Image_open json_loads analyzer nlp
    path_exists ET_parse imread_ok getTextSize annotated_path_of json_dumps
    format_value screenshot_image review_text (Some x) log
  = run_vipra_ui_analysis Image Inputs Ids Image_open json_loads analyzer nlp
      path_exists ET_parse imread_ok getTextSize annotated_path_of json_dumps
      format_value screenshot_image review_text None log.
Proof.
  intros Hx. unfold run_vipra_ui_analysis.
  destruct analyzer as [self|]; [|done].
  destruct screenshot_image as [shot|]; [|done].
  destruct (bool_decide (strip review_text = "")); [done|].
  change (if no_path (name <$> Some x) then Ok []
          else parse_xml_hierarchy path_exists ET_parse
                 (default "" (name <$> Some x)))
    with (request_elements path_exists ET_parse (Some x)).
  by rewrite request_elements_unusable.
Qed.

Lemma strip_blank s : all_chars is_space s = true → strip s = "".
Proof.
  intros Hs. unfold strip, strip_by.
  assert (lstrip_by is_space s = "") as ->; [|done].
  induction s as [|c s IH]; [done|]. cbn [all_chars] in Hs.
  apply andb_true_iff in Hs as [Hc Hs]. cbn [lstrip_by]. rewrite Hc. auto.
Qed.

(** X16.  With the analyzer in place, a request without a screenshot, or
    with a review made of white space only, is refused with "Please
    upload a screenshot and provide a user review." before anything is
    read or called. *)
Theorem run_refuses_blank_request self screenshot_image review_text xml_file log :
  analyzer = Some self →
  screenshot_image = None ∨ all_chars is_space review_text = true →
  run screenshot_image review_text xml_file log
  = (Raise (GradioError "Please upload a screenshot and provide a user review."),
     log).
Proof.
  intros Han Hreq. unfold run_vipra_ui_analysis. rewrite Han.
  destruct Hreq as [-> | Hblank]; [done|].
  destruct screenshot_image; [|done].
  by rewrite (strip_blank _ Hblank), bool_decide_true.
Qed.

End RequestOutcome.


(* ===================================================================== *)
(** * The start of the service                                            *)
(* ===================================================================== *)

Section StartupFacts.

Variable path_exists : string → bool.
Variable yaml_safe_load : string → result pyval.
Variable cuda_is_available : bool.
Variable cuda_is_bf16_supported : bool.

(** X17.  When [__init__] gets past its settings, the configuration file
    exists and has the three entries under [mllm]; the device is "cuda"
    only if CUDA is available, and the tensor type is bfloat16 exactly when
    the device is "cuda" and bfloat16 is supported, so never on the CPU
    the code fell back to. *)
Theorem init_settings_sound config_path s :
  init_settings path_exists yaml_safe_load cuda_is_available
    cuda_is_bf16_supported config_path = Ok s →
  path_exists config_path = true ∧
  (∃ config mllm,
     yaml_safe_load config_path = Ok config ∧
     py_getitem config "mllm" = Ok mllm ∧
     py_getitem mllm "model_name" = Ok (model_name s) ∧
     py_getitem mllm "max_new_tokens" = Ok (max_new_tokens s)) ∧
  (eq_str (device s) "cuda" = true → cuda_is_available = true) ∧
  (dtype s = bfloat16 ↔
   eq_str (device s) "cuda" = true ∧ cuda_is_bf16_supported = true).
Proof.
  unfold init_settings. destruct (path_exists config_path); [|done].
  cbn [negb].
  intros (config & Hc & H)%bind_inv_ok.
  apply bind_inv_ok in H as (mllm & Hm & H).
  apply bind_inv_ok in H as (model & Hmodel & H). cbv beta in H.
  rewrite Hm, bind_ok in H.
  apply bind_inv_ok in H as (dev & Hdev & H). cbv beta in H.
  rewrite bind_ok in H.
  apply bind_inv_ok in H as (tokens & Htok & H). cbv beta zeta in H.
  injection H as <-. cbn [model_name device max_new_tokens dtype].
  split_and!; [done|by exists config, mllm| |].
  - destruct (eq_str dev "cuda") eqn:Hcuda; cbn [andb].
    + destruct cuda_is_available; [done|]. cbn. done.
    + by rewrite Hcuda.
  - destruct (eq_str dev "cuda") eqn:Hcuda; cbn [andb].
    + destruct cuda_is_available; cbn [negb].
      * rewrite Hcuda. cbn [andb].
        destruct cuda_is_bf16_supported; split; (done || by intros [? ?]).
      * cbn. split; (done || by intros [? ?]).
    + rewrite Hcuda. cbn [andb]. split; (done || by intros [? ?]).
Qed.

Context {Image Inputs Ids : Type}.
Variable from_pretrained : settings → result (MLLMAnalyzer Image Inputs Ids).
Variable Image_open : string → result Image.
Variable json_loads : string → result pyval.
Variable nlp : option (string → list string).
Variable ET_parse : string → result element.
Variable imread_ok : string → bool.
Variable getTextSize : string → Z * Z.
Variable annotated_path_of : string → string.
Variable json_dumps : pyval → string.
Variable format_value : pyval → string.

(** X18.  When the configuration file is missing, or [__init__] fails in
    any other way, the service starts without an analyzer, and every
    request, whatever it carries, is refused with "MLLM Analyzer is not
    available. ..." before anything is read or called. *)
Theorem failed_start_refuses_requests screenshot_image review_text xml_file log :
  path_exists "config.yaml" = false ∨
  is_ok (MLLMAnalyzer_init path_exists yaml_safe_load cuda_is_available
           cuda_is_bf16_supported Image Inputs Ids from_pretrained
           "config.yaml") = false →
  run_vipra_ui_analysis Image Inputs Ids Image_open json_loads
    (module_analyzer path_exists yaml_safe_load cuda_is_available
       cuda_is_bf16_supported Image Inputs Ids from_pretrained)
    nlp path_exists ET_parse imread_ok getTextSize annotated_path_of
    json_dumps format_value screenshot_image review_text xml_file log
  = (Raise (GradioError
              "MLLM Analyzer is not available. Check server logs for initialization errors."),
     log).
Proof.
  intros Hfail.
  assert (module_analyzer path_exists yaml_safe_load cuda_is_available
            cuda_is_bf16_supported Image Inputs Ids from_pretrained = None)
    as Hnone.
  { unfold module_analyzer.
    destruct Hfail as [Hmissing|Hbad].
    - unfold MLLMAnalyzer_init, init_settings. by rewrite Hmissing.
    - by destruct (MLLMAnalyzer_init _ _ _ _ _ _ _ _ _). }
  unfold run_vipra_ui_analysis. by rewrite Hnone.
Qed.

End StartupFacts.

Lemma init_settings_sound_witness :
  let s := {| model_name := PStr "microsoft/Florence-2-large";
              device := PStr "cpu";
              max_new_tokens := PInt 1024;
              dtype := float32 |} in
  (∃ config mllm,
     Ok sample_config = Ok config ∧
     py_getitem config "mllm" = Ok mllm ∧
     py_getitem mllm "model_name" = Ok (model_name s) ∧
     py_getitem mllm "max_new_tokens" = Ok (max_new_tokens s)) ∧
  (eq_str (device s) "cuda" = true → false = true) ∧
  (dtype s = bfloat16 ↔ eq_str (device s) "cuda" = true ∧ true = true).
Proof.
  cbv zeta.
  apply (init_settings_sound (fun _ => true) (fun _ => Ok sample_config)
           false true "config.yaml").
  reflexivity.
Defined.

Lemma failed_start_refuses_requests_witness :
  run_vipra_ui_analysis unit unit unit (fun _ => Ok ()) JsonRef.json_loads
    (module_analyzer (fun _ => false) (fun _ => Ok sample_config) true true
       unit unit unit (fun _ => Ok sample_analyzer))
    naive_nlp (fun _ => false) sample_ET_parse (fun _ => true) text_size
    (fun p => p ++ ".annotated.png") (fun _ => "{...}") (fun _ => "?")
    (Some {| name := "shot.png" |}) "The login button is broken." None []
  = (Raise (GradioError
              "MLLM Analyzer is not available. Check server logs for initialization errors."),
     []).
Proof.
  apply (failed_start_refuses_requests (fun _ => false)
           (fun _ => Ok sample_config) true true (fun _ => Ok sample_analyzer)
           (fun _ => Ok ()) JsonRef.json_loads naive_nlp sample_ET_parse
           (fun _ => true) text_size (fun p => p ++ ".annotated.png")
           (fun _ => "{...}") (fun _ => "?")
           (Some {| name := "shot.png" |}) "The login button is broken." None []).
  by left.
Defined.


Section SampleRequests.

Lemma sample_prepared (self : MLLMAnalyzer unit unit unit) :
  prepared (Some self) naive_nlp sample_exists sample_ET_parse (fun _ => true)
    text_size (fun p => p ++ ".annotated.png") self {| name := "shot.png" |}
    "The login button is broken." (Some {| name := "login.xml" |})
    "shot.png.annotated.png"
    ["label 1: class=N/A, text=Login, clickable=false"]
    "the login button is broken.".
Proof.
  unfold prepared. split; [reflexivity|]. split; [vm_compute; discriminate|].
  split; [vm_compute; reflexivity|].
  exists [login_record]. split; [vm_compute; reflexivity|].
  split; [vm_compute; reflexivity|vm_compute; discriminate].
Qed.

Lemma sample_model_answers text rest path details snippet :
  model_answers (fun _ => Ok ()) (decoding_analyzer (text :: rest))
    path details snippet text.
Proof. by exists (), (), (), (), rest. Qed.

End SampleRequests.


Lemma run_reports_raw_output_witness :
  sample_request (decoding_analyzer ["I cannot answer that."])
    (Some {| name := "shot.png" |}) "The login button is broken."
    (Some {| name := "login.xml" |}) []
  = (Raise (GradioError
              ("Failed to parse a valid JSON response from the MLLM."
               ++ newline ++ newline ++ "Raw Output: " ++ "I cannot answer that.")),
     ([] ++ call_sequence (decoding_analyzer ["I cannot answer that."])
              "shot.png.annotated.png"
              ["label 1: class=N/A, text=Login, clickable=false"]
              "the login button is broken.")%list).
Proof.
  unfold sample_request. apply run_reports_raw_output.
  - apply sample_prepared.
  - done.
  - apply sample_model_answers.
  - left. by vm_compute.
Defined.

Lemma error_key_accepted : accepts JsonRef.json_loads error_key_output error_key_object.
Proof.
  unfold accepts. split_and!.
  - by vm_compute.
  - by vm_compute.
  - unfold required_keys. repeat constructor; vm_compute; eauto.
  - exists "No". split; [by vm_compute|]. vm_compute. set_solver.
  - exists (PInt 1). split; by vm_compute.
Qed.

Lemma sure_accepted : accepts JsonRef.json_loads sure_output sure_object.
Proof.
  unfold accepts. split_and!.
  - by vm_compute.
  - by vm_compute.
  - unfold required_keys. repeat constructor; vm_compute; eauto.
  - exists "Yes". split; [by vm_compute|]. vm_compute. set_solver.
  - exists (PFloat (FDec 9 (-1))). split; by vm_compute.
Qed.

Lemma run_rejects_error_key_witness :
  sample_request (decoding_analyzer [error_key_output])
    (Some {| name := "shot.png" |}) "The login button is broken."
    (Some {| name := "login.xml" |}) []
  = (Raise (GradioError (error_message (fun _ => "?") error_key_object)),
     ([] ++ call_sequence (decoding_analyzer [error_key_output])
              "shot.png.annotated.png"
              ["label 1: class=N/A, text=Login, clickable=false"]
              "the login button is broken.")%list).
Proof.
  unfold sample_request.
  apply (run_rejects_error_key _ _ _ _ _ _ _ _ _ _ _ _ _ _ _ _ _ _
           error_key_output).
  - apply sample_prepared.
  - done.
  - apply sample_model_answers.
  - apply error_key_accepted.
  - vm_compute. eauto.
Defined.

Lemma run_returns_validated_object_witness :
  sample_request (decoding_analyzer [sure_output])
    (Some {| name := "shot.png" |}) "The login button is broken."
    (Some {| name := "login.xml" |}) []
  = (Ok ("shot.png.annotated.png", "{...}"),
     ([] ++ call_sequence (decoding_analyzer [sure_output])
              "shot.png.annotated.png"
              ["label 1: class=N/A, text=Login, clickable=false"]
              "the login button is broken.")%list).
Proof.
  unfold sample_request.
  apply (run_returns_validated_object _ _ _ _ _ _ _ _ _ (fun _ => "{...}")
           _ _ _ _ _ _ _ _ sure_output sure_object).
  - apply sample_prepared.
  - done.
  - apply sample_model_answers.
  - apply sure_accepted.
  - by vm_compute.
Defined.

Lemma run_ends_three_ways_witness :
  match (sample_request (decoding_analyzer ["I cannot answer that."])
           (Some {| name := "shot.png" |}) "The login button is broken."
           (Some {| name := "login.xml" |}) []).1 with
  | Ok (path, _) => path = "shot.png.annotated.png"
  | Raise e => ∃ msg, e = GradioError msg
  end.
Proof.
  unfold sample_request.
  apply (fun H1 H2 H3 H4 =>
           proj2 (run_ends_three_ways _ _ _ _ _ _ _ _ _ _ _
                    (decoding_analyzer ["I cannot answer that."]) _ _ _ _
                    ["label 1: class=N/A, text=Login, clickable=false"]
                    "the login button is broken." _ H1 H2 H3 H4)).
  - apply sample_prepared.
  - intros e [=].
  - done.
  - done.
  - intros s e. unfold JsonRef.json_loads.
    destruct (JsonRef.decode s); [done|]. by intros [= <-].
Defined.

Lemma run_ignores_unusable_xml_witness :
  sample_request sample_analyzer (Some {| name := "shot.png" |})
    "The login button is broken." (Some {| name := "missing.xml" |}) []
  = sample_request sample_analyzer (Some {| name := "shot.png" |})
      "The login button is broken." None [].
Proof.
  unfold sample_request. apply run_ignores_unusable_xml.
  right. left. by vm_compute.
Defined.

Lemma run_refuses_blank_request_witness :
  sample_request sample_analyzer (Some {| name := "shot.png" |})
    (" " ++ newline ++ " ") None []
  = (Raise (GradioError "Please upload a screenshot and provide a user review."),
     []).
Proof.
  unfold sample_request. apply (run_refuses_blank_request _ _ _ _ _ _ _ _ _ _ _
                                  sample_analyzer).
  - done.
  - right. by vm_compute.
Defined.


(* ===================================================================== *)
(** * Letter case and surrounding prose                                   *)
(* ===================================================================== *)

Section CaseAndProse.

Lemma lower_char_idem c : lower_char (lower_char c) = lower_char c.
Proof. destruct c as [[] [] [] [] [] [] [] []]; by vm_compute. Qed.

Lemma lower_idem s : lower (lower s) = lower s.
Proof.
  induction s as [|c s IH]; [done|]. cbn [lower].
  by rewrite lower_char_idem, IH.
Qed.

Lemma lower_empty s : lower s = "" ↔ s = "".
Proof.
  destruct s; cbn [lower]; split; first [done | intros H; discriminate H].
Qed.

(** X19.  Two reviews that differ in letter case only are segmented into
    the same sentences, so the same snippet is selected from them: the
    review is lowered before anything else looks at it. *)
Theorem preprocess_ignores_case nlp review1 review2 :
  lower review1 = lower review2 →
  preprocess_and_segment_review nlp review1
  = preprocess_and_segment_review nlp review2 ∧
  extract_functional_snippets (preprocess_and_segment_review nlp review1)
  = extract_functional_snippets (preprocess_and_segment_review nlp review2).
Proof.
  intros Hl.
  assert (preprocess_and_segment_review nlp review1
          = preprocess_and_segment_review nlp review2) as Heq.
  { unfold preprocess_and_segment_review. destruct nlp as [sents|]; [|done].
    rewrite Hl.
    destruct (decide (review1 = "")) as [H1|H1];
      destruct (decide (review2 = "")) as [H2|H2]; try done.
    - apply (proj2 (lower_empty _)) in H1. rewrite Hl in H1.
      by apply (proj1 (lower_empty _)) in H1.
    - apply (proj2 (lower_empty _)) in H2. rewrite <- Hl in H2.
      by apply (proj1 (lower_empty _)) in H2. }
  split; [done|]. by rewrite Heq.
Qed.

Lemma preprocess_ignores_case_witness :
  preprocess_and_segment_review naive_nlp "The App CRASHED. Nice colors."
  = preprocess_and_segment_review naive_nlp "the app crashed. nice colors." ∧
  extract_functional_snippets
    (preprocess_and_segment_review naive_nlp "The App CRASHED. Nice colors.")
  = extract_functional_snippets
      (preprocess_and_segment_review naive_nlp "the app crashed. nice colors.").
Proof.
  apply (preprocess_ignores_case naive_nlp "The App CRASHED. Nice colors."
           "the app crashed. nice colors.").
  by vm_compute.
Defined.

Variable json_loads : string → result pyval.

Lemma accepts_candidate text1 text2 d :
  json_candidate text1 = json_candidate text2 →
  accepts json_loads text1 d → accepts json_loads text2 d.
Proof. unfold accepts. by intros ->. Qed.

Lemma decoder_escapes_candidate text1 text2 e :
  json_candidate text1 = json_candidate text2 →
  decoder_escapes json_loads text1 e → decoder_escapes json_loads text2 e.
Proof. unfold decoder_escapes. by intros ->. Qed.

(** X20.  Prose around the JSON block does not change the verdict: with
    no opening brace before the block and no closing brace after it, the
    text is accepted exactly when the block alone is, with the same
    object; it raises exactly when the block alone does, with the same
    exception, which [json.loads] raised on the block; otherwise each
    gives the error record that carries its own raw text. *)
Theorem parse_llm_output_ignores_prose pre inner post :
  mem_char "{" pre = false →
  mem_char "}" post = false →
  let block := "{" ++ inner ++ "}" in
  let text := pre ++ block ++ post in
  (∃ d, parse_llm_output json_loads text = Ok (PDict d) ∧
        parse_llm_output json_loads block = Ok (PDict d) ∧
        json_loads block = Ok (PDict d)) ∨
  (parse_llm_output json_loads text = Ok (error_record text) ∧
   parse_llm_output json_loads block = Ok (error_record block)) ∨
  (∃ e, parse_llm_output json_loads text = Raise e ∧
        parse_llm_output json_loads block = Raise e ∧
        json_loads block = Raise e).
Proof.
  intros Hpre Hpost. cbv zeta.
  assert (json_candidate (pre ++ ("{" ++ inner ++ "}") ++ post)
          = "{" ++ inner ++ "}") as Hfull.
  { transitivity (json_candidate (pre ++ "{" ++ inner ++ "}" ++ post));
      [|by apply json_candidate_block].
    f_equal. by rewrite !str_app_assoc. }
  assert (json_candidate ("{" ++ inner ++ "}") = "{" ++ inner ++ "}") as Hblock
    by (by apply (json_candidate_block "" inner "")).
  destruct (parse_llm_output_cases json_loads
              (pre ++ ("{" ++ inner ++ "}") ++ post))
    as [(d & Hacc & H)|[(e & Hesc & H)|(Hno & Hnesc & H)]].
  - left. exists d. split_and!; [done| |].
    + apply parse_llm_output_accept.
      eapply accepts_candidate; [|exact Hacc]. by rewrite Hfull, Hblock.
    + destruct Hacc as (_ & Hl & _). by rewrite Hfull in Hl.
  - right. right. exists e. split_and!; [done| |].
    + apply parse_llm_output_escape.
      eapply decoder_escapes_candidate; [|exact Hesc]. by rewrite Hfull, Hblock.
    + destruct Hesc as (_ & Hl & _). by rewrite Hfull in Hl.
  - right. left. split; [done|]. apply parse_llm_output_reject.
    + intros d Hacc. apply (Hno d). eapply accepts_candidate; [|exact Hacc].
      by rewrite Hfull, Hblock.
    + intros e Hesc. apply (Hnesc e).
      eapply decoder_escapes_candidate; [|exact Hesc]. by rewrite Hfull, Hblock.
Qed.

End CaseAndProse.

Lemma parse_llm_output_ignores_prose_witness :
  parse_llm_output JsonRef.json_loads
    ("Sure! " ++ ("{" ++ sure_inner ++ "}") ++ " thanks")
  = Ok (PDict sure_object) ∧
  parse_llm_output JsonRef.json_loads ("{" ++ sure_inner ++ "}")
  = Ok (PDict sure_object).
Proof.
  assert (JsonRef.json_loads ("{" ++ sure_inner ++ "}") = Ok (PDict sure_object))
    as Hl by (vm_compute; reflexivity).
  destruct (parse_llm_output_ignores_prose JsonRef.json_loads "Sure! " sure_inner
              " thanks" eq_refl eq_refl)
    as [(d & H1 & H2 & H3)|[[_ H]|(e & _ & _ & H)]].
  - rewrite Hl in H3. injection H3 as <-. exact (conj H1 H2).
  - vm_compute in H. discriminate H.
  - rewrite Hl in H. discriminate H.
Defined.
